(** * QuizMaster: scoring engine, quiz session manager and leaderboard cache

    A shallow embedding of [scripts/scoring.js], [scripts/quiz.js],
    [scripts/leaderboard.js], the points table and the security manager of
    [scripts/config.js] and the helpers of the class [Utils], with the
    properties of the specification stated and settled against it, and
    further properties of the code.

    Numbers.  A JavaScript number is an IEEE-754 binary64 value.  Counts,
    point values and whole seconds are integers and are kept in [Z]; every
    expression of the source that leaves the integers (a product with 0.1,
    0.2, 0.3, 0.5 or 1.5, a quotient) is evaluated with the binary64
    operations of [SpecFloat] (precision 53, maximal exponent 1024) on the
    converted operands and brought back with the model of [Math.floor] or
    [Math.round]. *)

From Stdlib Require Import ZArith List String Ascii Bool Lia DecimalString.
From Stdlib Require Import Floats.SpecFloat.
From Stdlib Require Import Permutation Sorted.
Import ListNotations.

Local Open Scope string_scope.
Local Open Scope Z_scope.

(* ================================================================== *)
(** ** JavaScript numbers *)

Module JS.

Definition prec : Z := 53.
Definition emax : Z := 1024.

Definition number := spec_float.

(** The binary64 value of an integer (round to nearest even when the integer
    has more than 53 significant bits). *)
Definition of_Z (z : Z) : number := binary_normalize prec emax z 0 false.

Definition mul : number -> number -> number := SFmul prec emax.
Definition div : number -> number -> number := SFdiv prec emax.
Definition sub : number -> number -> number := SFsub prec emax.
Definition add : number -> number -> number := SFadd prec emax.

(** [x < y], [x <= y], [x >= y] and [x === y] on numbers; each is false when
    an operand is NaN. *)
Definition ltb : number -> number -> bool := SFltb.
Definition leb : number -> number -> bool := SFleb.
Definition geb (x y : number) : bool := SFleb y x.
Definition eqb : number -> number -> bool := SFeqb.

(** A decimal literal of the source, written as the fraction [n / d] (0.3 is
    [lit 3 10]), denotes the binary64 value nearest to it, which is what the
    correctly rounded quotient computes. *)
Definition lit (n d : Z) : number := div (of_Z n) (of_Z d).

(** [Math.floor] of a finite number, as an integer.  NaN and the infinities
    are returned unchanged by [Math.floor] and have no integer value; they
    are sent to 0 here.  The scoring functions never pass one for base
    points below [2^53] and the time thresholds of the source: see
    [incorrect_numbers_finite], [correct_numbers_finite] and
    [speed_numbers_finite]. *)
Definition floor (x : number) : Z :=
  match x with
  | S754_finite s m e => Z.shiftl (cond_Zopp s (Zpos m)) e
  | _ => 0
  end.

(** [Math.round]: the integer nearest to the number, a tie going to the
    larger one, that is [floor (x + 1/2)] computed exactly. *)
Definition round (x : number) : Z :=
  match x with
  | S754_finite s m e =>
      if 0 <=? e then Z.shiftl (cond_Zopp s (Zpos m)) e
      else Z.shiftr (cond_Zopp s (Zpos m) + Z.shiftl 1 (- e - 1)) (- e)
  | _ => 0
  end.

(** [Math.round] as a number: NaN and the infinities are returned as they
    are. *)
Definition Math_round (x : number) : number :=
  match x with
  | S754_finite _ _ _ => of_Z (round x)
  | _ => x
  end.

(** Truthiness of a number: [0], [-0] and [NaN] are falsy. *)
Definition truthy (x : number) : bool :=
  match x with
  | S754_zero _ | S754_nan => false
  | _ => true
  end.

(** The integer a number denotes, when it denotes one. *)
Definition to_Z (x : number) : option Z :=
  match x with
  | S754_zero _ => Some 0
  | S754_finite s m e =>
      if 0 <=? e then Some (Z.shiftl (cond_Zopp s (Zpos m)) e)
      else if Z.land (Zpos m) (Z.ones (- e)) =? 0
           then Some (Z.shiftr (cond_Zopp s (Zpos m)) (- e))
           else None
  | _ => None
  end.

(** *** Notions used to state facts about numbers *)

(** Not negative: [+0], a positive number, [+Infinity] (and [NaN], which
    [floor] sends to 0). *)
Definition nonneg (x : number) : bool :=
  match x with
  | S754_nan => true
  | S754_zero s | S754_infinity s | S754_finite s _ _ => negb s
  end.

(** [m * 2^n] on a mantissa. *)
Definition shl (m : positive) (n : Z) : positive :=
  match n with
  | Zpos k => Pos.iter xO m k
  | _ => m
  end.

(** The binary64 representation of [m * 2^e] for a mantissa of at most 53
    bits: the mantissa is brought to 53 bits. *)
Definition canon (m : positive) (e : Z) : number :=
  let t := 53 - Zpos (digits2_pos m) in
  S754_finite false (shl m t) (e - t).

(** Zero or a finite number: what [floor] and [round] take to an integer. *)
Definition finite (x : number) : bool :=
  match x with
  | S754_zero _ | S754_finite _ _ _ => true
  | _ => false
  end.

(** A positive number with a full mantissa and an exponent between [lo] and
    [hi]. *)
Definition normal (x : number) (lo hi : Z) : Prop :=
  exists m e, x = S754_finite false m e /\ Zpos (digits2_pos m) = 53 /\ lo <= e <= hi.

Definition normalb (lo hi : Z) (x : number) : bool :=
  match x with
  | S754_finite false m e => (Zpos (digits2_pos m) =? 53) && (lo <=? e) && (e <=? hi)
  | _ => false
  end.

End JS.

(* ================================================================== *)
(** ** Values and object property access *)

Module Obj.

(** What a property read can yield in the code below: [undefined], a number,
    or a member inherited from [Object.prototype] (a function, or the
    prototype object itself). *)
Inductive value :=
  | VUndefined
  | VNumber (x : JS.number)
  | VInherited.

Definition truthy (v : value) : bool :=
  match v with
  | VUndefined => false
  | VNumber x => JS.truthy x
  | VInherited => true
  end.

(** [a || b] *)
Definition or (a b : value) : value := if truthy a then a else b.

(** An object literal holding numbers: its own properties in source order. *)
Definition literal := list (string * JS.number).

Definition object_prototype : list string :=
  [ "constructor"; "hasOwnProperty"; "isPrototypeOf"; "propertyIsEnumerable";
    "toLocaleString"; "toString"; "valueOf"; "__proto__";
    "__defineGetter__"; "__defineSetter__"; "__lookupGetter__";
    "__lookupSetter__" ]%string.

Fixpoint own (o : literal) (key : string) : option JS.number :=
  match o with
  | [] => None
  | (k, x) :: rest => if String.eqb k key then Some x else own rest key
  end.

(** [o[key]]: an own property, else a member of [Object.prototype], else
    [undefined]. *)
Definition get (o : literal) (key : string) : value :=
  match own o key with
  | Some x => VNumber x
  | None =>
      if existsb (String.eqb key) object_prototype then VInherited
      else VUndefined
  end.

End Obj.

(* ================================================================== *)
(** ** scripts/config.js *)

Module Config.

(** [APP_CONFIG.quiz.pointsSystem] *)
Definition easy : Z := 10.
Definition medium : Z := 20.
Definition hard : Z := 30.
Definition bonusMultiplier : JS.number := JS.lit 15 10.
Definition penaltyPercentage : JS.number := JS.lit 1 10.

Definition pointsSystem : Obj.literal :=
  [ ("easy", JS.of_Z easy);
    ("medium", JS.of_Z medium);
    ("hard", JS.of_Z hard);
    ("bonusMultiplier", bonusMultiplier);
    ("penaltyPercentage", penaltyPercentage) ]%string.

End Config.

(* ================================================================== *)
(** ** Records shared by the scoring engine and the session manager *)

Module Question.
Record t := mk {
  id : string;
  question : string;
  type : string;
  options : list string;
  correctAnswer : string;
  explanation : string;
  category : string;
  difficulty : string;
  points : option Z          (* [None]: the property is absent *)
}.
End Question.

(** A bonus or penalty line item. *)
Module Item.
Record t := mk {
  type : string;
  amount : Z;
  description : string
}.
End Item.

Module Breakdown.
Record t := mk {
  base : Z;
  bonuses : Z;
  penalties : Z;
  total : Z
}.
End Breakdown.

(** The answer record built by [submitAnswer] and read by
    [calculateTotalScore].  The timestamp is left out. *)
Module Answer.
Record t := mk {
  questionId : string;
  question : string;
  selectedAnswer : string;
  correctAnswer : string;
  isCorrect : bool;
  points : Z;
  basePoints : Z;
  bonuses : list Item.t;
  penalties : list Item.t;
  breakdown : Breakdown.t;
  timeSpent : Z;
  timeSpentOnQuestion : Z;
  difficulty : string;
  category : string;
  explanation : string
}.
End Answer.

(** [array.push(x)] *)
Definition push {A : Type} (array : list A) (x : A) : list A := (array ++ [x])%list.

(** [`${n}`] for an integer [n]. *)
Definition string_of_Z (n : Z) : string :=
  NilZero.string_of_int (Z.to_int n).

(* ================================================================== *)
(** ** scripts/scoring.js: class ScoreCalculator *)

Module Scoring.

Import Obj.

(** [this.pointsConfig = APP_CONFIG.quiz.pointsSystem] *)
Definition pointsConfig : Obj.literal := Config.pointsSystem.

(** The value returned by [calculateAnswerPoints]. *)
Module Result.
Record t := mk {
  basePoints : Z;
  finalPoints : Z;
  bonuses : list Item.t;
  penalties : list Item.t;
  isCorrect : bool;
  breakdown : Breakdown.t
}.
End Result.

Module Options.
Record t := mk { perfectAccuracy : bool }.
Definition default : t := mk false.
End Options.

(** [items.reduce((sum, item) => sum + item.amount, 0)] *)
Definition sumAmounts (items : list Item.t) : Z :=
  fold_left (fun sum item => sum + Item.amount item) items 0.

Definition getBasePoints (difficulty : string) : value :=
  or (get pointsConfig difficulty) (get pointsConfig "medium").

Definition timeThresholds : Obj.literal :=
  [ ("easy", JS.of_Z 10); ("medium", JS.of_Z 15); ("hard", JS.of_Z 20) ]%string.

(** A threshold taken from [Object.prototype] is a function; the comparison
    [timeSpent <= threshold] is then false. *)
Definition calculateSpeedBonus (basePoints timeSpent : Z) (difficulty : string) : Z :=
  match or (get timeThresholds difficulty) (VNumber (JS.of_Z 15)) with
  | VNumber threshold =>
      if JS.leb (JS.of_Z timeSpent) threshold then
        let speedRatio := JS.div (JS.sub threshold (JS.of_Z timeSpent)) threshold in
        JS.floor (JS.mul (JS.mul (JS.of_Z basePoints) speedRatio) (JS.lit 3 10))
      else 0
  | _ => 0
  end.

Definition createPointsBreakdown (basePoints : Z) (bonuses penalties : list Item.t)
  : Breakdown.t :=
  {| Breakdown.base := basePoints;
     Breakdown.bonuses := sumAmounts bonuses;
     Breakdown.penalties := sumAmounts penalties;
     Breakdown.total := basePoints + sumAmounts bonuses - sumAmounts penalties |}.

(** [question.points || this.getBasePoints(question.difficulty)], when it is
    an integer.  A difficulty naming another key of the points table or a
    member of [Object.prototype] yields a base value that is no integer;
    such a base is outside the integer scores modelled here ([None]). *)
Definition basePointsOf (question : Question.t) : option Z :=
  let fallback :=
    match getBasePoints (Question.difficulty question) with
    | VNumber x => JS.to_Z x
    | _ => None
    end in
  match Question.points question with
  | Some p => if p =? 0 then fallback else Some p
  | None => fallback
  end.

(** The branch of a correct answer: final points and bonus line items. *)
Definition correctAnswerPoints (question : Question.t) (basePoints timeSpent consecutiveCorrect : Z)
    (options : Options.t) : Z * list Item.t :=
  let finalPoints := basePoints in
  let bonuses : list Item.t := [] in
  (* Consecutive answer bonus *)
  let '(finalPoints, bonuses) :=
    if 2 <=? consecutiveCorrect then
      let streakBonus :=
        JS.floor (JS.sub (JS.mul (JS.of_Z basePoints) Config.bonusMultiplier)
                         (JS.of_Z basePoints)) in
      (finalPoints + streakBonus,
       push bonuses (Item.mk "streak" streakBonus
                       (string_of_Z (consecutiveCorrect + 1) ++ " in a row!")))
    else (finalPoints, bonuses) in
  (* Speed bonus (if answered quickly) *)
  let speedBonus :=
    calculateSpeedBonus basePoints timeSpent (Question.difficulty question) in
  let '(finalPoints, bonuses) :=
    if 0 <? speedBonus then
      (finalPoints + speedBonus,
       push bonuses (Item.mk "speed" speedBonus "Quick answer!"))
    else (finalPoints, bonuses) in
  (* Difficulty bonus *)
  let '(finalPoints, bonuses) :=
    if String.eqb (Question.difficulty question) "hard" then
      let difficultyBonus := JS.floor (JS.mul (JS.of_Z basePoints) (JS.lit 2 10)) in
      (finalPoints + difficultyBonus,
       push bonuses (Item.mk "difficulty" difficultyBonus "Hard question mastery!"))
    else (finalPoints, bonuses) in
  (* Perfect accuracy bonus (if specified) *)
  if Options.perfectAccuracy options then
    let perfectBonus := JS.floor (JS.mul (JS.of_Z basePoints) (JS.lit 5 10)) in
    (finalPoints + perfectBonus,
     push bonuses (Item.mk "perfect" perfectBonus "Perfect accuracy!"))
  else (finalPoints, bonuses).

(** The branch of an incorrect answer: final points and penalty line items. *)
Definition incorrectAnswerPoints (basePoints timeSpent : Z) : Z * list Item.t :=
  let penalty := JS.floor (JS.mul (JS.of_Z basePoints) Config.penaltyPercentage) in
  let finalPoints := - penalty in
  let penalties := [Item.mk "incorrect" penalty "Incorrect answer"] in
  (* Time penalty for very slow answers *)
  if 60 <? timeSpent then
    let timePenalty := JS.floor (JS.mul (JS.of_Z penalty) (JS.lit 5 10)) in
    (finalPoints - timePenalty,
     push penalties (Item.mk "time" timePenalty "Slow response"))
  else (finalPoints, penalties).

Definition calculateAnswerPointsFrom (basePoints : Z) (question : Question.t)
    (isCorrect : bool) (timeSpent consecutiveCorrect : Z) (options : Options.t)
  : Result.t :=
  let '(finalPoints, bonuses, penalties) :=
    if isCorrect then
      let '(finalPoints, bonuses) :=
        correctAnswerPoints question basePoints timeSpent consecutiveCorrect options in
      (finalPoints, bonuses, [])
    else
      let '(finalPoints, penalties) := incorrectAnswerPoints basePoints timeSpent in
      (finalPoints, [], penalties) in
  {| Result.basePoints := basePoints;
     Result.finalPoints :=
       Z.max finalPoints
             (if isCorrect then 1
              else - JS.floor (JS.mul (JS.of_Z basePoints) (JS.lit 5 10)));
     Result.bonuses := bonuses;
     Result.penalties := penalties;
     Result.isCorrect := isCorrect;
     Result.breakdown := createPointsBreakdown basePoints bonuses penalties |}.

Definition calculateAnswerPoints (question : Question.t) (isCorrect : bool)
    (timeSpent consecutiveCorrect : Z) (options : Options.t) : option Result.t :=
  match basePointsOf question with
  | Some basePoints =>
      Some (calculateAnswerPointsFrom basePoints question isCorrect timeSpent
              consecutiveCorrect options)
  | None => None
  end.

(** [quizInfo]: each property may be absent ([{}] by default). *)
Module QuizInfo.
Record t := mk {
  category : option string;
  difficulty : option string;
  timeSpent : option Z;
  timeLimit : option Z
}.
Definition default : t := mk None None None None.
End QuizInfo.

Module Grade.
Record t := mk {
  letter : string;
  description : string;
  color : string;
  percentage : JS.number
}.
End Grade.

Module TotalBreakdown.
Record t := mk {
  baseScore : Z;
  bonuses : Z;
  penalties : Z;
  completionBonuses : Z
}.
End TotalBreakdown.

(** The value returned by [calculateTotalScore].  [maxPossiblePoints] is
    [None] when a base value met on the way is no integer. *)
Module Total.
Record t := mk {
  totalPoints : Z;
  correctAnswers : Z;
  totalQuestions : Z;
  accuracy : JS.number;
  maxPossiblePoints : option Z;
  totalBonuses : Z;
  totalPenalties : Z;
  completionBonuses : list Item.t;
  grade : Grade.t;
  breakdown : TotalBreakdown.t
}.
End Total.

(** [(correctAnswers / answers.length) * 100] *)
Definition percentCorrect (correctAnswers : Z) (answers : list Answer.t) : JS.number :=
  JS.mul (JS.div (JS.of_Z correctAnswers) (JS.of_Z (Z.of_nat (List.length answers))))
         (JS.of_Z 100).

Definition calculateCompletionBonuses (answers : list Answer.t) (correctAnswers : Z)
    (quizInfo : QuizInfo.t) : list Item.t :=
  let bonuses : list Item.t := [] in
  let count := Z.of_nat (List.length answers) in
  let accuracy := percentCorrect correctAnswers answers in
  (* Perfect score bonus, else high accuracy bonus *)
  let bonuses :=
    if JS.eqb accuracy (JS.of_Z 100) then
      push bonuses (Item.mk "perfect_score" (count * 10) "Perfect Score! 🏆")
    else if JS.geb accuracy (JS.of_Z 90) then
      push bonuses (Item.mk "high_accuracy" (count * 5) "Excellent Performance! ⭐")
    else bonuses in
  (* Quiz completion bonus *)
  let bonuses :=
    if 10 <=? count then
      push bonuses (Item.mk "completion" (count * 2) "Quiz Completion Bonus")
    else bonuses in
  (* Fast completion bonus *)
  let bonuses :=
    match QuizInfo.timeSpent quizInfo, QuizInfo.timeLimit quizInfo with
    | Some timeSpent, Some timeLimit =>
        if negb (timeSpent =? 0) && negb (timeLimit =? 0) then
          let timeRatio := JS.div (JS.of_Z timeSpent) (JS.of_Z timeLimit) in
          if JS.ltb timeRatio (JS.lit 5 10) && JS.geb accuracy (JS.of_Z 70) then
            push bonuses (Item.mk "speed_completion" (count * 3) "Lightning Fast! ⚡")
          else bonuses
        else bonuses
    | _, _ => bonuses
    end in
  (* Category mastery bonus (if all questions in category are correct) *)
  match QuizInfo.category quizInfo with
  | Some category =>
      if negb (String.eqb category EmptyString) && negb (String.eqb category "all")
         && JS.eqb accuracy (JS.of_Z 100) then
        push bonuses (Item.mk "category_mastery" (count * 8) (category ++ " Master! 🎓"))
      else bonuses
  | None => bonuses
  end.

Definition calculateGrade (accuracy : JS.number) (totalPoints : Z)
    (maxPoints : option Z) : Grade.t :=
  let '(letter, description, color) :=
    if JS.geb accuracy (JS.of_Z 95) then ("A+", "Outstanding!", "#10b981")
    else if JS.geb accuracy (JS.of_Z 90) then ("A", "Excellent!", "#10b981")
    else if JS.geb accuracy (JS.of_Z 85) then ("A-", "Very Good!", "#34d399")
    else if JS.geb accuracy (JS.of_Z 80) then ("B+", "Good!", "#60a5fa")
    else if JS.geb accuracy (JS.of_Z 75) then ("B", "Above Average", "#60a5fa")
    else if JS.geb accuracy (JS.of_Z 70) then ("B-", "Satisfactory", "#93c5fd")
    else if JS.geb accuracy (JS.of_Z 65) then ("C+", "Fair", "#fbbf24")
    else if JS.geb accuracy (JS.of_Z 60) then ("C", "Needs Improvement", "#fbbf24")
    else if JS.geb accuracy (JS.of_Z 50) then ("D", "Below Average", "#f87171")
    else ("F", "Keep Practicing!", "#ef4444") in
  {| Grade.letter := letter;
     Grade.description := description;
     Grade.color := color;
     Grade.percentage := accuracy |}.

(** The running sums of the [answers.forEach] loop. *)
Module Sums.
Record t := mk {
  totalPoints : Z;
  correctAnswers : Z;
  totalBonuses : Z;
  totalPenalties : Z;
  maxPossiblePoints : option Z
}.
Definition zero : t := mk 0 0 0 0 (Some 0).
End Sums.

(** [answer.basePoints || this.getBasePoints(answer.difficulty || 'medium')],
    when it is an integer.  An absent property reads as [0] or the empty string here. *)
Definition answerBasePoints (answer : Answer.t) : option Z :=
  if Answer.basePoints answer =? 0 then
    let difficulty :=
      if String.eqb (Answer.difficulty answer) EmptyString then "medium"
      else Answer.difficulty answer in
    match getBasePoints difficulty with
    | VNumber x => JS.to_Z x
    | _ => None
    end
  else Some (Answer.basePoints answer).

Definition addAnswer (sums : Sums.t) (answer : Answer.t) : Sums.t :=
  {| Sums.totalPoints := Sums.totalPoints sums + Answer.points answer;
     Sums.maxPossiblePoints :=
       match Sums.maxPossiblePoints sums, answerBasePoints answer with
       | Some m, Some b => Some (m + b)
       | _, _ => None
       end;
     Sums.correctAnswers :=
       if Answer.isCorrect answer then Sums.correctAnswers sums + 1
       else Sums.correctAnswers sums;
     Sums.totalBonuses := Sums.totalBonuses sums + sumAmounts (Answer.bonuses answer);
     Sums.totalPenalties :=
       Sums.totalPenalties sums + sumAmounts (Answer.penalties answer) |}.

Definition calculateTotalScore (answers : list Answer.t) (quizInfo : QuizInfo.t)
  : Total.t :=
  (* Calculate individual answer scores *)
  let sums := fold_left addAnswer answers Sums.zero in
  let correctAnswers := Sums.correctAnswers sums in
  (* Calculate completion bonuses *)
  let completionBonuses := calculateCompletionBonuses answers correctAnswers quizInfo in
  let totalPoints := Sums.totalPoints sums + sumAmounts completionBonuses in
  (* Calculate accuracy *)
  let accuracy :=
    if (0 <? List.length answers)%nat then percentCorrect correctAnswers answers
    else JS.of_Z 0 in
  (* Calculate performance grade *)
  let grade := calculateGrade accuracy totalPoints (Sums.maxPossiblePoints sums) in
  {| Total.totalPoints := Z.max 0 totalPoints;
     Total.correctAnswers := correctAnswers;
     Total.totalQuestions := Z.of_nat (List.length answers);
     Total.accuracy :=
       JS.div (JS.of_Z (JS.round (JS.mul accuracy (JS.of_Z 10)))) (JS.of_Z 10);
     Total.maxPossiblePoints := Sums.maxPossiblePoints sums;
     Total.totalBonuses := Sums.totalBonuses sums;
     Total.totalPenalties := Sums.totalPenalties sums;
     Total.completionBonuses := completionBonuses;
     Total.grade := grade;
     Total.breakdown :=
       {| TotalBreakdown.baseScore :=
            totalPoints - Sums.totalBonuses sums + Sums.totalPenalties sums;
          TotalBreakdown.bonuses := Sums.totalBonuses sums;
          TotalBreakdown.penalties := Sums.totalPenalties sums;
          TotalBreakdown.completionBonuses := sumAmounts completionBonuses |} |}.

(** *** Notions used to state the properties of the scoring engine *)

Definition validDifficulty (difficulty : string) : Prop :=
  difficulty = "easy" \/ difficulty = "medium" \/ difficulty = "hard".

(** The point value of a question, when it carries one, is a non-negative
    integer that a number holds exactly. *)
Definition validPoints (question : Question.t) : Prop :=
  match Question.points question with
  | Some p => 0 <= p < 2 ^ 53
  | None => True
  end.

(** [answers.filter(a => a.isCorrect).length] *)
Definition correctCount (answers : list Answer.t) : Z :=
  Z.of_nat (List.length (filter Answer.isCorrect answers)).

(** [100 * c / n] rounded to one decimal place, in tenths: the integer
    nearest to [1000 * c / n], a tie going up. *)
Definition tenthsOfPercent (c n : Z) : Z := (2000 * c + n) / (2 * n).

(** For [c] correct answers among [n]: the tenths that [Math.round] yields
    are those of the exact percentage. *)
Definition tenthsAgree (n c : nat) : bool :=
  JS.round (JS.mul (JS.mul (JS.div (JS.of_Z (Z.of_nat c)) (JS.of_Z (Z.of_nat n)))
                           (JS.of_Z 100))
                   (JS.of_Z 10))
  =? tenthsOfPercent (Z.of_nat c) (Z.of_nat n).

(** An answer record with given correctness and points. *)
Definition plainAnswer (isCorrect : bool) (points : Z) : Answer.t :=
  Answer.mk "1" "?" "a" "b" isCorrect points 10 [] []
            (Breakdown.mk 10 0 0 10) 0 0 "easy" "Science" "Some explanation.".

(** The ratio [(threshold - timeSpent) / threshold] of the speed bonus. *)
Definition speedRatio (threshold timeSpent : Z) : JS.number :=
  JS.div (JS.sub (JS.of_Z threshold) (JS.of_Z timeSpent)) (JS.of_Z threshold).

(** The ratio is zero or has a full mantissa. *)
Definition ratioOk (threshold : Z) (timeSpent : nat) : bool :=
  let r := speedRatio threshold (Z.of_nat timeSpent) in
  match r with
  | S754_zero _ => true
  | _ => JS.normalb (-60) (-52) r
  end.

End Scoring.

(* ================================================================== *)
(** ** Utils: strings and [shuffleArray] *)

Module Utils.

(** [toLowerCase] and [toUpperCase] on the ASCII letters (the categories and
    difficulties of the application are ASCII). *)
Definition lowerAscii (c : ascii) : ascii :=
  let n := nat_of_ascii c in
  if ((65 <=? n) && (n <=? 90))%nat then ascii_of_nat (n + 32) else c.

Definition upperAscii (c : ascii) : ascii :=
  let n := nat_of_ascii c in
  if ((97 <=? n) && (n <=? 122))%nat then ascii_of_nat (n - 32) else c.

Fixpoint mapString (f : ascii -> ascii) (s : string) : string :=
  match s with
  | EmptyString => EmptyString
  | String c rest => String (f c) (mapString f rest)
  end.

Definition toLowerCase : string -> string := mapString lowerAscii.
Definition toUpperCase : string -> string := mapString upperAscii.

(** [s.slice(-n)]: the last [n] characters. *)
Definition sliceLast (n : nat) (s : string) : string :=
  let len := String.length s in
  String.substring (len - n) (len - (len - n)) s.

(** [s.charAt(0)] *)
Definition charAt0 (s : string) : string :=
  match s with
  | EmptyString => EmptyString
  | String c _ => String c EmptyString
  end.

Section Arrays.
Context {A : Type}.

(** [array[i] = x] for an index inside the array. *)
Fixpoint assign (array : list A) (i : nat) (x : A) : list A :=
  match array, i with
  | [], _ => []
  | _ :: rest, O => x :: rest
  | y :: rest, S i' => y :: assign rest i' x
  end.

(** [[array[i], array[j]] = [array[j], array[i]]] *)
Definition swap (array : list A) (i j : nat) : list A :=
  match nth_error array i, nth_error array j with
  | Some x, Some y => assign (assign array i y) j x
  | _, _ => array
  end.

(** [Math.floor(Math.random() * (i + 1))] is some index in [0..i]; the
    random source is a function giving the draw of each round, reduced
    into that range. *)
Variable random : nat -> nat.

Fixpoint shuffleLoop (i : nat) (shuffled : list A) : list A :=
  match i with
  | O => shuffled
  | S i' =>
      let j := Nat.modulo (random i) (i + 1) in
      shuffleLoop i' (swap shuffled i j)
  end.

Definition shuffleArray (array : list A) : list A :=
  shuffleLoop (List.length array - 1) array.

(** [array.slice(0, end)] *)
Definition slice0 (array : list A) (finish : Z) : list A :=
  let len := Z.of_nat (List.length array) in
  let final := if finish <? 0 then Z.max (len + finish) 0 else Z.min finish len in
  firstn (Z.to_nat final) array.

End Arrays.

End Utils.

(* ================================================================== *)
(** ** scripts/quiz.js: class QuizManager

    The external store is absent ([authManager.supabase] is not set), so
    questions come from the local list and nothing is mirrored remotely. *)

Module Quiz.

Definition dq : string := String (ascii_of_nat 34) EmptyString.

Definition placeholderQuestions : list Question.t :=
  [ Question.mk "1" "What is the capital of France?" "multiple_choice"
      ["London"; "Berlin"; "Paris"; "Madrid"] "Paris"
      "Paris is the capital and most populous city of France."
      "Geography" "easy" (Some 10);
    Question.mk "2" "Which planet is known as the Red Planet?" "multiple_choice"
      ["Venus"; "Mars"; "Jupiter"; "Saturn"] "Mars"
      "Mars is called the Red Planet due to its reddish appearance."
      "Science" "easy" (Some 10);
    Question.mk "3" "Who painted the Mona Lisa?" "multiple_choice"
      ["Vincent van Gogh"; "Pablo Picasso"; "Leonardo da Vinci"; "Michelangelo"]
      "Leonardo da Vinci"
      "The Mona Lisa was painted by Leonardo da Vinci between 1503 and 1519."
      "Art" "medium" (Some 20);
    Question.mk "4" "What is the largest ocean on Earth?" "multiple_choice"
      ["Atlantic Ocean"; "Indian Ocean"; "Arctic Ocean"; "Pacific Ocean"]
      "Pacific Ocean"
      "The Pacific Ocean is the largest and deepest ocean on Earth."
      "Geography" "easy" (Some 10);
    Question.mk "5" "In which year did World War II end?" "multiple_choice"
      ["1944"; "1945"; "1946"; "1947"] "1945"
      "World War II ended in 1945 with the surrender of Japan."
      "History" "medium" (Some 20);
    Question.mk "6" "The Great Wall of China is visible from space." "true_false"
      ["True"; "False"] "False"
      "This is a common myth. The Great Wall is not visible from space with the naked eye."
      "General Knowledge" "medium" (Some 20);
    Question.mk "7" "What gas do plants absorb from the atmosphere?" "multiple_choice"
      ["Oxygen"; "Nitrogen"; "Carbon Dioxide"; "Hydrogen"] "Carbon Dioxide"
      "Plants absorb carbon dioxide from the atmosphere during photosynthesis."
      "Science" "easy" (Some 10);
    Question.mk "8"
      "How many players are on a basketball team on the court at one time?"
      "multiple_choice" ["4"; "5"; "6"; "7"] "5"
      "Each basketball team has 5 players on the court at one time."
      "Sports" "easy" (Some 10);
    Question.mk "9"
      ("Which movie features the song " ++ dq ++ "Let It Go" ++ dq ++ "?")
      "multiple_choice" ["Moana"; "Frozen"; "Tangled"; "The Little Mermaid"] "Frozen"
      (dq ++ "Let It Go" ++ dq
         ++ " is the famous song from Disney's Frozen, sung by Elsa.")
      "Entertainment" "easy" (Some 10);
    Question.mk "10" ("What does " ++ dq ++ "WWW" ++ dq ++ " stand for?")
      "multiple_choice"
      ["World Wide Web"; "World Web Wide"; "Wide World Web"; "Web World Wide"]
      "World Wide Web"
      "WWW stands for World Wide Web, the information system on the Internet."
      "Technology" "easy" (Some 10) ]%string.

(** [x && x !== 'all'] for a filter argument. *)
Definition filterGiven (x : string) : bool :=
  negb (String.eqb x EmptyString) && negb (String.eqb x "all").

(** The two filters of [generatePlaceholderQuestions]. *)
Definition filterQuestions (category difficulty : string) : list Question.t :=
  (* Filter by category if specified *)
  let filteredQuestions :=
    if filterGiven category then
      filter (fun q => String.eqb (Utils.toLowerCase (Question.category q))
                                  (Utils.toLowerCase category))
             placeholderQuestions
    else placeholderQuestions in
  (* Filter by difficulty if specified *)
  if filterGiven difficulty then
    filter (fun q => String.eqb (Utils.toLowerCase (Question.difficulty q))
                                (Utils.toLowerCase difficulty))
           filteredQuestions
  else filteredQuestions.

Definition generatePlaceholderQuestions (random : nat -> nat) (count : Z)
    (category difficulty : string) : list Question.t :=
  let filteredQuestions := filterQuestions category difficulty in
  (* If no questions match filters, return all questions *)
  let filteredQuestions :=
    match filteredQuestions with
    | [] => placeholderQuestions
    | _ => filteredQuestions
    end in
  (* Shuffle and return requested number of questions *)
  let shuffled := Utils.shuffleArray random filteredQuestions in
  Utils.slice0 shuffled (Z.min count (Z.of_nat (List.length shuffled))).

(** [getPointsForDifficulty(difficulty)], used for the rows of the store: a
    table of its own with the three tiers only, and 10 as the fallback. *)
Definition getPointsForDifficulty (difficulty : string) : Obj.value :=
  let pointsMap : Obj.literal :=
    [ ("easy", JS.of_Z Config.easy);
      ("medium", JS.of_Z Config.medium);
      ("hard", JS.of_Z Config.hard) ]%string in
  Obj.or (Obj.get pointsMap difficulty) (Obj.VNumber (JS.of_Z 10)).

(** [this.currentQuiz]; the start date is left out. *)
Module Session.
Record t := mk {
  id : string;
  category : string;
  difficulty : string;
  questionCount : Z;
  timeLimit : Z;
  sessionId : string
}.
End Session.

(** The value returned by [calculateResults] and [endQuiz]. *)
Module Results.
Record t := mk {
  quizId : string;
  sessionId : string;
  category : string;
  difficulty : string;
  totalQuestions : Z;
  correctAnswers : Z;
  incorrectAnswers : Z;
  accuracy : JS.number;
  score : Z;
  maxPossiblePoints : option Z;
  grade : Scoring.Grade.t;
  breakdown : Scoring.TotalBreakdown.t;
  completionBonuses : list Item.t;
  timeSpent : Z;
  timeLimit : Z;
  answers : list Answer.t
}.
End Results.

(** The fields of the manager, together with what the callbacks it leaves
    behind need: the number of pending [setTimeout] callbacks that move on to
    the next question, and the [quiz_results] list in local storage. *)
Module State.
Record t := mk {
  currentQuiz : option Session.t;
  questions : list Question.t;
  currentQuestionIndex : nat;
  userAnswers : list Answer.t;
  score : Z;
  timeRemaining : Z;
  timer : bool;                 (* an interval is running *)
  isQuizActive : bool;
  pendingAdvances : nat;
  quizResults : list Results.t
}.
End State.

(** [constructor()] *)
Definition initial : State.t :=
  {| State.currentQuiz := None;
     State.questions := [];
     State.currentQuestionIndex := 0;
     State.userAnswers := [];
     State.score := 0;
     State.timeRemaining := 0;
     State.timer := false;
     State.isQuizActive := false;
     State.pendingAdvances := 0;
     State.quizResults := [] |}.

Definition resetQuizState (s : State.t) : State.t :=
  {| State.currentQuiz := None;
     State.questions := [];
     State.currentQuestionIndex := 0;
     State.userAnswers := [];
     State.score := 0;
     State.timeRemaining := 0;
     State.timer := false;
     State.isQuizActive := false;
     State.pendingAdvances := State.pendingAdvances s;
     State.quizResults := State.quizResults s |}.

(** What a call leaves: a returned value, or an exception thrown on the way
    (a property read on [null]). *)
Inductive completion (A : Type) :=
  | Returned (a : A)
  | Thrown.
Arguments Returned {A} a.
Arguments Thrown {A}.

(** [startQuiz(category, difficulty, questionCount)] with the identifiers
    that [Utils.generateUUID] hands out and the random source of the
    shuffle.  It always succeeds when the store is absent. *)
Definition startQuiz (quizId sessionId : string) (random : nat -> nat)
    (category difficulty : string) (questionCount : Z) (s : State.t) : State.t :=
  let s := resetQuizState s in
  let questions := generatePlaceholderQuestions random questionCount category difficulty in
  let quiz :=
    {| Session.id := quizId;
       Session.category := category;
       Session.difficulty := difficulty;
       Session.questionCount := questionCount;
       Session.timeLimit := questionCount * 30;
       Session.sessionId := sessionId |} in
  {| State.currentQuiz := Some quiz;
     State.questions := questions;
     State.currentQuestionIndex := State.currentQuestionIndex s;
     State.userAnswers := State.userAnswers s;
     State.score := State.score s;
     State.timeRemaining := Session.timeLimit quiz;
     State.timer := true;
     State.isQuizActive := true;
     State.pendingAdvances := State.pendingAdvances s;
     State.quizResults := State.quizResults s |}.

(** The loop runs over the answers from the last one backwards. *)
Fixpoint countLeadingCorrect (answers : list Answer.t) : Z :=
  match answers with
  | [] => 0
  | a :: rest => if Answer.isCorrect a then 1 + countLeadingCorrect rest else 0
  end.

Definition getConsecutiveCorrectCount (s : State.t) : Z :=
  countLeadingCorrect (rev (State.userAnswers s)).

Definition calculateResults (s : State.t) : completion Results.t :=
  match State.currentQuiz s with
  | None => Thrown
  | Some quiz =>
      let correctAnswers :=
        Z.of_nat (List.length (filter Answer.isCorrect (State.userAnswers s))) in
      let totalQuestions := Z.of_nat (List.length (State.questions s)) in
      let timeSpent := Session.timeLimit quiz - State.timeRemaining s in
      let scoringResults :=
        Scoring.calculateTotalScore (State.userAnswers s)
          {| Scoring.QuizInfo.category := Some (Session.category quiz);
             Scoring.QuizInfo.difficulty := Some (Session.difficulty quiz);
             Scoring.QuizInfo.timeSpent := Some timeSpent;
             Scoring.QuizInfo.timeLimit := Some (Session.timeLimit quiz) |} in
      Returned
        {| Results.quizId := Session.id quiz;
           Results.sessionId := Session.sessionId quiz;
           Results.category := Session.category quiz;
           Results.difficulty := Session.difficulty quiz;
           Results.totalQuestions := totalQuestions;
           Results.correctAnswers := correctAnswers;
           Results.incorrectAnswers := totalQuestions - correctAnswers;
           Results.accuracy := Scoring.Total.accuracy scoringResults;
           Results.score := Scoring.Total.totalPoints scoringResults;
           Results.maxPossiblePoints := Scoring.Total.maxPossiblePoints scoringResults;
           Results.grade := Scoring.Total.grade scoringResults;
           Results.breakdown := Scoring.Total.breakdown scoringResults;
           Results.completionBonuses := Scoring.Total.completionBonuses scoringResults;
           Results.timeSpent := timeSpent;
           Results.timeLimit := Session.timeLimit quiz;
           Results.answers := State.userAnswers s |}
  end.

(** [saveQuizResults]: without the store, the results are appended to the
    list kept in local storage. *)
Definition saveQuizResults (results : Results.t) (s : State.t) : State.t :=
  {| State.currentQuiz := State.currentQuiz s;
     State.questions := State.questions s;
     State.currentQuestionIndex := State.currentQuestionIndex s;
     State.userAnswers := State.userAnswers s;
     State.score := State.score s;
     State.timeRemaining := State.timeRemaining s;
     State.timer := State.timer s;
     State.isQuizActive := State.isQuizActive s;
     State.pendingAdvances := State.pendingAdvances s;
     State.quizResults := push (State.quizResults s) results |}.

(** [endQuiz()]: [null] ([None]) when no quiz is active. *)
Definition endQuiz (s : State.t) : State.t * completion (option Results.t) :=
  if negb (State.isQuizActive s) then (s, Returned None)
  else
    (* Stop timer *)
    let s :=
      {| State.currentQuiz := State.currentQuiz s;
         State.questions := State.questions s;
         State.currentQuestionIndex := State.currentQuestionIndex s;
         State.userAnswers := State.userAnswers s;
         State.score := State.score s;
         State.timeRemaining := State.timeRemaining s;
         State.timer := false;
         State.isQuizActive := false;
         State.pendingAdvances := State.pendingAdvances s;
         State.quizResults := State.quizResults s |} in
    (* Calculate final results *)
    match calculateResults s with
    | Thrown => (s, Thrown)
    | Returned results => (saveQuizResults results s, Returned (Some results))
    end.

(** The value returned by [submitAnswer]. *)
Module Submitted.
Inductive t :=
  | NoActiveQuestion
  | Accepted (isCorrect : bool) (points totalScore : Z) (explanation : string).
End Submitted.

(** [submitAnswer(answer)].  The scoring engine is installed
    ([window.scoreCalculator]).  The step is [None] when the question has no
    integer base value, which the scores of this model do not cover. *)
Definition submitAnswer (answer : string) (s : State.t)
  : option (State.t * completion Submitted.t) :=
  if negb (State.isQuizActive s)
     || (List.length (State.questions s) <=? State.currentQuestionIndex s)%nat
  then Some (s, Returned Submitted.NoActiveQuestion)
  else
    match nth_error (State.questions s) (State.currentQuestionIndex s),
          State.currentQuiz s with
    | Some question, Some quiz =>
        let isCorrect := String.eqb answer (Question.correctAnswer question) in
        (* Calculate points using scoring system *)
        let consecutiveCorrect := getConsecutiveCorrectCount s in
        let timeSpentOnQuestion :=
          (Session.timeLimit quiz - State.timeRemaining s)
          - match rev (State.userAnswers s) with
            | last :: _ => Answer.timeSpent last
            | [] => 0
            end in
        match Scoring.calculateAnswerPoints question isCorrect timeSpentOnQuestion
                consecutiveCorrect Scoring.Options.default with
        | None => None
        | Some scoringResult =>
            let points := Scoring.Result.finalPoints scoringResult in
            (* Store answer *)
            let answerRecord :=
              {| Answer.questionId := Question.id question;
                 Answer.question := Question.question question;
                 Answer.selectedAnswer := answer;
                 Answer.correctAnswer := Question.correctAnswer question;
                 Answer.isCorrect := isCorrect;
                 Answer.points := points;
                 Answer.basePoints :=
                   if Scoring.Result.basePoints scoringResult =? 0 then
                     match Question.points question with
                     | Some p => if p =? 0 then 10 else p
                     | None => 10
                     end
                   else Scoring.Result.basePoints scoringResult;
                 Answer.bonuses := Scoring.Result.bonuses scoringResult;
                 Answer.penalties := Scoring.Result.penalties scoringResult;
                 Answer.breakdown := Scoring.Result.breakdown scoringResult;
                 Answer.timeSpent := Session.timeLimit quiz - State.timeRemaining s;
                 Answer.timeSpentOnQuestion := timeSpentOnQuestion;
                 Answer.difficulty := Question.difficulty question;
                 Answer.category := Question.category question;
                 Answer.explanation := Question.explanation question |} in
            Some
              ({| State.currentQuiz := State.currentQuiz s;
                  State.questions := State.questions s;
                  State.currentQuestionIndex := State.currentQuestionIndex s;
                  State.userAnswers := push (State.userAnswers s) answerRecord;
                  State.score := State.score s + points;
                  State.timeRemaining := State.timeRemaining s;
                  State.timer := State.timer s;
                  State.isQuizActive := State.isQuizActive s;
                  (* Move to next question or end quiz after delay *)
                  State.pendingAdvances := S (State.pendingAdvances s);
                  State.quizResults := State.quizResults s |},
               Returned (Submitted.Accepted isCorrect points (State.score s + points)
                           (Question.explanation question)))
        end
    | Some _, None => Some (s, Thrown)
    | None, _ => Some (s, Thrown)
    end.

(** The callback that [submitAnswer] schedules with [setTimeout(..., 2000)]. *)
Definition advance (s : State.t) : State.t :=
  let s :=
    {| State.currentQuiz := State.currentQuiz s;
       State.questions := State.questions s;
       State.currentQuestionIndex := S (State.currentQuestionIndex s);
       State.userAnswers := State.userAnswers s;
       State.score := State.score s;
       State.timeRemaining := State.timeRemaining s;
       State.timer := State.timer s;
       State.isQuizActive := State.isQuizActive s;
       State.pendingAdvances := Nat.pred (State.pendingAdvances s);
       State.quizResults := State.quizResults s |} in
  if (List.length (State.questions s) <=? State.currentQuestionIndex s)%nat
  then fst (endQuiz s)
  else s.

(** The callback of the one-second interval set by [startTimer]. *)
Definition tick (s : State.t) : State.t :=
  let s :=
    {| State.currentQuiz := State.currentQuiz s;
       State.questions := State.questions s;
       State.currentQuestionIndex := State.currentQuestionIndex s;
       State.userAnswers := State.userAnswers s;
       State.score := State.score s;
       State.timeRemaining := State.timeRemaining s - 1;
       State.timer := State.timer s;
       State.isQuizActive := State.isQuizActive s;
       State.pendingAdvances := State.pendingAdvances s;
       State.quizResults := State.quizResults s |} in
  if State.timeRemaining s <=? 0 then fst (endQuiz s) else s.

(** What can happen to the manager: a call of one of its methods, or one of
    its callbacks being run by the event loop. *)
Inductive event :=
  | StartQuiz (quizId sessionId : string) (random : nat -> nat)
      (category difficulty : string) (questionCount : Z)
  | SubmitAnswer (answer : string)
  | EndQuiz
  | Advance
  | Tick.

(** One event; [None] when the event cannot happen in the state (no pending
    callback, no running interval) or leaves the model. *)
Definition step (s : State.t) (ev : event) : option State.t :=
  match ev with
  | StartQuiz quizId sessionId random category difficulty questionCount =>
      Some (startQuiz quizId sessionId random category difficulty questionCount s)
  | SubmitAnswer answer => option_map fst (submitAnswer answer s)
  | EndQuiz => Some (fst (endQuiz s))
  | Advance =>
      match State.pendingAdvances s with
      | O => None
      | S _ => Some (advance s)
      end
  | Tick => if State.timer s then Some (tick s) else None
  end.

Fixpoint run (s : State.t) (events : list event) : option State.t :=
  match events with
  | [] => Some s
  | ev :: rest =>
      match step s ev with
      | Some s' => run s' rest
      | None => None
      end
  end.

Definition reachable (s : State.t) : Prop :=
  exists events, run initial events = Some s.

(** *** Notions used to state the properties of the session manager *)

(** The questions among which a quiz is drawn: those passing the filters,
    or all of them when none passes. *)
Definition available (category difficulty : string) : list Question.t :=
  match filterQuestions category difficulty with
  | [] => placeholderQuestions
  | _ => filterQuestions category difficulty
  end.

(** One question; two answers submitted before the callback that moves to
    the next question has run. *)
Definition doubleSubmission : list event :=
  [ StartQuiz "quiz-1" "session-1" (fun i => i) "Art" "medium" 1;
    SubmitAnswer "Leonardo da Vinci";
    SubmitAnswer "Michelangelo" ].

End Quiz.

(* ================================================================== *)
(** ** scripts/leaderboard.js: class LeaderboardManager (fallback dataset) *)

Module Leaderboard.

Module User.
Record t := mk {
  id : string;
  username : string;
  totalPoints : Z;
  quizzesCompleted : Z;
  averageScore : JS.number;
  rank : option Z;           (* [None]: the property is absent *)
  avatar : string;
  joinedDate : string
}.
End User.

(** [initializePlaceholderData()] *)
Definition placeholderData : list User.t :=
  [ User.mk "1" "QuizMaster2024" 15420 87 (JS.lit 1772 10) (Some 1) "Q" "2024-01-15";
    User.mk "2" "BrainiacBob" 14850 92 (JS.lit 1614 10) (Some 2) "B" "2024-01-20";
    User.mk "3" "SmartSarah" 13990 78 (JS.lit 1794 10) (Some 3) "S" "2024-02-01";
    User.mk "4" "TriviaKing" 12750 65 (JS.lit 1962 10) (Some 4) "T" "2024-02-10";
    User.mk "5" "KnowledgeNinja" 11980 71 (JS.lit 1687 10) (Some 5) "K" "2024-02-15";
    User.mk "6" "QuizWhiz" 10850 58 (JS.lit 1871 10) (Some 6) "Q" "2024-03-01";
    User.mk "7" "FactFinder" 9720 54 (JS.of_Z 180) (Some 7) "F" "2024-03-05";
    User.mk "8" "DataDragon" 8950 49 (JS.lit 1827 10) (Some 8) "D" "2024-03-10";
    User.mk "9" "InfoImpact" 8200 46 (JS.lit 1783 10) (Some 9) "I" "2024-03-15";
    User.mk "10" "WisdomWolf" 7650 42 (JS.lit 1821 10) (Some 10) "W" "2024-03-20" ]%string.

(** [data.findIndex(user => user.id === userId)]; [None] stands for [-1]. *)
Fixpoint findIndex (userId : string) (data : list User.t) : option nat :=
  match data with
  | [] => None
  | user :: rest =>
      if String.eqb (User.id user) userId then Some O
      else option_map S (findIndex userId rest)
  end.

(** [data.sort((a, b) => b.totalPoints - a.totalPoints)].  The sort of the
    language is stable; with this comparator its result is the stable
    arrangement by descending points, built here by insertion from the
    right. *)
Fixpoint insertByPoints (user : User.t) (sorted : list User.t) : list User.t :=
  match sorted with
  | [] => [user]
  | other :: rest =>
      if User.totalPoints other - User.totalPoints user <=? 0
      then user :: other :: rest
      else other :: insertByPoints user rest
  end.

Definition sortByPoints (data : list User.t) : list User.t :=
  fold_right insertByPoints [] data.

Definition setRank (user : User.t) (rank : Z) : User.t :=
  {| User.id := User.id user;
     User.username := User.username user;
     User.totalPoints := User.totalPoints user;
     User.quizzesCompleted := User.quizzesCompleted user;
     User.averageScore := User.averageScore user;
     User.rank := Some rank;
     User.avatar := User.avatar user;
     User.joinedDate := User.joinedDate user |}.

(** [data.forEach((user, index) => { user.rank = index + 1; })], for the
    part of the array that starts at [index]. *)
Fixpoint updateRanksFrom (index : Z) (data : list User.t) : list User.t :=
  match data with
  | [] => []
  | user :: rest => setRank user (index + 1) :: updateRanksFrom (index + 1) rest
  end.

Definition updateRanks (data : list User.t) : list User.t := updateRanksFrom 0 data.

(** [user.totalPoints += newScore; user.quizzesCompleted += 1] and the new
    average.  The totals and counts are integers; their sums are those of
    the code as long as they stay within [-2^53, 2^53], where every integer
    is a number (see [exact] below: the properties of the update are stated
    for such datasets). *)
Definition addScore (user : User.t) (newScore : Z) : User.t :=
  let totalPoints := User.totalPoints user + newScore in
  let quizzesCompleted := User.quizzesCompleted user + 1 in
  {| User.id := User.id user;
     User.username := User.username user;
     User.totalPoints := totalPoints;
     User.quizzesCompleted := quizzesCompleted;
     User.averageScore :=
       JS.Math_round (JS.div (JS.of_Z totalPoints) (JS.of_Z quizzesCompleted));
     User.rank := User.rank user;
     User.avatar := User.avatar user;
     User.joinedDate := User.joinedDate user |}.

(** [updatePlaceholderUserScore(userId, newScore)]; [today] is the date the
    clock gives, in the form [YYYY-MM-DD]. *)
Definition updatePlaceholderUserScore (today : string) (userId : string)
    (newScore : Z) (leaderboardData : list User.t) : list User.t :=
  let leaderboardData :=
    match findIndex userId leaderboardData with
    | None =>
        (* Create new user entry *)
        let newUser :=
          {| User.id := userId;
             User.username := "User" ++ Utils.sliceLast 4 userId;
             User.totalPoints := newScore;
             User.quizzesCompleted := 1;
             User.averageScore := JS.of_Z newScore;
             User.rank := None;
             User.avatar := Utils.toUpperCase (Utils.charAt0 userId);
             User.joinedDate := today |} in
        push leaderboardData newUser
    | Some userIndex =>
        (* Update existing user *)
        match nth_error leaderboardData userIndex with
        | Some user => Utils.assign leaderboardData userIndex (addScore user newScore)
        | None => leaderboardData
        end
    end in
  (* Re-sort leaderboard, update ranks *)
  updateRanks (sortByPoints leaderboardData).




(** *** Notions used to state the properties of the leaderboard *)

(** [a] may stand before [b]: it has at least as many points. *)
Definition before (a b : User.t) : Prop := User.totalPoints b <= User.totalPoints a.

Definition descending (data : list User.t) : Prop := StronglySorted before data.

Definition hasId (userId : string) (user : User.t) : bool :=
  String.eqb (User.id user) userId.


(** An integer of the range in which every integer is a number, so that a
    sum of two of them that stays in the range is the sum the code
    computes, and the sign of [b.totalPoints - a.totalPoints] is that of the
    difference of the integers. *)
Definition exact (x : Z) : Prop := - 2 ^ 53 <= x <= 2 ^ 53.




End Leaderboard.

(* ================================================================== *)
(** ** Strings

    A string is a sequence of code units below 256. *)

Module Text.

(** White space and line terminators: what [trim] removes and what [\s]
    matches (tab, line feed, vertical tab, form feed, carriage return,
    space, no-break space). *)
Definition isWhiteSpace (c : ascii) : bool :=
  let n := nat_of_ascii c in
  ((9 <=? n) && (n <=? 13) || (n =? 32) || (n =? 160))%nat.

Fixpoint trimStart (s : string) : string :=
  match s with
  | EmptyString => EmptyString
  | String c rest => if isWhiteSpace c then trimStart rest else s
  end.

Fixpoint trimEnd (s : string) : string :=
  match s with
  | EmptyString => EmptyString
  | String c rest =>
      match trimEnd rest with
      | EmptyString => if isWhiteSpace c then EmptyString else String c EmptyString
      | rest' => String c rest'
      end
  end.

(** [s.trim()] *)
Definition trim (s : string) : string := trimEnd (trimStart s).

(** [toLowerCase] of a code unit: the letters A-Z and the capital letters
    of the range 192-222 (the multiplication sign 215 is no letter). *)
Definition lower (c : ascii) : ascii :=
  let n := nat_of_ascii c in
  if ((65 <=? n) && (n <=? 90) || (192 <=? n) && (n <=? 222) && negb (n =? 215))%nat
  then ascii_of_nat (n + 32) else c.

(** [s.toLowerCase()] *)
Definition toLowerCase : string -> string := Utils.mapString lower.


End Text.

Module Board.
Import Leaderboard.

(** [array.slice(start, end)] for [0 <= start] and [0 <= end]. *)
Definition slice {A : Type} (array : list A) (start finish : Z) : list A :=
  firstn (Z.to_nat finish - Z.to_nat start) (skipn (Z.to_nat start) array).

(** The value returned by [getUserRankFromPlaceholder]; [user] is the copy
    of the entry that carries the rank, kept as [currentUserRank]. *)
Module RankResult.
Inductive t :=
  | NotFound
  | Found (user : User.t) (rank totalUsers : Z) (context : list User.t).
End RankResult.

Definition getUserRankFromPlaceholder (userId : string) (leaderboardData : list User.t)
  : RankResult.t :=
  (* Find user in leaderboard *)
  match findIndex userId leaderboardData with
  | None => RankResult.NotFound
  | Some userIndex =>
      match nth_error leaderboardData userIndex with
      | Some user =>
          let rank := Z.of_nat userIndex + 1 in
          (* Get users around this user (for context) *)
          let contextStart := Z.max 0 (Z.of_nat userIndex - 2) in
          let contextEnd :=
            Z.min (Z.of_nat (List.length leaderboardData)) (Z.of_nat userIndex + 3) in
          let context := slice leaderboardData contextStart contextEnd in
          RankResult.Found (setRank user rank) rank
            (Z.of_nat (List.length leaderboardData)) context
      | None => RankResult.NotFound
      end
  end.

(** The value returned by [getStatistics]; [mostActiveUser] is [None] for
    [null]. *)
Module Statistics.
Record t := mk {
  totalUsers : Z;
  totalQuizzes : Z;
  averageScore : JS.number;
  topScore : Z;
  mostActiveUser : option string
}.
End Statistics.

(** [Math.max(...values)] for a list that is not empty. *)
Definition maxOf (first : Z) (others : list Z) : Z := fold_left Z.max others first.





(** One round of the loop of [simulateLeaderboardChanges]. *)
Definition bump (user : User.t) (scoreChange : Z) : User.t :=
  let totalPoints := User.totalPoints user + scoreChange in
  let quizzesCompleted := User.quizzesCompleted user + 1 in
  {| User.id := User.id user;
     User.username := User.username user;
     User.totalPoints := totalPoints;
     User.quizzesCompleted := quizzesCompleted;
     User.averageScore := JS.div (JS.of_Z totalPoints) (JS.of_Z quizzesCompleted);
     User.rank := User.rank user;
     User.avatar := User.avatar user;
     User.joinedDate := User.joinedDate user |}.

(** The loop, from round [i] on, with [rounds] rounds to go.  The random
    source gives the draws in the order the code makes them: draw 0 sets the
    number of rounds, draws [2i + 1] and [2i + 2] the index and the score
    change of round [i].  Reading a property of [undefined] throws. *)
Fixpoint simulateLoop (random : nat -> nat) (i rounds : nat)
    (leaderboardData : list User.t) : Quiz.completion (list User.t) :=
  match rounds with
  | O => Quiz.Returned leaderboardData
  | S rounds' =>
      let randomIndex :=
        Nat.modulo (random (2 * i + 1)%nat) (List.length leaderboardData) in
      match nth_error leaderboardData randomIndex with
      | None => Quiz.Thrown
      | Some user =>
          let scoreChange := Z.of_nat (Nat.modulo (random (2 * i + 2)%nat) 100) + 10 in
          simulateLoop random (S i) rounds'
            (Utils.assign leaderboardData randomIndex (bump user scoreChange))
      end
  end.

Definition simulateLeaderboardChanges (random : nat -> nat)
    (leaderboardData : list User.t) : Quiz.completion (list User.t) :=
  (* Randomly update a few users' scores *)
  let usersToUpdate := (Nat.modulo (random 0%nat) 3 + 1)%nat in
  match simulateLoop random 0 usersToUpdate leaderboardData with
  | Quiz.Thrown => Quiz.Thrown
  | Quiz.Returned leaderboardData =>
      (* Re-sort and update ranks *)
      Quiz.Returned (updateRanks (sortByPoints leaderboardData))
  end.

(** Subscribers: a callback is known by its identity. *)
Definition subscribeToUpdates (callback : nat) (subscribers : list nat) : list nat :=
  push subscribers callback.

(** The function that [subscribeToUpdates] returns: the first registration
    of the callback is removed, if there is one. *)
Fixpoint unsubscribe (callback : nat) (subscribers : list nat) : list nat :=
  match subscribers with
  | [] => []
  | other :: rest =>
      if Nat.eqb other callback then rest else other :: unsubscribe callback rest
  end.

(** *** Notions *)


Definition sumTotalPoints (data : list User.t) : Z :=
  fold_right (fun user sum => User.totalPoints user + sum) 0 data.

Definition sumQuizzes (data : list User.t) : Z :=
  fold_right (fun user sum => User.quizzesCompleted user + sum) 0 data.

(** An entry whose total and count leave room for three rounds of
    [simulateLeaderboardChanges] within the integers that numbers hold
    exactly. *)
Definition roomy (user : User.t) : Prop :=
  - 2 ^ 53 <= User.totalPoints user <= 2 ^ 53 - 327
  /\ 0 <= User.quizzesCompleted user <= 2 ^ 53 - 3.

End Board.

(* ================================================================== *)
(** ** Regular expressions of the validators

    The character classes and the two shapes of expression that the
    validators use: a search for a run of single characters, and a whole
    string made of pieces that are one character or a run of one or more. *)

Module Pattern.

Definition inRange (lo hi : nat) (c : ascii) : bool :=
  let n := nat_of_ascii c in ((lo <=? n) && (n <=? hi))%nat.

Definition isChar (x c : ascii) : bool := Ascii.eqb x c.

(** [c] is one of the characters of [set]. *)
Fixpoint oneOf (set : string) (c : ascii) : bool :=
  match set with
  | EmptyString => false
  | String x rest => Ascii.eqb x c || oneOf rest c
  end.

(** [[a-z]], [[A-Z]], [\d], [\w] *)
Definition isLower : ascii -> bool := inRange 97 122.
Definition isUpper : ascii -> bool := inRange 65 90.
Definition isDigit : ascii -> bool := inRange 48 57.
Definition isWord (c : ascii) : bool :=
  isLower c || isUpper c || isDigit c || isChar "_" c.

(** [[0-9a-f]] under the flag [i] *)
Definition isHex (c : ascii) : bool :=
  isDigit c || inRange 97 102 c || inRange 65 70 c.

(** [[\x00-\x1F\x7F]] *)
Definition isControl (c : ascii) : bool := inRange 0 31 c || isChar "127" c.

(** A run of single characters, each given by its class. *)
Definition run := list (ascii -> bool).

(** The run matches at the start of the string. *)
Fixpoint matchHere (p : run) (s : string) : bool :=
  match p, s with
  | [], _ => true
  | _ :: _, EmptyString => false
  | cls :: p', String c rest => cls c && matchHere p' rest
  end.

(** [/p/.test(s)]: the run matches somewhere in the string. *)
Fixpoint test (p : run) (s : string) : bool :=
  matchHere p s
  || match s with
     | EmptyString => false
     | String _ rest => test p rest
     end.

(** [/[cls]/.test(s)] *)
Fixpoint any (cls : ascii -> bool) (s : string) : bool :=
  match s with
  | EmptyString => false
  | String c rest => cls c || any cls rest
  end.

(** A piece of a whole-string expression: [[cls]] or [[cls]+]. *)
Inductive piece :=
  | One (cls : ascii -> bool)
  | Plus (cls : ascii -> bool).

(** [/^pieces$/.test(s)]; a run of one or more takes one character and then
    either ends or goes on. *)
Fixpoint whole (pieces : list piece) (s : string) : bool :=
  match s with
  | EmptyString =>
      match pieces with
      | [] => true
      | _ :: _ => false
      end
  | String c rest =>
      match pieces with
      | [] => false
      | One cls :: pieces' => cls c && whole pieces' rest
      | Plus cls :: pieces' => cls c && (whole pieces' rest || whole pieces rest)
      end
  end.

(** All the characters of the string are in the class. *)
Definition allIn (cls : ascii -> bool) (s : string) : Prop :=
  forall c, In c (list_ascii_of_string s) -> cls c = true.

End Pattern.

(* ================================================================== *)
(** ** scripts/config.js: class SecurityManager *)

(** A [Map] with string keys: the entries in insertion order. *)
Module StringMap.
Section Map.
Context {V : Type}.

Definition t := list (string * V).

Fixpoint get (m : t) (key : string) : option V :=
  match m with
  | [] => None
  | (k, v) :: rest => if String.eqb k key then Some v else get rest key
  end.

(** An entry that is there keeps its place; a new one goes last. *)
Fixpoint set (m : t) (key : string) (value : V) : t :=
  match m with
  | [] => [(key, value)]
  | (k, v) :: rest =>
      if String.eqb k key then (k, value) :: rest else (k, v) :: set rest key value
  end.

Definition delete (m : t) (key : string) : t :=
  filter (fun entry => negb (String.eqb (fst entry) key)) m.

End Map.
Arguments t V : clear implicits.
End StringMap.

Module Security.
Import Pattern.

(** [APP_CONFIG.security] *)
Definition passwordMinLength : nat := 8.
Definition maxLoginAttempts : Z := 5.
Definition lockoutDuration : Z := 900000.

(** The value returned by the validators. *)
Module Validation.
Record t := mk {
  isValid : bool;
  sanitized : string;
  errors : list string
}.
End Validation.

(** [containsSuspiciousPatterns(input)] *)
Definition containsSuspiciousPatterns (input : string) : bool :=
  let suspiciousPatterns : list run :=
    [ [isChar "."; isChar "."];                       (* Directory traversal *)
      [oneOf "<>"];                                   (* HTML tags *)
      [isChar "$"; isChar "{"];                       (* Template injection *)
      [isChar "%"; isHex; isHex];                     (* URL encoding *)
      [isChar "\"; oneOf "xX"; isHex; isHex] ] in     (* Hex encoding *)
  existsb (fun pattern => test pattern input) suspiciousPatterns.

(** [validateUsername(username)] *)
Definition validateUsername (username : string) : Validation.t :=
  let sanitized := Text.trim username in
  let errors : list string := [] in
  (* Check length *)
  let errors :=
    if (String.length sanitized <? 3)%nat
    then push errors "Username must be at least 3 characters long" else errors in
  let errors :=
    if (20 <? String.length sanitized)%nat
    then push errors "Username must be less than 20 characters long" else errors in
  (* Check format (alphanumeric and underscores only) *)
  let errors :=
    if negb (whole [Plus isWord] sanitized)
    then push errors "Username can only contain letters, numbers, and underscores"
    else errors in
  (* Check for reserved words *)
  let reservedWords :=
    ["admin"; "root"; "user"; "test"; "null"; "undefined"; "system"] in
  let errors :=
    if existsb (String.eqb (Text.toLowerCase sanitized)) reservedWords
    then push errors "This username is not allowed" else errors in
  (* Check for suspicious patterns *)
  let errors :=
    if containsSuspiciousPatterns sanitized
    then push errors "Username contains invalid patterns" else errors in
  {| Validation.isValid := (List.length errors =? 0)%nat;
     Validation.sanitized := sanitized;
     Validation.errors := errors |}.

(** The class of special characters of the password rules *)
Definition isSpecial : ascii -> bool :=
  oneOf ("!@#$%^&*(),.?" ++ Quiz.dq ++ ":{}|<>").

(** [validatePassword(password)] *)
Definition validatePassword (password : string) : Validation.t :=
  let errors : list string := [] in
  (* Check length *)
  let errors :=
    if (String.length password <? passwordMinLength)%nat
    then push errors "Password must be at least 8 characters long" else errors in
  (* Check complexity *)
  let hasLowercase := any isLower password in
  let hasUppercase := any isUpper password in
  let hasNumbers := any isDigit password in
  let hasSpecialChars := any isSpecial password in
  let errors :=
    if negb hasLowercase
    then push errors "Password must contain lowercase letters" else errors in
  let errors :=
    if negb hasUppercase
    then push errors "Password must contain uppercase letters" else errors in
  let errors :=
    if negb hasNumbers
    then push errors "Password must contain numbers" else errors in
  let errors :=
    if negb hasSpecialChars
    then push errors "Password must contain special characters" else errors in
  (* Check for common weak passwords *)
  let weakPasswords := ["password"; "123456"; "qwerty"; "admin"; "letmein"] in
  let errors :=
    if existsb (String.eqb (Text.toLowerCase password)) weakPasswords
    then push errors "This password is too common and weak" else errors in
  {| Validation.isValid := (List.length errors =? 0)%nat;
     Validation.sanitized := password;
     Validation.errors := errors |}.

(** [replace(/[cls]/g, '')] *)
Fixpoint remove (cls : ascii -> bool) (s : string) : string :=
  match s with
  | EmptyString => EmptyString
  | String c rest => if cls c then remove cls rest else String c (remove cls rest)
  end.

(** [replace(/\s+/g, ' ')]; [inRun] says that the character before was white
    space, already replaced. *)
Fixpoint collapseFrom (inRun : bool) (s : string) : string :=
  match s with
  | EmptyString => EmptyString
  | String c rest =>
      if Text.isWhiteSpace c then
        if inRun then collapseFrom true rest else String " " (collapseFrom true rest)
      else String c (collapseFrom false rest)
  end.

(** [s.substring(0, n)] *)
Fixpoint take (n : nat) (s : string) : string :=
  match n, s with
  | S n', String c rest => String c (take n' rest)
  | _, _ => EmptyString
  end.

(** [sanitizeString(input)] for a string *)
Definition sanitizeString (input : string) : string :=
  take 1000 (collapseFrom false (remove isControl (Text.trim input))).


(** The entry kept for an identifier by [trackLoginAttempt]. *)
Module Attempts.
Record t := mk {
  count : Z;
  lastAttempt : Z
}.
End Attempts.

(** [trackLoginAttempt(identifier)] at the time [now]; the security event
    that a refusal logs is left out. *)
Definition trackLoginAttempt (now : Z) (identifier : string)
    (loginAttempts : StringMap.t Attempts.t) : StringMap.t Attempts.t * bool :=
  let attempts :=
    match StringMap.get loginAttempts identifier with
    | Some attempts => attempts
    | None => Attempts.mk 0 0
    end in
  (* Reset count if enough time has passed *)
  let count :=
    if lockoutDuration <? now - Attempts.lastAttempt attempts then 0
    else Attempts.count attempts in
  let attempts := Attempts.mk (count + 1) now in
  let loginAttempts := StringMap.set loginAttempts identifier attempts in
  if maxLoginAttempts <? Attempts.count attempts then (loginAttempts, false)
  else (loginAttempts, true).

(** [resetLoginAttempts(identifier)] *)
Definition resetLoginAttempts (identifier : string)
    (loginAttempts : StringMap.t Attempts.t) : StringMap.t Attempts.t :=
  StringMap.delete loginAttempts identifier.

(** *** Notions *)


(** A sequence of login attempts for one identifier at the given times: the
    answers. *)
Fixpoint loginAnswers (identifier : string) (times : list Z)
    (loginAttempts : StringMap.t Attempts.t) : list bool :=
  match times with
  | [] => []
  | now :: rest =>
      let '(loginAttempts', allowed) := trackLoginAttempt now identifier loginAttempts in
      allowed :: loginAnswers identifier rest loginAttempts'
  end.

(** Each time is at or after the one before, and at most [gap] later. *)
Fixpoint closeTogether (gap : Z) (previous : Z) (times : list Z) : Prop :=
  match times with
  | [] => True
  | now :: rest => previous <= now <= previous + gap /\ closeTogether gap now rest
  end.



End Security.

(* ================================================================== *)
(** ** class Utils: the other helpers *)

Module Helpers.
Import Pattern.

(** [getRandomItems(array, count)] *)
Definition getRandomItems {A : Type} (random : nat -> nat) (array : list A) (count : Z)
  : list A :=
  let shuffled := Utils.shuffleArray random array in
  Utils.slice0 shuffled (Z.min count (Z.of_nat (List.length array))).

(** [isValidEmail(email)]: [/^[^\s@]+@[^\s@]+\.[^\s@]+$/] *)
Definition isValidEmail (email : string) : bool :=
  let plain := fun c => negb (Text.isWhiteSpace c || isChar "@" c) in
  whole [Plus plain; One (isChar "@"); Plus plain; One (isChar "."); Plus plain] email.

(** The value returned by [validatePassword]. *)
Module Strength.
Record t := mk {
  score : Z;
  strength : string;
  feedback : list string
}.
End Strength.

(** [validatePassword(password)] *)
Definition validatePassword (password : string) : Strength.t :=
  let score := 0 in
  let feedback : list string := [] in
  let '(score, feedback) :=
    if (String.length password <? 8)%nat
    then (score, push feedback "Password must be at least 8 characters long")
    else (score + 1, feedback) in
  let '(score, feedback) :=
    if negb (any isLower password)
    then (score, push feedback "Password must contain lowercase letters")
    else (score + 1, feedback) in
  let '(score, feedback) :=
    if negb (any isUpper password)
    then (score, push feedback "Password must contain uppercase letters")
    else (score + 1, feedback) in
  let '(score, feedback) :=
    if negb (any isDigit password)
    then (score, push feedback "Password must contain numbers")
    else (score + 1, feedback) in
  let '(score, feedback) :=
    if negb (any Security.isSpecial password)
    then (score, push feedback "Password must contain special characters")
    else (score + 1, feedback) in
  (* Determine strength based on score *)
  let strength :=
    if score <=? 2 then "weak"
    else if score <=? 3 then "fair"
    else if score <=? 4 then "good"
    else "strong" in
  {| Strength.score := score;
     Strength.strength := strength;
     Strength.feedback := feedback |}.

(** [v.toString(16)] for [0 <= v < 16] *)
Definition hexDigit (v : nat) : ascii :=
  nth v (list_ascii_of_string "0123456789abcdef") "0"%char.

(** The replacement of the characters [x] and [y] of the template, from the
    left; [calls] counts the calls of [Math.random] made so far, and
    [Math.random() * 16 | 0] is the draw reduced into [0..15]. *)
Fixpoint replaceXY (random : nat -> nat) (calls : nat) (template : string) : string :=
  match template with
  | EmptyString => EmptyString
  | String c rest =>
      if isChar "x" c || isChar "y" c then
        let r := Nat.modulo (random calls) 16 in
        let v := if isChar "x" c then r else Nat.lor (Nat.land r 3) 8 in
        String (hexDigit v) (replaceXY random (S calls) rest)
      else String c (replaceXY random calls rest)
  end.

(** [generateUUID()] *)
Definition generateUUID (random : nat -> nat) : string :=
  replaceXY random 0 "xxxxxxxx-xxxx-4xxx-yxxx-xxxxxxxxxxxx".

(** [formatDuration(seconds)] for a whole number of seconds; [%] takes the
    sign of the dividend. *)
Definition formatDuration (seconds : Z) : string :=
  let hours := JS.floor (JS.div (JS.of_Z seconds) (JS.of_Z 3600)) in
  let minutes := JS.floor (JS.div (JS.of_Z (Z.rem seconds 3600)) (JS.of_Z 60)) in
  let secs := Z.rem seconds 60 in
  if 0 <? hours then
    string_of_Z hours ++ "h " ++ string_of_Z minutes ++ "m " ++ string_of_Z secs ++ "s"
  else if 0 <? minutes then
    string_of_Z minutes ++ "m " ++ string_of_Z secs ++ "s"
  else string_of_Z secs ++ "s".

(** The digits that follow at the start of the string. *)
Fixpoint digitRun (s : string) : nat :=
  match s with
  | EmptyString => O
  | String c rest => if isDigit c then S (digitRun rest) else O
  end.

(** The lookahead [(?=(\d{3})+(?!\d))]: groups of three digits follow, and
    no digit after them. *)
Definition threesAhead (s : string) : bool :=
  let n := digitRun s in ((0 <? n) && (Nat.modulo n 3 =? 0))%nat.

(** [\B] between the character before (if any) and the one after (if
    any): both are word characters, or neither is. *)
Definition notBoundary (before after : option ascii) : bool :=
  let word := fun c => match c with Some c => isWord c | None => false end in
  Bool.eqb (word before) (word after).

Definition first (s : string) : option ascii :=
  match s with
  | EmptyString => None
  | String c _ => Some c
  end.

(** [s.replace(/\B(?=(\d{3})+(?!\d))/g, ',')], from the position that
    follows [before]. *)
Fixpoint insertCommas (before : option ascii) (s : string) : string :=
  let here :=
    if notBoundary before (first s) && threesAhead s then "," else EmptyString in
  match s with
  | EmptyString => here
  | String c rest => here ++ String c (insertCommas (Some c) rest)
  end.

(** [formatNumber(num)] for an integer *)
Definition formatNumber (num : Z) : string := insertCommas None (string_of_Z num).

(** *** Notions *)

(** A version-4 identifier: 36 characters, hyphens at the positions 8, 13,
    18 and 23, the digit 4 at position 14, one of 8, 9, a, b at position
    19, and hexadecimal digits in lower case elsewhere. *)
Definition isLowerHex (c : ascii) : bool := isDigit c || inRange 97 102 c.

Fixpoint wellFormedFrom (position : nat) (s : string) : bool :=
  match s with
  | EmptyString => (position =? 36)%nat
  | String c rest =>
      (if existsb (Nat.eqb position) [8; 13; 18; 23]%nat then isChar "-" c
       else if (position =? 14)%nat then isChar "4" c
       else if (position =? 19)%nat then oneOf "89ab" c
       else isLowerHex c)
      && wellFormedFrom (S position) rest
  end.

Definition isUUIDv4 (s : string) : bool := wellFormedFrom 0 s.

(** The groups of a string with commas. *)
Fixpoint groups (current : string) (s : string) : list string :=
  match s with
  | EmptyString => [current]
  | String c rest =>
      if isChar "," c then current :: groups EmptyString rest
      else groups (current ++ String c EmptyString) rest
  end.

End Helpers.

(* ================================================================== *)
(** ** Runs of the session manager *)

Module QuizRuns.
Import Quiz.

(** The sum of the points of the answer records. *)
Definition sumPoints (answers : list Answer.t) : Z :=
  fold_right (fun a acc => Answer.points a + acc) 0 answers.

(** The sum of the times spent on the questions of the answer records. *)
Definition sumTimes (answers : list Answer.t) : Z :=
  fold_right (fun a acc => Answer.timeSpentOnQuestion a + acc) 0 answers.

(** [timeSpent] of the last answer record, 0 when there is none. *)
Definition lastTimeSpent (answers : list Answer.t) : Z :=
  match rev answers with
  | last :: _ => Answer.timeSpent last
  | [] => 0
  end.

(** An event that respects the pace of the interface: no answer is
    submitted and no quiz is started while a callback that moves on to the
    next question is pending. *)
Definition pacedStep (s : State.t) (ev : event) : option State.t :=
  match ev with
  | StartQuiz _ _ _ _ _ _ | SubmitAnswer _ =>
      match State.pendingAdvances s with
      | O => step s ev
      | S _ => None
      end
  | _ => step s ev
  end.

Fixpoint pacedRun (s : State.t) (events : list event) : option State.t :=
  match events with
  | [] => Some s
  | ev :: rest =>
      match pacedStep s ev with
      | Some s' => pacedRun s' rest
      | None => None
      end
  end.

(** A quiz of two questions on science, each answered and moved on from in
    turn, with a tick of the countdown in between. *)
Definition twoAnswers : list event :=
  [ StartQuiz "quiz-1" "session-1" (fun i => i) "Science" "all" 2;
    SubmitAnswer "Au"; Tick; Advance; SubmitAnswer "Mars" ].

End QuizRuns.

(* ================================================================== *)
(** ** scripts/scoring.js: statistics over saved results *)

Module ScoringReports.
Import Quiz.

(** The value returned by [getScoringStatistics]. *)
Module Stats.
Record t := mk {
  averageScore : JS.number;
  bestScore : Z;
  totalPoints : Z;
  averageAccuracy : JS.number;
  bestAccuracy : JS.number;
  totalQuizzes : Z
}.
End Stats.

(** [x || 0] on a number *)
Definition orZero (x : JS.number) : JS.number :=
  if JS.truthy x then x else JS.of_Z 0.

(** [Math.max(...values)] on numbers none of which is NaN or [-0], as
    [x || 0] yields them; the list is not empty. *)
Definition maxNumber (first : JS.number) (others : list JS.number) : JS.number :=
  fold_left (fun best x => if JS.ltb best x then x else best) others first.

(** [getScoringStatistics(quizResults)]; the scores are integers, for which
    [result.score || 0] is the score. *)
Definition getScoringStatistics (quizResults : list Results.t) : Stats.t :=
  match quizResults with
  | [] =>
      {| Stats.averageScore := JS.of_Z 0;
         Stats.bestScore := 0;
         Stats.totalPoints := 0;
         Stats.averageAccuracy := JS.of_Z 0;
         Stats.bestAccuracy := JS.of_Z 0;
         Stats.totalQuizzes := 0 |}
  | first :: others =>
      let count := Z.of_nat (List.length quizResults) in
      let totalPoints :=
        fold_left (fun sum result => sum + Results.score result) quizResults 0 in
      let averageScore := JS.Math_round (JS.div (JS.of_Z totalPoints) (JS.of_Z count)) in
      let bestScore :=
        Board.maxOf (Results.score first) (map Results.score others) in
      let averageAccuracy :=
        JS.div
          (JS.Math_round
             (JS.mul
                (JS.div
                   (fold_left (fun sum result => JS.add sum (orZero (Results.accuracy result)))
                              quizResults (JS.of_Z 0))
                   (JS.of_Z count))
                (JS.of_Z 10)))
          (JS.of_Z 10) in
      let bestAccuracy :=
        maxNumber (orZero (Results.accuracy first))
                  (map (fun result => orZero (Results.accuracy result)) others) in
      {| Stats.averageScore := averageScore;
         Stats.bestScore := bestScore;
         Stats.totalPoints := totalPoints;
         Stats.averageAccuracy := averageAccuracy;
         Stats.bestAccuracy := bestAccuracy;
         Stats.totalQuizzes := count |}
  end.

(** *** Notions *)

Definition sumScores (results : list Results.t) : Z :=
  fold_right (fun result sum => Results.score result + sum) 0 results.

(** What a completion bonus of the given type pays for each answer. *)
Definition completionRate (type : string) : Z :=
  if String.eqb type "perfect_score" then 10
  else if String.eqb type "high_accuracy" then 5
  else if String.eqb type "completion" then 2
  else if String.eqb type "speed_completion" then 3
  else if String.eqb type "category_mastery" then 8
  else 0.

End ScoringReports.

(* ================================================================== *)
(** * Properties *)

(** ** Binary64 arithmetic *)

Module JSFacts.
Import JS.

(** *** Signs *)

Lemma floor_nonneg x : nonneg x = true -> 0 <= JS.floor x.
Proof.
  destruct x as [s|s| |s m e]; simpl; try lia.
  destruct s; simpl; [discriminate|]. intros _.
  apply Z.shiftl_nonneg. lia.
Qed.

Lemma binary_round_aux_nonneg m e l :
  nonneg (binary_round_aux JS.prec JS.emax false m e l) = true.
Proof.
  unfold binary_round_aux.
  destruct (shr_fexp _ _ m e l) as [mrs' e'].
  destruct (shr_fexp _ _ _ e' loc_Exact) as [mrs'' e''].
  destruct (shr_m mrs''); try reflexivity.
  destruct (e'' <=? _); reflexivity.
Qed.

Lemma binary_round_nonneg m e :
  nonneg (binary_round JS.prec JS.emax false m e) = true.
Proof.
  unfold binary_round. destruct (shl_align _ _ _) as [mz ez].
  apply binary_round_aux_nonneg.
Qed.

Lemma of_Z_nonneg z : 0 <= z -> nonneg (JS.of_Z z) = true.
Proof.
  intros H. destruct z as [|p|p]; [reflexivity| |lia].
  apply binary_round_nonneg.
Qed.

Lemma mul_nonneg x y :
  nonneg x = true -> nonneg y = true -> nonneg (JS.mul x y) = true.
Proof.
  destruct x as [sx|sx| |sx mx ex], y as [sy|sy| |sy my ey];
    try reflexivity; try (destruct sx, sy; simpl; congruence).
  destruct sx, sy; try discriminate. intros _ _.
  apply binary_round_aux_nonneg.
Qed.

Lemma div_nonneg x y :
  nonneg x = true -> nonneg y = true -> nonneg (JS.div x y) = true.
Proof.
  destruct x as [sx|sx| |sx mx ex], y as [sy|sy| |sy my ey];
    try reflexivity; try (destruct sx, sy; simpl; congruence).
  destruct sx, sy; try discriminate. intros _ _.
  unfold JS.div, SFdiv.
  destruct (SFdiv_core_binary JS.prec JS.emax (Zpos mx) ex (Zpos my) ey)
    as [[mz ez] lz].
  apply binary_round_aux_nonneg.
Qed.

Lemma lit_nonneg n d : 0 <= n -> 0 <= d -> nonneg (JS.lit n d) = true.
Proof.
  intros Hn Hd. apply div_nonneg; now apply of_Z_nonneg.
Qed.

(** *** Mantissas *)

Lemma digits_bounds m :
  2 ^ (Zpos (digits2_pos m) - 1) <= Zpos m < 2 ^ Zpos (digits2_pos m).
Proof.
  induction m as [m IH|m IH|]; simpl digits2_pos.
  - rewrite Pos2Z.inj_succ, (Pos2Z.inj_xI m).
    replace (Z.succ (Zpos (digits2_pos m)) - 1) with (Z.succ (Zpos (digits2_pos m) - 1)) by lia.
    rewrite !Z.pow_succ_r by lia.
    set (a := 2 ^ (Zpos (digits2_pos m) - 1)) in *.
    set (b := 2 ^ Zpos (digits2_pos m)) in *. clearbody a b. lia.
  - rewrite Pos2Z.inj_succ, (Pos2Z.inj_xO m).
    replace (Z.succ (Zpos (digits2_pos m)) - 1) with (Z.succ (Zpos (digits2_pos m) - 1)) by lia.
    rewrite !Z.pow_succ_r by lia.
    set (a := 2 ^ (Zpos (digits2_pos m) - 1)) in *.
    set (b := 2 ^ Zpos (digits2_pos m)) in *. clearbody a b. lia.
  - simpl. lia.
Qed.

(** The number of digits is determined by the bounds. *)
Lemma digits_unique m d :
  2 ^ (d - 1) <= Zpos m < 2 ^ d -> Zpos (digits2_pos m) = d.
Proof.
  intros [Hlo Hhi]. pose proof (digits_bounds m) as [Hlo' Hhi'].
  assert (0 < d).
  { destruct (Z.ltb_spec 0 d); [assumption|].
    assert (2 ^ d <= 2 ^ 0) by (apply Z.pow_le_mono_r; lia).
    simpl in *. lia. }
  assert (Zpos (digits2_pos m) - 1 < d).
  { apply (Z.pow_lt_mono_r_iff 2); lia. }
  assert (d - 1 < Zpos (digits2_pos m)).
  { apply (Z.pow_lt_mono_r_iff 2); lia. }
  lia.
Qed.

Lemma iter_xO_Z m k : Zpos (Pos.iter xO m k) = Zpos m * 2 ^ Zpos k.
Proof.
  induction k as [|k IH] using Pos.peano_ind.
  - simpl. lia.
  - rewrite Pos.iter_succ, Pos2Z.inj_xO, IH, Pos2Z.inj_succ, Z.pow_succ_r by lia. lia.
Qed.

Lemma shl_Z m n : 0 <= n -> Zpos (shl m n) = Zpos m * 2 ^ n.
Proof.
  destruct n as [|k|k]; simpl shl; intros H; [simpl; lia| |lia].
  apply iter_xO_Z.
Qed.

Lemma digits_shl m n :
  0 <= n -> Zpos (digits2_pos (shl m n)) = Zpos (digits2_pos m) + n.
Proof.
  intros Hn. apply digits_unique. rewrite shl_Z by assumption.
  pose proof (digits_bounds m) as [Hlo Hhi].
  replace (Zpos (digits2_pos m) + n - 1) with (Zpos (digits2_pos m) - 1 + n) by lia.
  rewrite !Z.pow_add_r by lia.
  assert (0 < 2 ^ n) by (apply Z.pow_pos_nonneg; lia).
  split; [apply Z.mul_le_mono_nonneg_r; lia | apply Z.mul_lt_mono_pos_r; lia].
Qed.

(** *** Exact shifts *)

Lemma iter_pos_iter {A} (f : A -> A) n x : iter_pos f n x = Pos.iter f x n.
Proof.
  revert x. induction n as [n IH|n IH|]; intros x; simpl.
  - rewrite !IH. rewrite <- !Pos.iter_swap. reflexivity.
  - rewrite !IH. reflexivity.
  - reflexivity.
Qed.

Lemma shr_exact M k :
  iter_pos shr_1 k (Build_shr_record (Zpos (Pos.iter xO M k)) false false)
  = Build_shr_record (Zpos M) false false.
Proof.
  rewrite iter_pos_iter.
  induction k as [|k IH] using Pos.peano_ind.
  - reflexivity.
  - rewrite Pos.iter_succ_r, (Pos.iter_succ k _ xO). simpl shr_1. exact IH.
Qed.

(** Rounding a value whose mantissa is a full 53-bit one followed by [j]
    zero bits only drops the zeros. *)
Lemma round_trailing M E j :
  Zpos (digits2_pos M) = 53 -> 0 <= j -> -1074 <= E + j <= 971 ->
  binary_round_aux JS.prec JS.emax false (Zpos (shl M j)) E loc_Exact
  = S754_finite false M (E + j).
Proof.
  intros HM Hj HE.
  assert (Hsecond :
    forall E', -1074 <= E' <= 971 ->
      shr_fexp JS.prec JS.emax (Zpos M) E' loc_Exact
      = (Build_shr_record (Zpos M) false false, E')).
  { intros E' HE'. unfold shr_fexp, fexp, emin, JS.prec, JS.emax. simpl Zdigits2.
    rewrite HM.
    replace (Z.max (53 + E' - 53) (3 - 1024 - 53) - E') with 0 by lia.
    reflexivity. }
  unfold binary_round_aux.
  assert (Hfirst :
    shr_fexp JS.prec JS.emax (Zpos (shl M j)) E loc_Exact
    = (Build_shr_record (Zpos M) false false, E + j)).
  { destruct j as [|k|k]; [| |lia].
    - simpl shl. rewrite Z.add_0_r in *. apply Hsecond. lia.
    - pose proof (digits_shl M (Zpos k) Hj) as Hd. simpl shl in *.
      unfold shr_fexp, fexp, emin, JS.prec, JS.emax. simpl Zdigits2.
      rewrite Hd, HM.
      replace (Z.max (53 + Zpos k + E - 53) (3 - 1024 - 53) - E) with (Zpos k) by lia.
      simpl shr_record_of_loc. simpl shl. unfold shr.
      rewrite shr_exact. reflexivity. }
  rewrite Hfirst. simpl shr_m. simpl loc_of_shr_record. simpl round_nearest_even.
  rewrite (Hsecond (E + j) HE). simpl shr_m.
  unfold JS.emax, JS.prec.
  destruct (Z.leb_spec (E + j) (1024 - 53)); [reflexivity|lia].
Qed.

(** *** Canonical representations *)

Lemma fexp_eq x : fexp JS.prec JS.emax x = Z.max (x - 53) (-1074).
Proof. reflexivity. Qed.

Lemma binary_round_canon q e :
  Zpos (digits2_pos q) <= 53 ->
  -1074 <= e - (53 - Zpos (digits2_pos q)) <= 971 ->
  binary_round JS.prec JS.emax false q e = canon q e.
Proof.
  intros Hd He. unfold binary_round, canon.
  unfold shl_align. rewrite fexp_eq.
  set (d := Zpos (digits2_pos q)) in *.
  assert (0 < d) by (unfold d; lia).
  replace (Z.max (d + e - 53) (-1074) - e) with (d - 53) by lia.
  replace (Z.max (d + e - 53) (-1074)) with (e - (53 - d)) by lia.
  destruct (Z.eq_dec d 53) as [E|E].
  - rewrite E. simpl Z.sub. simpl shl.
    change (binary_round_aux JS.prec JS.emax false (Zpos (shl q 0)) e loc_Exact
            = S754_finite false q (e - 0)).
    rewrite (round_trailing q e 0) by (unfold d in *; lia). f_equal; lia.
  - remember (d - 53) as u eqn:Hu. destruct u as [|k|k]; try lia.
    replace (53 - d) with (Zpos k) by lia.
    change (binary_round_aux JS.prec JS.emax false
              (Zpos (shl (shl q (Zpos k)) 0)) (e - Zpos k) loc_Exact
            = S754_finite false (shl q (Zpos k)) (e - Zpos k)).
    rewrite round_trailing.
    + f_equal; lia.
    + rewrite digits_shl by lia. fold d. lia.
    + lia.
    + lia.
Qed.

Lemma of_Z_canon p :
  Zpos (digits2_pos p) <= 53 -> JS.of_Z (Zpos p) = canon p 0.
Proof.
  intros Hd. unfold JS.of_Z, binary_normalize.
  apply binary_round_canon; [assumption|].
  assert (0 < Zpos (digits2_pos p)) by lia. lia.
Qed.

(** A product of canonical numbers whose mantissa product still fits 53
    bits is exact. *)
Lemma mul_canon a b ea eb :
  Zpos (digits2_pos a) <= 53 -> Zpos (digits2_pos b) <= 53 ->
  Zpos (digits2_pos (a * b)) <= 53 ->
  -1074 <= ea + eb - (53 - Zpos (digits2_pos (a * b))) <= 971 ->
  JS.mul (canon a ea) (canon b eb) = canon (a * b) (ea + eb).
Proof.
  intros Ha Hb Hab HE. unfold canon, JS.mul, SFmul. simpl xorb.
  set (da := Zpos (digits2_pos a)) in *.
  set (db := Zpos (digits2_pos b)) in *.
  set (dab := Zpos (digits2_pos (a * b))) in *.
  pose proof (digits_bounds a) as [La Ua]. fold da in La, Ua.
  pose proof (digits_bounds b) as [Lb Ub]. fold db in Lb, Ub.
  pose proof (digits_bounds (a * b)) as [Lab Uab]. fold dab in Lab, Uab.
  rewrite Pos2Z.inj_mul in Lab, Uab.
  assert (0 < da /\ 0 < db /\ 0 < dab) as (Pa & Pb & Pab) by (unfold da, db, dab; lia).
  (* the product has at least [da + db - 1] digits *)
  assert (Hdig : da + db - 1 <= dab).
  { assert (2 ^ (da - 1) * 2 ^ (db - 1) <= Zpos a * Zpos b).
    { apply Z.mul_le_mono_nonneg; try assumption; apply Z.pow_nonneg; lia. }
    rewrite <- Z.pow_add_r in H by lia.
    assert (da - 1 + (db - 1) < dab) by (apply (Z.pow_lt_mono_r_iff 2); lia).
    lia. }
  set (j := 53 + dab - da - db).
  assert (Hj : 0 <= j) by (unfold j; lia).
  assert (Hm : (shl a (53 - da) * shl b (53 - db))%positive
               = shl (shl (a * b) (53 - dab)) j).
  { apply Pos2Z.inj. rewrite Pos2Z.inj_mul, !shl_Z by lia.
    rewrite Pos2Z.inj_mul. unfold j.
    replace (53 - da) with ((53 - dab) + (dab - da)) at 1 by lia.
    replace (53 + dab - da - db) with ((dab - da) + (53 - db)) by lia.
    assert (0 <= dab - da).
    { assert (da - 1 < dab); [|lia].
      apply (Z.pow_lt_mono_r_iff 2); try lia.
      assert (1 <= Zpos b) by lia.
      assert (Zpos a * 1 <= Zpos a * Zpos b) by (apply Z.mul_le_mono_nonneg_l; lia).
      lia. }
    rewrite !Z.pow_add_r by lia. ring. }
  rewrite Hm, round_trailing.
  - f_equal. unfold j. lia.
  - rewrite digits_shl by lia. fold dab. lia.
  - assumption.
  - unfold j. lia.
Qed.

Lemma floor_canon m j :
  0 <= j -> Zpos (digits2_pos m) <= 53 -> JS.floor (canon m (- j)) = Zpos m / 2 ^ j.
Proof.
  intros Hj Hd. unfold canon, JS.floor, cond_Zopp.
  set (t := 53 - Zpos (digits2_pos m)) in *.
  rewrite shl_Z by lia.
  replace (- j - t) with (- (j + t)) by lia.
  rewrite Z.shiftl_opp_r, Z.shiftr_div_pow2 by lia.
  rewrite Z.pow_add_r by lia.
  apply Z.div_mul_cancel_r; apply Z.pow_nonzero; lia.
Qed.

Lemma digits_le_53 p : Zpos p < 2 ^ 53 -> Zpos (digits2_pos p) <= 53.
Proof.
  intros H. pose proof (digits_bounds p) as [Hlo _].
  assert (Zpos (digits2_pos p) - 1 < 53); [|lia].
  apply (Z.pow_lt_mono_r_iff 2); lia.
Qed.

(** *** The products and differences of the scoring engine *)

Lemma half_canon : JS.lit 5 10 = canon 1 (-1).
Proof. reflexivity. Qed.

Lemma bonusMultiplier_canon : Config.bonusMultiplier = canon 3 (-1).
Proof. reflexivity. Qed.

(** [Math.floor(n * 0.5)] is the integer half. *)
Lemma floor_half p :
  0 <= p < 2 ^ 53 -> JS.floor (JS.mul (JS.of_Z p) (JS.lit 5 10)) = p / 2.
Proof.
  intros [Hlo Hhi]. destruct p as [|p|p]; [reflexivity| |lia].
  pose proof (digits_le_53 p Hhi) as Hd.
  assert (H1 : Zpos (digits2_pos 1) <= 53) by (apply digits_le_53; reflexivity).
  rewrite of_Z_canon, half_canon by assumption.
  rewrite mul_canon; rewrite ?Pos.mul_1_r; try assumption; try lia.
  change (0 + -1) with (- (1)). rewrite floor_canon by (assumption || lia).
  reflexivity.
Qed.

Lemma fst_shl_align M E E' :
  E' <= E -> fst (shl_align M E E') = shl M (E - E').
Proof.
  intros H. unfold shl_align.
  remember (E' - E) as u eqn:Hu. destruct u as [|k|k]; try lia.
  - replace (E - E') with 0 by lia. reflexivity.
  - replace (E - E') with (Zpos k) by lia. reflexivity.
Qed.

(** [n * 1.5 - n] is computed exactly. *)
Lemma streak_canon p :
  Zpos p < 2 ^ 51 ->
  JS.sub (JS.mul (JS.of_Z (Zpos p)) Config.bonusMultiplier) (JS.of_Z (Zpos p))
  = canon (shl p (52 - Zpos (digits2_pos p))) (0 - (53 - Zpos (digits2_pos p))).
Proof.
  intros Hhi.
  assert (Hhi3 : Zpos (3 * p) < 2 ^ 53).
  { rewrite Pos2Z.inj_mul. change (2 ^ 53) with (4 * 2 ^ 51). lia. }
  assert (Hd : Zpos (digits2_pos p) <= 51).
  { pose proof (digits_bounds p) as [L _].
    assert (Zpos (digits2_pos p) - 1 < 51); [|lia].
    apply (Z.pow_lt_mono_r_iff 2); lia. }
  pose proof (digits_le_53 (3 * p) Hhi3) as Hd3.
  assert (H3 : Zpos (digits2_pos 3) <= 53) by (apply digits_le_53; reflexivity).
  (* three times [p] has more digits than [p] *)
  assert (Hmore : Zpos (digits2_pos p) + 1 <= Zpos (digits2_pos (3 * p))).
  { pose proof (digits_bounds p) as [L _]. pose proof (digits_bounds (3 * p)) as [_ U].
    rewrite Pos2Z.inj_mul in U.
    assert (Zpos (digits2_pos p) < Zpos (digits2_pos (3 * p))); [|lia].
    apply (Z.pow_lt_mono_r_iff 2); try lia.
    replace (Zpos (digits2_pos p)) with (Z.succ (Zpos (digits2_pos p) - 1)) at 1 by lia.
    rewrite Z.pow_succ_r by lia. lia. }
  rewrite of_Z_canon, bonusMultiplier_canon by lia.
  rewrite mul_canon; rewrite ?(Pos.mul_comm p 3); try assumption; try lia.
  change (0 + -1) with (-1).
  unfold canon at 1 2. unfold JS.sub, SFsub, cond_Zopp.
  set (d := Zpos (digits2_pos p)) in *.
  set (d3 := Zpos (digits2_pos (3 * p))) in *.
  replace (Z.min (-1 - (53 - d3)) (0 - (53 - d))) with (0 - (53 - d)) by lia.
  rewrite !fst_shl_align by lia.
  replace (-1 - (53 - d3) - (0 - (53 - d))) with (d3 - d - 1) by lia.
  replace (0 - (53 - d) - (0 - (53 - d))) with 0 by lia.
  (* the difference of the aligned mantissas is [p * 2^(52 - d)] *)
  assert (Hdiff : Zpos (shl (shl (3 * p) (53 - d3)) (d3 - d - 1)) - Zpos (shl (shl p (53 - d)) 0)
                  = Zpos (shl p (52 - d))).
  { rewrite !shl_Z by lia. rewrite Pos2Z.inj_mul.
    rewrite <- !Z.mul_assoc, <- Z.pow_add_r by lia.
    replace (53 - d3 + (d3 - d - 1)) with (52 - d) by lia.
    replace (53 - d) with (Z.succ (52 - d)) by lia.
    rewrite Z.pow_succ_r by lia. simpl (2 ^ 0). lia. }
  rewrite Hdiff. unfold binary_normalize.
  assert (Hdq : Zpos (digits2_pos (shl p (52 - d))) = 52).
  { rewrite digits_shl by lia. fold d. lia. }
  rewrite binary_round_canon by lia. reflexivity.
Qed.

(** [Math.floor(n * 1.5 - n)] is the integer half as well. *)
Lemma floor_streak p :
  0 <= p < 2 ^ 51 ->
  JS.floor (JS.sub (JS.mul (JS.of_Z p) Config.bonusMultiplier) (JS.of_Z p)) = p / 2.
Proof.
  intros [Hlo Hhi]. destruct p as [|p|p]; [reflexivity| |lia].
  rewrite streak_canon by assumption.
  assert (Hd : Zpos (digits2_pos p) <= 51).
  { pose proof (digits_bounds p) as [L _].
    assert (Zpos (digits2_pos p) - 1 < 51); [|lia].
    apply (Z.pow_lt_mono_r_iff 2); lia. }
  set (d := Zpos (digits2_pos p)) in *.
  assert (Hdq : Zpos (digits2_pos (shl p (52 - d))) = 52).
  { rewrite digits_shl by lia. fold d. lia. }
  unfold canon. rewrite Hdq. unfold JS.floor, cond_Zopp.
  rewrite !shl_Z by lia.
  replace (0 - (53 - d) - (53 - 52)) with (- (1 + (53 - d))) by lia.
  rewrite Z.shiftl_opp_r, Z.shiftr_div_pow2 by lia.
  rewrite <- Z.mul_assoc, <- Z.pow_add_r by lia.
  replace (52 - d + (53 - 52)) with (53 - d) by lia.
  rewrite Z.pow_add_r by lia. simpl (2 ^ 1).
  apply Z.div_mul_cancel_r; [lia|apply Z.pow_nonzero; lia].
Qed.

(** *** Finite results *)

Lemma shr_1_m r : 0 <= shr_m r -> shr_m (shr_1 r) = shr_m r / 2.
Proof.
  destruct r as [m rr ss]. simpl shr_m. intros H.
  destruct m as [|p|p]; [reflexivity| |lia].
  destruct p as [p|p|]; simpl shr_1; simpl shr_m.
  - rewrite (Pos2Z.inj_xI p). apply Z.div_unique with (r := 1); lia.
  - rewrite (Pos2Z.inj_xO p). apply Z.div_unique with (r := 0); lia.
  - reflexivity.
Qed.

Lemma shr_m_iter n r :
  0 <= shr_m r -> shr_m (Pos.iter shr_1 r n) = shr_m r / 2 ^ Zpos n.
Proof.
  intros H. induction n as [|n IH] using Pos.peano_ind.
  - simpl Pos.iter. rewrite shr_1_m by assumption. reflexivity.
  - rewrite Pos.iter_succ, shr_1_m, IH.
    + rewrite Z.div_div by (try apply Z.pow_pos_nonneg; lia).
      rewrite Pos2Z.inj_succ, Z.pow_succ_r by lia. f_equal. lia.
    + rewrite IH. apply Z.div_pos; [assumption|apply Z.pow_pos_nonneg; lia].
Qed.

Lemma round_nearest_even_bounds m l :
  m <= round_nearest_even m l <= m + 1.
Proof.
  destruct l as [|[| |]]; simpl; try lia. destruct (Z.even m); lia.
Qed.

(** Rounding a positive value of [D >= 53] digits gives a number with a full
    mantissa: neither zero, nor infinite, nor NaN. *)
Lemma binary_round_aux_normal m D e l :
  53 <= D -> 2 ^ (D - 1) <= m < 2 ^ D ->
  -1074 <= e + D - 53 -> e + D - 52 <= 971 ->
  normal (binary_round_aux prec emax false m e l) (e + D - 53) (e + D - 52).
Proof.
  intros HD [Hlo Hhi] Hemin Hemax.
  assert (P52 : 0 < 2 ^ (D - 1)) by (apply Z.pow_pos_nonneg; lia).
  destruct m as [|M|M]; try lia.
  assert (HdM : Zpos (digits2_pos M) = D) by now apply digits_unique.
  unfold binary_round_aux.
  (* first shift: the mantissa is cut to 53 bits *)
  assert (Hfirst : exists mrs, shr_fexp prec emax (Zpos M) e l = (mrs, e + D - 53)
                     /\ 2 ^ 52 <= shr_m mrs < 2 ^ 53).
  { unfold shr_fexp. simpl Zdigits2. rewrite HdM, fexp_eq.
    replace (Z.max (D + e - 53) (-1074) - e) with (D - 53) by lia.
    remember (D - 53) as n eqn:Hn. destruct n as [|n|n]; try lia.
    - eexists. split; [unfold shr; f_equal; lia|].
      replace D with 53 in * by lia. destruct l as [|[| |]]; simpl; lia.
    - eexists. split; [unfold shr; f_equal; lia|].
      rewrite iter_pos_iter, shr_m_iter
        by (destruct l as [|[| |]]; simpl; lia).
      replace (shr_m (shr_record_of_loc (Zpos M) l)) with (Zpos M)
        by (destruct l as [|[| |]]; reflexivity).
      assert (0 < 2 ^ Zpos n) by (apply Z.pow_pos_nonneg; lia).
      assert (E1 : 2 ^ (D - 1) = 2 ^ 52 * 2 ^ Zpos n).
      { rewrite <- Z.pow_add_r by lia. f_equal. lia. }
      assert (E2 : 2 ^ D = 2 ^ 53 * 2 ^ Zpos n).
      { rewrite <- Z.pow_add_r by lia. f_equal. lia. }
      split.
      + apply Z.div_le_lower_bound; lia.
      + apply Z.div_lt_upper_bound; lia. }
  destruct Hfirst as (mrs & -> & Hm1).
  pose proof (round_nearest_even_bounds (shr_m mrs) (loc_of_shr_record mrs)) as Hr.
  set (m2 := round_nearest_even (shr_m mrs) (loc_of_shr_record mrs)) in *.
  set (e1 := e + D - 53) in *.
  destruct m2 as [|M2|M2] eqn:EM2; try lia.
  destruct (Z.eq_dec (Zpos M2) (2 ^ 53)) as [Hmax|Hmax].
  - (* the rounding carried into a 54th bit *)
    injection Hmax as ->.
    unfold shr_fexp. simpl Zdigits2. rewrite fexp_eq.
    replace (Z.max (54 + e1 - 53) (-1074) - e1) with 1 by lia.
    simpl. destruct (Z.leb_spec (e1 + 1) 971) as [_|Hbad]; [|lia].
    eexists _, _. split; [reflexivity|]. split; [reflexivity|lia].
  - assert (Hd2 : Zpos (digits2_pos M2) = 53) by (apply digits_unique; lia).
    unfold shr_fexp. simpl Zdigits2. rewrite Hd2, fexp_eq.
    replace (Z.max (53 + e1 - 53) (-1074) - e1) with 0 by lia.
    simpl. destruct (Z.leb_spec e1 971) as [_|Hbad]; [|lia].
    eexists _, _. split; [reflexivity|]. split; [assumption|lia].
Qed.

Lemma mul_normal x y lx hx ly hy :
  normal x lx hx -> normal y ly hy ->
  -1126 <= lx + ly -> hx + hy <= 917 ->
  normal (mul x y) (lx + ly + 52) (hx + hy + 54).
Proof.
  intros (mx & ex & -> & Hdx & Hex) (my & ey & -> & Hdy & Hey) Hlo Hhi.
  unfold mul, SFmul. simpl xorb.
  pose proof (digits_bounds mx) as [Lx Ux]. rewrite Hdx in Lx, Ux.
  pose proof (digits_bounds my) as [Ly Uy]. rewrite Hdy in Ly, Uy.
  simpl (53 - 1) in *.
  assert (L : 2 ^ 104 <= Zpos (mx * my)).
  { rewrite Pos2Z.inj_mul. change (2 ^ 104) with (2 ^ 52 * 2 ^ 52).
    apply Z.mul_le_mono_nonneg; lia. }
  assert (U : Zpos (mx * my) < 2 ^ 106).
  { rewrite Pos2Z.inj_mul. change (2 ^ 106) with (2 ^ 53 * 2 ^ 53).
    apply Z.mul_lt_mono_nonneg; lia. }
  destruct (Z.lt_ge_cases (Zpos (mx * my)) (2 ^ 105)) as [H105|H105].
  - destruct (binary_round_aux_normal (Zpos (mx * my)) 105 (ex + ey) loc_Exact
                ltac:(lia) (conj L H105) ltac:(lia) ltac:(lia))
      as (m & e & E & Hd & He).
    exists m, e. split; [exact E|]. split; [exact Hd|lia].
  - destruct (binary_round_aux_normal (Zpos (mx * my)) 106 (ex + ey) loc_Exact
                ltac:(lia) (conj H105 U) ltac:(lia) ltac:(lia))
      as (m & e & E & Hd & He).
    exists m, e. split; [exact E|]. split; [exact Hd|lia].
Qed.

Lemma of_Z_normal p : 0 < p < 2 ^ 53 -> normal (of_Z p) (-52) 0.
Proof.
  intros [Hlo Hhi]. destruct p as [|p|p]; try lia.
  pose proof (digits_le_53 p Hhi) as Hd.
  rewrite of_Z_canon by assumption. unfold canon.
  eexists _, _. split; [reflexivity|]. split.
  - rewrite digits_shl by lia. lia.
  - assert (0 < Zpos (digits2_pos p)) by lia. lia.
Qed.

Lemma normalb_normal lo hi x : normalb lo hi x = true -> normal x lo hi.
Proof.
  destruct x as [| | |[|] m e]; try discriminate. unfold normalb.
  intros H. apply andb_prop in H as [H He2]. apply andb_prop in H as [Hd He1].
  apply Z.eqb_eq in Hd. apply Z.leb_le in He1, He2.
  exists m, e. split; [reflexivity|]. split; [assumption|lia].
Qed.

Lemma normal_finite x lo hi : normal x lo hi -> finite x = true.
Proof. intros (m & e & -> & _). reflexivity. Qed.

Lemma normal_weaken x lo hi lo' hi' :
  normal x lo hi -> lo' <= lo -> hi <= hi' -> normal x lo' hi'.
Proof.
  intros (m & e & E & Hd & He) Hlo Hhi. exists m, e. repeat split; (assumption || lia).
Qed.

(** The product of an integer below 2^53 and a number with a full mantissa
    is zero or has a full mantissa. *)
Lemma mul_of_Z_normal p c lo hi :
  0 < p < 2 ^ 53 -> normal c lo hi -> -1074 <= lo -> hi <= 917 ->
  normal (mul (of_Z p) c) lo (hi + 54).
Proof.
  intros Hp Hc Hlo Hhi.
  eapply normal_weaken;
    [apply (mul_normal (of_Z p) c (-52) 0 lo hi); try lia;
       [now apply of_Z_normal|assumption]
    |lia|lia].
Qed.

Lemma floor_normal x lo hi :
  normal x lo hi -> hi <= 0 -> 0 <= floor x < 2 ^ 53.
Proof.
  intros (m & e & -> & Hd & He) Hhi. unfold floor, cond_Zopp.
  pose proof (digits_bounds m) as [_ U]. rewrite Hd in U.
  replace e with (- - e) by lia. rewrite Z.shiftl_opp_r, Z.shiftr_div_pow2 by lia.
  assert (0 < 2 ^ (- e)) by (apply Z.pow_pos_nonneg; lia).
  split; [apply Z.div_pos; lia|].
  apply Z.div_lt_upper_bound; [lia|]. nia.
Qed.

Lemma mul_zero_l s c lo hi : normal c lo hi -> finite (mul (S754_zero s) c) = true.
Proof. intros (m & e & -> & _). reflexivity. Qed.

Lemma mul_of_Z_finite p c lo hi :
  0 <= p < 2 ^ 53 -> normal c lo hi -> -1074 <= lo -> hi <= 917 ->
  finite (mul (of_Z p) c) = true.
Proof.
  intros Hp Hc Hlo Hhi. destruct (Z.eq_dec p 0) as [->|Hnz].
  - eapply mul_zero_l, Hc.
  - eapply normal_finite, mul_of_Z_normal; (eassumption || lia).
Qed.

(** *** A quotient: two fifths *)

Lemma div_eucl_div_mod a b : Z.div_eucl a b = (a / b, a mod b).
Proof. unfold Z.div, Z.modulo. now destruct (Z.div_eucl a b). Qed.

(** The quotient of two numbers with full mantissas, before rounding. *)
Lemma div_finite Ma Ea Mb Eb :
  Zpos (digits2_pos Ma) = 53 -> Zpos (digits2_pos Mb) = 53 ->
  -1021 <= Ea - Eb ->
  JS.div (S754_finite false Ma Ea) (S754_finite false Mb Eb)
  = binary_round_aux JS.prec JS.emax false
      (Zpos Ma * 2 ^ 53 / Zpos Mb) (Ea - Eb - 53)
      (new_location (Zpos Mb) ((Zpos Ma * 2 ^ 53) mod Zpos Mb)).
Proof.
  intros Ha Hb HE. unfold JS.div, SFdiv, SFdiv_core_binary. simpl xorb.
  simpl Zdigits2. rewrite Ha, Hb, fexp_eq.
  replace (Z.min (Z.max (53 + Ea - (53 + Eb) - 53) (-1074)) (Ea - Eb))
    with (Ea - Eb - 53) by lia.
  replace (Ea - Eb - (Ea - Eb - 53)) with 53 by lia.
  rewrite Z.shiftl_mul_pow2 by lia. rewrite div_eucl_div_mod. reflexivity.
Qed.

Lemma div_two_fifths k :
  Zpos (5 * k) < 2 ^ 53 ->
  JS.div (JS.of_Z (Zpos (2 * k))) (JS.of_Z (Zpos (5 * k))) = JS.lit 2 5.
Proof.
  intros Hk.
  pose proof (digits_bounds k) as [Lk Uk].
  set (dk := Zpos (digits2_pos k)) in *.
  assert (Pk : 0 < dk) by (unfold dk; lia).
  assert (Hpow : 2 ^ dk = 2 * 2 ^ (dk - 1)).
  { replace dk with (Z.succ (dk - 1)) at 1 by lia. apply Z.pow_succ_r. lia. }
  assert (H2 : Zpos (digits2_pos (2 * k)) = dk + 1).
  { apply digits_unique. rewrite Pos2Z.inj_mul.
    replace (dk + 1 - 1) with dk by lia. rewrite Z.pow_add_r by lia.
    change (2 ^ 1) with 2. lia. }
  assert (H5 : Zpos (digits2_pos (5 * k)) = dk + 2 \/ Zpos (digits2_pos (5 * k)) = dk + 3).
  { destruct (Z.lt_ge_cases (Zpos (5 * k)) (2 ^ (dk + 2))) as [Hlt|Hge];
      [left|right]; apply digits_unique; rewrite Pos2Z.inj_mul in *.
    - replace (dk + 2 - 1) with (dk + 1) by lia. split; [|assumption].
      rewrite Z.pow_add_r by lia. change (2 ^ 1) with 2. lia.
    - replace (dk + 3 - 1) with (dk + 2) by lia. split; [assumption|].
      rewrite Z.pow_add_r by lia. change (2 ^ 3) with 8. lia. }
  assert (Hd5 : Zpos (digits2_pos (5 * k)) <= 53) by now apply digits_le_53.
  rewrite !of_Z_canon by lia. unfold canon.
  set (d5 := Zpos (digits2_pos (5 * k))) in *. rewrite H2.
  rewrite div_finite; try (rewrite digits_shl by lia; lia); try lia.
  (* the mantissas in terms of [u = k * 2^(53 - d5)] *)
  set (u := Zpos k * 2 ^ (53 - d5)).
  assert (Pu : 0 < u).
  { unfold u. apply Z.mul_pos_pos; [lia|apply Z.pow_pos_nonneg; lia]. }
  assert (Hb : Zpos (shl (5 * k) (53 - d5)) = 5 * u).
  { rewrite shl_Z by lia. rewrite Pos2Z.inj_mul. unfold u. ring. }
  assert (Ha : Zpos (shl (2 * k) (53 - (dk + 1))) = 2 * 2 ^ (d5 - dk - 1) * u).
  { rewrite shl_Z by lia. rewrite Pos2Z.inj_mul. unfold u.
    replace (53 - (dk + 1)) with ((d5 - dk - 1) + (53 - d5)) by lia.
    rewrite Z.pow_add_r by lia. ring. }
  rewrite Ha, Hb.
  destruct H5 as [E|E]; rewrite E.
  - replace (dk + 2 - dk - 1) with 1 by lia. change (2 ^ 1) with 2.
    replace (0 - (53 - (dk + 1)) - (0 - (53 - (dk + 2))) - 53) with (-54) by lia.
    assert (Hq : 2 * 2 * u * 2 ^ 53 / (5 * u) = 7205759403792793).
    { symmetry. apply Z.div_unique_pos with (r := 3 * u); [lia|].
      change (2 ^ 53) with 9007199254740992. lia. }
    assert (Hr : (2 * 2 * u * 2 ^ 53) mod (5 * u) = 3 * u).
    { symmetry. apply Z.mod_unique_pos with (q := 7205759403792793); [lia|].
      change (2 ^ 53) with 9007199254740992. lia. }
    rewrite Hq, Hr.
    assert (Hloc : new_location (5 * u) (3 * u) = loc_Inexact Gt).
    { unfold new_location.
      destruct (Z.even (5 * u)); [unfold new_location_even|unfold new_location_odd];
        (destruct (Z.eqb_spec (3 * u) 0); [lia|]).
      - f_equal. apply Z.compare_gt_iff. lia.
      - destruct (Z.compare_spec (2 * (3 * u) + 1) (5 * u)); try lia. reflexivity. }
    rewrite Hloc. reflexivity.
  - replace (dk + 3 - dk - 1) with 2 by lia. change (2 ^ 2) with 4.
    replace (0 - (53 - (dk + 1)) - (0 - (53 - (dk + 3))) - 53) with (-55) by lia.
    assert (Hq : 2 * 4 * u * 2 ^ 53 / (5 * u) = 14411518807585587).
    { symmetry. apply Z.div_unique_pos with (r := u); [lia|].
      change (2 ^ 53) with 9007199254740992. lia. }
    assert (Hr : (2 * 4 * u * 2 ^ 53) mod (5 * u) = u).
    { symmetry. apply Z.mod_unique_pos with (q := 14411518807585587); [lia|].
      change (2 ^ 53) with 9007199254740992. lia. }
    rewrite Hq, Hr.
    assert (Hloc : new_location (5 * u) u = loc_Inexact Lt).
    { unfold new_location.
      destruct (Z.even (5 * u)); [unfold new_location_even|unfold new_location_odd];
        (destruct (Z.eqb_spec u 0); [lia|]).
      - f_equal. apply Z.compare_lt_iff. lia.
      - destruct (Z.compare_spec (2 * u + 1) (5 * u)); try lia; reflexivity. }
    rewrite Hloc. reflexivity.
Qed.

End JSFacts.

(** ** Binary64 arithmetic: quotients and products *)

Module JSDiv.
Import JS JSFacts.

(** *** Quotients of integers *)

Lemma shr_1_r r : 0 <= shr_m r -> shr_r (shr_1 r) = Z.odd (shr_m r).
Proof.
  destruct r as [m rr ss]. simpl shr_m. intros H.
  destruct m as [|p|p]; [reflexivity| |lia].
  destruct p as [p|p|]; reflexivity.
Qed.

Lemma shr_r_iter n r :
  0 <= shr_m r -> shr_r (Pos.iter shr_1 r n) = Z.odd (shr_m r / 2 ^ (Zpos n - 1)).
Proof.
  intros H. induction n as [|n IH] using Pos.peano_ind.
  - simpl Pos.iter. rewrite shr_1_r by assumption. simpl. now rewrite Z.div_1_r.
  - rewrite Pos.iter_succ, shr_1_r.
    + rewrite shr_m_iter by assumption.
      replace (Zpos (Pos.succ n) - 1) with (Zpos n) by lia. reflexivity.
    + rewrite shr_m_iter by assumption.
      apply Z.div_pos; [assumption|apply Z.pow_pos_nonneg; lia].
Qed.

Lemma round_nearest_even_cases mrs :
  let m := round_nearest_even (shr_m mrs) (loc_of_shr_record mrs) in
  m = shr_m mrs \/ (m = shr_m mrs + 1 /\ shr_r mrs = true).
Proof.
  destruct mrs as [m [|] [|]]; simpl; auto.
  destruct (Z.even m); auto.
Qed.

(** Rounding a positive value of [D >= 53] digits: the mantissa is cut to
    its 53 leading digits, and one is added at most; it is added only when
    the first digit left out is a one. *)
Lemma binary_round_aux_cut m D e l :
  53 <= D -> 2 ^ (D - 1) <= m < 2 ^ D ->
  -1074 <= e + D - 53 -> e + D - 52 <= 971 ->
  exists M E c,
    binary_round_aux prec emax false m e l = S754_finite false M E
    /\ Zpos (digits2_pos M) = 53
    /\ 0 <= E - (e + D - 53)
    /\ Zpos M * 2 ^ (E - (e + D - 53)) = m / 2 ^ (D - 53) + c
    /\ (c = 0
        \/ c = 1 /\ (D = 53 /\ (l = loc_Inexact Eq \/ l = loc_Inexact Gt)
                    \/ 54 <= D /\ Z.odd (m / 2 ^ (D - 54)) = true)).
Proof.
  intros HD [Hlo Hhi] Hemin Hemax.
  assert (P52 : 0 < 2 ^ (D - 1)) by (apply Z.pow_pos_nonneg; lia).
  destruct m as [|M|M]; try lia.
  assert (HdM : Zpos (digits2_pos M) = D) by now apply digits_unique.
  unfold binary_round_aux.
  assert (Hfirst : exists mrs, shr_fexp prec emax (Zpos M) e l = (mrs, e + D - 53)
                     /\ shr_m mrs = Zpos M / 2 ^ (D - 53)
                     /\ 2 ^ 52 <= shr_m mrs < 2 ^ 53
                     /\ (shr_r mrs = true ->
                         D = 53 /\ (l = loc_Inexact Eq \/ l = loc_Inexact Gt)
                         \/ 54 <= D /\ Z.odd (Zpos M / 2 ^ (D - 54)) = true)).
  { unfold shr_fexp. simpl Zdigits2. rewrite HdM, fexp_eq.
    replace (Z.max (D + e - 53) (-1074) - e) with (D - 53) by lia.
    remember (D - 53) as n eqn:Hn. destruct n as [|n|n]; try lia.
    - eexists. split; [unfold shr; f_equal; lia|].
      replace D with 53 in * by lia.
      split; [destruct l as [|[| |]]; simpl; now rewrite Z.div_1_r|].
      split; [destruct l as [|[| |]]; simpl; lia|].
      intros Hr. left. split; [reflexivity|].
      destruct l as [|[| |]]; simpl in Hr; try discriminate; auto.
    - assert (Hm0 : shr_m (shr_record_of_loc (Zpos M) l) = Zpos M)
        by (destruct l as [|[| |]]; reflexivity).
      eexists. split; [unfold shr; f_equal; lia|].
      rewrite iter_pos_iter, shr_m_iter, shr_r_iter by (rewrite Hm0; lia).
      rewrite Hm0.
      assert (0 < 2 ^ Zpos n) by (apply Z.pow_pos_nonneg; lia).
      assert (E1 : 2 ^ (D - 1) = 2 ^ 52 * 2 ^ Zpos n).
      { rewrite <- Z.pow_add_r by lia. f_equal. lia. }
      assert (E2 : 2 ^ D = 2 ^ 53 * 2 ^ Zpos n).
      { rewrite <- Z.pow_add_r by lia. f_equal. lia. }
      split; [reflexivity|]. split; [split|].
      + apply Z.div_le_lower_bound; lia.
      + apply Z.div_lt_upper_bound; lia.
      + intros Hr. right. split; [lia|].
        replace (D - 54) with (Zpos n - 1) by lia. exact Hr. }
  destruct Hfirst as (mrs & -> & Hcut & Hm1 & Hup).
  pose proof (round_nearest_even_cases mrs) as Hr. cbv zeta in Hr.

  set (m2 := round_nearest_even (shr_m mrs) (loc_of_shr_record mrs)) in *.
  set (e1 := e + D - 53) in *.
  assert (Hc : exists c, m2 = shr_m mrs + c
                 /\ (c = 0 \/ c = 1 /\ shr_r mrs = true)).
  { destruct Hr as [Hr|[Hr Hbit]]; [exists 0|exists 1]; split; auto; lia. }
  destruct Hc as (c & Hm2 & Hc).
  assert (Hc' : c = 0
        \/ c = 1 /\ (D = 53 /\ (l = loc_Inexact Eq \/ l = loc_Inexact Gt)
                    \/ 54 <= D /\ Z.odd (Zpos M / 2 ^ (D - 54)) = true)).
  { destruct Hc as [Hc|[Hc Hbit]]; [now left|right]. split; [assumption|auto]. }
  destruct m2 as [|M2|M2] eqn:EM2; try lia.
  destruct (Z.eq_dec (Zpos M2) (2 ^ 53)) as [Hmax|Hmax].
  - (* the rounding carried into a 54th bit *)
    injection Hmax as ->.
    unfold shr_fexp. simpl Zdigits2. rewrite fexp_eq.
    replace (Z.max (54 + e1 - 53) (-1074) - e1) with 1 by lia.
    simpl. destruct (Z.leb_spec (e1 + 1) 971) as [_|Hbad]; [|lia].
    eexists _, _, c. split; [reflexivity|]. split; [reflexivity|].
    replace (e1 + 1 - e1) with 1 by lia.
    split; [lia|]. split; [|exact Hc'].
    rewrite <- Hcut, <- Hm2. reflexivity.
  - assert (Hd2 : Zpos (digits2_pos M2) = 53) by (apply digits_unique; lia).
    unfold shr_fexp. simpl Zdigits2. rewrite Hd2, fexp_eq.
    replace (Z.max (53 + e1 - 53) (-1074) - e1) with 0 by lia.
    simpl. destruct (Z.leb_spec e1 971) as [_|Hbad]; [|lia].
    eexists _, _, c. split; [reflexivity|]. split; [exact Hd2|].
    replace (e1 - e1) with 0 by lia.
    split; [lia|]. split; [|exact Hc'].
    rewrite <- Hcut, <- Hm2. cbn. now rewrite Pos.mul_1_r.
Qed.


Lemma new_location_up d r l :
  0 < d -> 0 <= r < d -> new_location d r = l ->
  l = loc_Inexact Eq \/ l = loc_Inexact Gt -> d <= 2 * r.
Proof.
  intros Hd Hr <-. unfold new_location.
  destruct (Z.even d); [unfold new_location_even|unfold new_location_odd];
    (destruct (Z.eqb_spec r 0); [intros [H|H]; discriminate|]).
  - destruct (Z.compare_spec (2 * r) d); intros [H'|H']; try discriminate; lia.
  - destruct (Z.compare_spec (2 * r + 1) d); intros [H'|H']; try discriminate; lia.
Qed.

(** The quotient of two positive integers below 2^53: for some [J], its
    mantissa is [a * 2^J / b], a number of 53 digits, or the next integer;
    the latter only when the remainder is at least half of [b]. *)
Lemma div_of_Z a b :
  0 < a < 2 ^ 53 -> 0 < b < 2 ^ 53 ->
  exists M E J c,
    div (of_Z a) (of_Z b) = S754_finite false M E
    /\ Zpos (digits2_pos M) = 53
    /\ 0 <= J <= 105 /\ 0 <= E + J
    /\ Zpos M * 2 ^ (E + J) = a * 2 ^ J / b + c
    /\ 2 ^ 52 <= a * 2 ^ J / b < 2 ^ 53
    /\ (c = 0 \/ c = 1 /\ b <= 2 * ((a * 2 ^ J) mod b)).
Proof.
  intros [Ha0 Ha] [Hb0 Hb].
  destruct a as [|pa|pa]; try lia. destruct b as [|pb|pb]; try lia.
  pose proof (digits_le_53 pa Ha) as Hda. pose proof (digits_le_53 pb Hb) as Hdb.
  pose proof (digits_bounds pa) as [La Ua]. pose proof (digits_bounds pb) as [Lb Ub].
  rewrite !of_Z_canon by assumption. unfold canon.
  set (da := Zpos (digits2_pos pa)) in *. set (db := Zpos (digits2_pos pb)) in *.
  assert (0 < da /\ 0 < db) as [Pa Pb] by (unfold da, db; lia).
  rewrite div_finite
    by (try (rewrite digits_shl by lia; fold da; fold db); lia).
  rewrite !shl_Z by lia.
  set (ta := 53 - da) in *. set (tb := 53 - db) in *.
  set (K := 53 + ta - tb).
  assert (HK : 1 <= K) by (unfold K, ta, tb; lia).
  assert (Ptb : 0 < 2 ^ tb) by (apply Z.pow_pos_nonneg; unfold tb; lia).
  assert (Pta : 0 < 2 ^ ta) by (apply Z.pow_pos_nonneg; unfold ta; lia).
  assert (HN : Zpos pa * 2 ^ ta * 2 ^ 53 = Zpos pa * 2 ^ K * 2 ^ tb).
  { rewrite <- !Z.mul_assoc, <- !Z.pow_add_r by (unfold K, ta, tb; lia).
    do 2 f_equal. unfold K. lia. }
  rewrite HN.
  rewrite Z.div_mul_cancel_r by lia.
  rewrite Z.mul_mod_distr_r by lia.
  replace (0 - ta - (0 - tb) - 53) with (- K) by (unfold K; lia).
  set (Q := Zpos pa * 2 ^ K / Zpos pb).
  (* the mantissas have 53 digits *)
  assert (HMa : 2 ^ 52 <= Zpos pa * 2 ^ ta < 2 ^ 53).
  { assert (E52 : 2 ^ 52 = 2 ^ (da - 1) * 2 ^ ta)
      by (rewrite <- Z.pow_add_r by (unfold ta; lia); f_equal; unfold ta; lia).
    assert (E53 : 2 ^ 53 = 2 ^ da * 2 ^ ta)
      by (rewrite <- Z.pow_add_r by (unfold ta; lia); f_equal; unfold ta; lia).
    rewrite E52, E53. nia. }
  assert (HMb : 2 ^ 52 <= Zpos pb * 2 ^ tb < 2 ^ 53).
  { assert (E52 : 2 ^ 52 = 2 ^ (db - 1) * 2 ^ tb)
      by (rewrite <- Z.pow_add_r by (unfold tb; lia); f_equal; unfold tb; lia).
    assert (E53 : 2 ^ 53 = 2 ^ db * 2 ^ tb)
      by (rewrite <- Z.pow_add_r by (unfold tb; lia); f_equal; unfold tb; lia).
    rewrite E52, E53. nia. }
  assert (HQ : 2 ^ 52 <= Q < 2 ^ 54).
  { unfold Q. rewrite <- (Z.div_mul_cancel_r _ _ (2 ^ tb)) by lia.
    rewrite <- HN. split.
    - apply Z.div_le_lower_bound; [lia|].
      change (2 ^ 53) with 9007199254740992 in *.
      change (2 ^ 52) with 4503599627370496 in *. nia.
    - apply Z.div_lt_upper_bound; [lia|].
      change (2 ^ 53) with 9007199254740992 in *.
      change (2 ^ 54) with 18014398509481984 in *.
      change (2 ^ 52) with 4503599627370496 in *. nia. }
  set (rho := (Zpos pa * 2 ^ K) mod Zpos pb).
  assert (Hrho : 0 <= rho < Zpos pb) by (apply Z.mod_pos_bound; lia).
  destruct (Z.lt_ge_cases Q (2 ^ 53)) as [H53|H54].
  - destruct (binary_round_aux_cut Q 53 (- K)
                (new_location (Zpos pb * 2 ^ tb) (rho * 2 ^ tb))
                ltac:(lia) ltac:(simpl (53 - 1); lia) ltac:(lia) ltac:(lia))
      as (M & E & c & HR & HdM & HE & HM & Hc).
    exists M, E, K, c. split; [exact HR|]. split; [exact HdM|].
    split; [unfold K, ta, tb; lia|]. split; [lia|].
    replace (E - (- K + 53 - 53)) with (E + K) in HM by lia.
    change (2 ^ (53 - 53)) with 1 in HM. rewrite Z.div_1_r in HM.
    split; [exact HM|]. split; [fold Q; lia|].
    destruct Hc as [Hc|[Hc [[_ Hl]|[Hbad _]]]]; [now left| |lia].
    right. split; [assumption|]. fold rho.
    assert (Zpos pb * 2 ^ tb <= 2 * (rho * 2 ^ tb)); [|nia].
    eapply new_location_up; [| |reflexivity|exact Hl]; nia.
  - destruct (binary_round_aux_cut Q 54 (- K)
                (new_location (Zpos pb * 2 ^ tb) (rho * 2 ^ tb))
                ltac:(lia) ltac:(simpl (54 - 1); lia) ltac:(lia) ltac:(lia))
      as (M & E & c & HR & HdM & HE & HM & Hc).
    assert (P1 : 0 < 2 ^ (K - 1)) by (apply Z.pow_pos_nonneg; lia).
    assert (HK2 : 2 ^ K = 2 ^ (K - 1) * 2).
    { replace K with (Z.succ (K - 1)) at 1 by lia. rewrite Z.pow_succ_r by lia. lia. }
    assert (HT : Q / 2 = Zpos pa * 2 ^ (K - 1) / Zpos pb).
    { unfold Q. rewrite Z.div_div by lia. rewrite HK2, Z.mul_assoc.
      apply Z.div_mul_cancel_r; lia. }
    exists M, E, (K - 1), c. split; [exact HR|]. split; [exact HdM|].
    split; [unfold K, ta, tb; lia|]. split; [lia|].
    replace (E - (- K + 54 - 53)) with (E + (K - 1)) in HM by lia.
    change (2 ^ (54 - 53)) with 2 in HM. rewrite HT in HM.
    split; [exact HM|]. split.
    { rewrite <- HT. split.
      - apply Z.div_le_lower_bound; [lia|]. change (2 ^ 53) with (2 * 2 ^ 52) in H54. lia.
      - apply Z.div_lt_upper_bound; [lia|]. change (2 ^ 54) with (2 * 2 ^ 53) in HQ. lia. }
    destruct Hc as [Hc|[Hc [[Hbad _]|[_ Hodd]]]]; [now left|lia|].
    right. split; [assumption|].
    change (2 ^ (54 - 54)) with 1 in Hodd. rewrite Z.div_1_r in Hodd.
    set (T := Zpos pa * 2 ^ (K - 1) / Zpos pb) in *.
    set (r1 := (Zpos pa * 2 ^ (K - 1)) mod Zpos pb).
    assert (Hr1 : 0 <= r1 < Zpos pb) by (apply Z.mod_pos_bound; lia).
    pose proof (Z.div_mod (Zpos pa * 2 ^ (K - 1)) (Zpos pb) ltac:(lia)) as Hdm.
    fold T in Hdm. fold r1 in Hdm.
    destruct (Z.lt_ge_cases (2 * r1) (Zpos pb)) as [Hlow|Hhigh]; [|lia].
    exfalso.
    assert (HQe : Q = 2 * T).
    { unfold Q. symmetry. apply Z.div_unique with (r := 2 * r1); [lia|].
      rewrite HK2. lia. }
    rewrite HQe, Z.odd_mul in Hodd. discriminate.
Qed.


Lemma floor_scaled M E J :
  0 <= J -> 0 <= E + J ->
  floor (S754_finite false M E) = Zpos M * 2 ^ (E + J) / 2 ^ J.
Proof.
  intros HJ HE. unfold floor, cond_Zopp.
  assert (PJ : 0 < 2 ^ J) by (apply Z.pow_pos_nonneg; lia).
  destruct (Z.le_gt_cases 0 E) as [Hpos|Hneg].
  - rewrite Z.shiftl_mul_pow2, Z.pow_add_r, Z.mul_assoc by lia.
    now rewrite Z.div_mul by lia.
  - replace E with (- - E) at 1 by lia.
    rewrite Z.shiftl_opp_r, Z.shiftr_div_pow2 by lia.
    replace J with (- E + (E + J)) at 2 by lia.
    rewrite (Z.pow_add_r 2 (- E) (E + J)) by lia.
    rewrite Z.div_mul_cancel_r; [reflexivity| |]; apply Z.pow_nonzero; lia.
Qed.

Lemma round_scaled M E J :
  0 <= J -> 0 <= E + J ->
  round (S754_finite false M E)
  = (2 * (Zpos M * 2 ^ (E + J)) + 2 ^ J) / (2 * 2 ^ J).
Proof.
  intros HJ HE. unfold round, cond_Zopp.
  assert (PJ : 0 < 2 ^ J) by (apply Z.pow_pos_nonneg; lia).
  destruct (Z.leb_spec 0 E) as [Hpos|Hneg].
  - rewrite Z.shiftl_mul_pow2, Z.pow_add_r by lia.
    apply Z.div_unique with (r := 2 ^ J); lia.
  - rewrite Z.shiftl_mul_pow2, Z.mul_1_l, Z.shiftr_div_pow2 by lia.
    assert (P1 : 0 < 2 ^ (- E - 1)) by (apply Z.pow_pos_nonneg; lia).
    assert (P2 : 0 < 2 ^ (E + J)) by (apply Z.pow_pos_nonneg; lia).
    assert (H1 : 2 ^ (- E) = 2 * 2 ^ (- E - 1)).
    { replace (- E) with (Z.succ (- E - 1)) at 1 by lia. apply Z.pow_succ_r. lia. }
    assert (H2 : 2 ^ J = 2 ^ (- E) * 2 ^ (E + J)).
    { rewrite <- Z.pow_add_r by lia. f_equal. lia. }
    rewrite H2, H1.
    replace (2 * (Zpos M * 2 ^ (E + J)) + 2 * 2 ^ (- E - 1) * 2 ^ (E + J))
      with ((Zpos M + 2 ^ (- E - 1)) * (2 * 2 ^ (E + J))) by ring.
    replace (2 * (2 * 2 ^ (- E - 1) * 2 ^ (E + J)))
      with (2 * 2 ^ (- E - 1) * (2 * 2 ^ (E + J))) by ring.
    rewrite Z.div_mul_cancel_r by lia. reflexivity.
Qed.

Lemma div_zero_l b : 0 < b < 2 ^ 53 -> div (of_Z 0) (of_Z b) = S754_zero false.
Proof.
  intros [Hb0 Hb]. destruct b as [|pb|pb]; try lia.
  rewrite (of_Z_canon pb) by now apply digits_le_53. reflexivity.
Qed.

(** [Math.floor(a / b)] is the integer quotient. *)
Lemma floor_div a b :
  0 <= a < 2 ^ 53 -> 0 < b < 2 ^ 53 -> floor (div (of_Z a) (of_Z b)) = a / b.
Proof.
  intros [Ha0 Ha] Hb. destruct (Z.eq_dec a 0) as [->|Hnz].
  - now rewrite div_zero_l.
  - destruct (div_of_Z a b ltac:(lia) Hb)
      as (M & E & J & c & -> & _ & [HJ _] & HE & HM & HT & Hc).
    rewrite (floor_scaled M E J HJ HE), HM.
    assert (PJ : 0 < 2 ^ J) by (apply Z.pow_pos_nonneg; lia).
    pose proof (Z.div_mod (a * 2 ^ J) b ltac:(lia)) as Hdm.
    pose proof (Z.mod_pos_bound (a * 2 ^ J) b ltac:(lia)) as Hrho.
    pose proof (Z.div_mod a b ltac:(lia)) as Hqr.
    pose proof (Z.mod_pos_bound a b ltac:(lia)) as Hr.
    set (T := a * 2 ^ J / b) in *. set (rho := (a * 2 ^ J) mod b) in *.
    set (q := a / b) in *. set (r := a mod b) in *.
    change (2 ^ 53) with 9007199254740992 in *.
    change (2 ^ 52) with 4503599627370496 in *.
    assert (Hlow : q * 2 ^ J <= T) by nia.
    assert (Hb2 : b < 2 * 2 ^ J) by nia.
    assert (Hup : (T + c) * b < (q + 1) * 2 ^ J * b).
    { destruct Hc as [->|[-> Hhalf]]; nia. }
    assert (Hup' : T + c < (q + 1) * 2 ^ J) by nia.
    symmetry. apply Z.div_unique with (r := T + c - q * 2 ^ J).
    + left. destruct Hc as [->|[-> _]]; lia.
    + lia.
Qed.

(** [Math.round(a / b)] is the quotient rounded to the nearest integer, a
    tie going up. *)
Lemma round_div a b :
  0 <= a < 2 ^ 52 -> 0 < b < 2 ^ 53 ->
  round (div (of_Z a) (of_Z b)) = (2 * a + b) / (2 * b).
Proof.
  intros [Ha0 Ha] Hb. destruct (Z.eq_dec a 0) as [->|Hnz].
  - rewrite div_zero_l by assumption. simpl round.
    symmetry. apply Z.div_small. lia.
  - assert (Ha' : 0 < a < 2 ^ 53) by (change (2 ^ 53) with (2 * 2 ^ 52); lia).
    destruct (div_of_Z a b Ha' Hb)
      as (M & E & J & c & -> & _ & [HJ _] & HE & HM & HT & Hc).
    rewrite (round_scaled M E J HJ HE), HM.
    pose proof (Z.div_mod (a * 2 ^ J) b ltac:(lia)) as Hdm.
    pose proof (Z.mod_pos_bound (a * 2 ^ J) b ltac:(lia)) as Hrho.
    pose proof (Z.div_mod (2 * a + b) (2 * b) ltac:(lia)) as Hqr.
    pose proof (Z.mod_pos_bound (2 * a + b) (2 * b) ltac:(lia)) as Hr.
    set (T := a * 2 ^ J / b) in *. set (rho := (a * 2 ^ J) mod b) in *.
    set (n := (2 * a + b) / (2 * b)) in *. set (r := (2 * a + b) mod (2 * b)) in *.
    change (2 ^ 53) with 9007199254740992 in *.
    change (2 ^ 52) with 4503599627370496 in *.
    assert (HJ1 : 1 <= J).
    { destruct (Z.eq_dec J 0) as [->|]; [|lia]. exfalso.
      change (2 ^ 0) with 1 in *. nia. }
    assert (PP : 0 < 2 ^ (J - 1)) by (apply Z.pow_pos_nonneg; lia).
    assert (H2 : 2 ^ J = 2 * 2 ^ (J - 1)).
    { replace J with (Z.succ (J - 1)) at 1 by lia. apply Z.pow_succ_r. lia. }
    set (P := 2 ^ (J - 1)) in *. rewrite H2 in *.
    assert (HbP : b < 2 * P) by nia.
    assert (Hlow : n * (2 * P) <= T + P).
    { assert (n * (2 * P) * b < (T + P + 1) * b) by nia. nia. }
    assert (Hup : (T + c + P) * b < (n + 1) * (2 * P) * b).
    { destruct Hc as [->|[-> Hhalf]]; nia. }
    assert (Hup' : T + c + P < (n + 1) * (2 * P)) by nia.
    symmetry. apply Z.div_unique with (r := 2 * (T + c) + 2 * P - n * (2 * (2 * P))).
    + left. destruct Hc as [->|[-> _]]; lia.
    + lia.
Qed.


(** *** Products *)

(** [Math.floor(x * y)] for two numbers with full mantissas whose product
    is below 2^53: the exact product is cut to 53 digits and one is added
    only when the part left out is at least half a unit, so the floor is
    above the product less one, and exceeds it by less than the distance
    [2^(ex + ey + 52)]. *)
Lemma floor_mul_normal mx ex my ey :
  Zpos (digits2_pos mx) = 53 -> Zpos (digits2_pos my) = 53 ->
  -1100 <= ex + ey <= -53 ->
  let p := floor (mul (S754_finite false mx ex) (S754_finite false my ey)) in
  Zpos mx * Zpos my < (p + 1) * 2 ^ (- (ex + ey))
  /\ 2 * (p * 2 ^ (- (ex + ey))) <= 2 * (Zpos mx * Zpos my) + 2 ^ 53.
Proof.
  intros Hmx Hmy He p. unfold p. clear p.
  pose proof (digits_bounds mx) as [Lx Ux]. rewrite Hmx in Lx, Ux.
  pose proof (digits_bounds my) as [Ly Uy]. rewrite Hmy in Ly, Uy.
  simpl (53 - 1) in *.
  unfold mul, SFmul. simpl xorb.
  set (m := Zpos (mx * my)).
  assert (Hm : m = Zpos mx * Zpos my) by (unfold m; apply Pos2Z.inj_mul).
  assert (L : 2 ^ 104 <= m).
  { rewrite Hm. change (2 ^ 104) with (2 ^ 52 * 2 ^ 52).
    apply Z.mul_le_mono_nonneg; lia. }
  assert (U : m < 2 ^ 106).
  { rewrite Hm. change (2 ^ 106) with (2 ^ 53 * 2 ^ 53).
    apply Z.mul_lt_mono_nonneg; lia. }
  assert (Hcut : exists D M E c,
            (D = 105 \/ D = 106)
            /\ binary_round_aux prec emax false m (ex + ey) loc_Exact
               = S754_finite false M E
            /\ 0 <= E - (ex + ey + D - 53)
            /\ Zpos M * 2 ^ (E - (ex + ey + D - 53)) = m / 2 ^ (D - 53) + c
            /\ (c = 0 \/ c = 1 /\ Z.odd (m / 2 ^ (D - 54)) = true)).
  { destruct (Z.lt_ge_cases m (2 ^ 105)) as [H105|H105].
    - destruct (binary_round_aux_cut m 105 (ex + ey) loc_Exact
                  ltac:(lia) (conj L H105) ltac:(lia) ltac:(lia))
        as (M & E & c & HR & _ & HE & HM & Hc).
      exists 105, M, E, c.
      split; [now left|]. split; [exact HR|]. split; [exact HE|]. split; [exact HM|].
      destruct Hc as [->|[-> [[Hbad _]|[_ Hodd]]]];
        [left; reflexivity|discriminate Hbad|right; split; [reflexivity|exact Hodd]].
    - destruct (binary_round_aux_cut m 106 (ex + ey) loc_Exact
                  ltac:(lia) (conj H105 U) ltac:(lia) ltac:(lia))
        as (M & E & c & HR & _ & HE & HM & Hc).
      exists 106, M, E, c.
      split; [now right|]. split; [exact HR|]. split; [exact HE|]. split; [exact HM|].
      destruct Hc as [->|[-> [[Hbad _]|[_ Hodd]]]];
        [left; reflexivity|discriminate Hbad|right; split; [reflexivity|exact Hodd]]. }
  destruct Hcut as (D & M & E & c & HD & -> & HE & HM & Hc).
  set (J := - (ex + ey) - (D - 53)).
  assert (HJ : 0 <= J) by (unfold J; lia).
  replace (E - (ex + ey + D - 53)) with (E + J) in * by (unfold J; lia).
  rewrite (floor_scaled M E J HJ HE), HM.
  set (n := D - 53) in *.
  assert (Hn : 1 <= n <= 53) by (unfold n; lia).
  replace (D - 54) with (n - 1) in Hc by (unfold n; lia).
  assert (Pn : 0 < 2 ^ (n - 1)) by (apply Z.pow_pos_nonneg; lia).
  assert (Hn2 : 2 ^ n = 2 * 2 ^ (n - 1)).
  { replace n with (Z.succ (n - 1)) at 1 by lia. apply Z.pow_succ_r. lia. }
  assert (PJ : 0 < 2 ^ J) by (apply Z.pow_pos_nonneg; lia).
  assert (Hsplit : 2 ^ (- (ex + ey)) = 2 ^ J * 2 ^ n).
  { rewrite <- Z.pow_add_r by lia. f_equal. unfold J, n. lia. }
  assert (Hn53 : 2 ^ (n - 1) <= 2 ^ 52) by (apply Z.pow_le_mono_r; lia).
  (* the part left out is at least half a unit when one is added *)
  assert (Hhalf : (m / 2 ^ n + c) * 2 ^ n <= m + 2 ^ (n - 1)
                  /\ m < (m / 2 ^ n + 1) * 2 ^ n /\ 0 <= c).
  { pose proof (Z.div_mod m (2 ^ n) ltac:(lia)) as Hdm.
    pose proof (Z.mod_pos_bound m (2 ^ n) ltac:(lia)) as Hr.
    split; [|split; [lia|destruct Hc as [->|[-> _]]; lia]].
    destruct Hc as [->|[-> Hodd]]; [lia|].
    pose proof (Z.div_mod m (2 ^ (n - 1)) ltac:(lia)) as Hdm1.
    pose proof (Z.mod_pos_bound m (2 ^ (n - 1)) ltac:(lia)) as Hr1.
    assert (Hu : m / 2 ^ n = m / 2 ^ (n - 1) / 2).
    { rewrite Z.div_div by lia. now rewrite Hn2, Z.mul_comm. }
    pose proof (Z.div_mod (m / 2 ^ (n - 1)) 2 ltac:(lia)) as Hdm2.
    rewrite Zmod_odd, Hodd in Hdm2. rewrite <- Hu in Hdm2.
    rewrite Hdm2 in Hdm1.
    assert (E0 : (m / 2 ^ n + 1) * 2 ^ n
                 = 2 ^ (n - 1) * (2 * (m / 2 ^ n) + 1) + 2 ^ (n - 1))
      by (rewrite Hn2; ring).
    rewrite E0. lia. }
  destruct Hhalf as (Hup & Hlow & Hc0).
  rewrite <- Hm.
  set (T := m / 2 ^ n) in *.
  pose proof (Z.div_mod (T + c) (2 ^ J) ltac:(lia)) as Hdp.
  pose proof (Z.mod_pos_bound (T + c) (2 ^ J) ltac:(lia)) as Hrp.
  set (p := (T + c) / 2 ^ J) in *.
  rewrite Hsplit.
  assert (PB : 0 < 2 ^ n) by lia.
  set (A := 2 ^ J) in *. set (B := 2 ^ n) in *. set (H := 2 ^ (n - 1)) in *.
  change (2 ^ 53) with (2 * 2 ^ 52). set (W := 2 ^ 52) in *.
  assert (E1 : (T + c + 1) * B <= A * (p + 1) * B)
    by (apply Z.mul_le_mono_nonneg_r; lia).
  assert (E2 : (T + 1) * B <= (T + c + 1) * B)
    by (apply Z.mul_le_mono_nonneg_r; lia).
  assert (E3 : A * p * B <= (T + c) * B)
    by (apply Z.mul_le_mono_nonneg_r; lia).
  split; lia.
Qed.

(** The same for an integer below 2^53 and a number [c = mc * 2^ec] with
    a full mantissa and no integer part. *)
Lemma floor_mul_of_Z b mc ec :
  0 < b < 2 ^ 53 -> Zpos (digits2_pos mc) = 53 -> -1000 <= ec <= -53 ->
  let p := floor (mul (of_Z b) (S754_finite false mc ec)) in
  b * Zpos mc < (p + 1) * 2 ^ (- ec) /\ p * 2 ^ (- ec) <= b * Zpos mc + 2 ^ 53.
Proof.
  intros [Hb0 Hb] Hmc Hec p. unfold p. clear p.
  destruct b as [|pb|pb]; try lia.
  pose proof (digits_le_53 pb Hb) as Hdb.
  rewrite of_Z_canon by assumption. unfold canon.
  set (tb := 53 - Zpos (digits2_pos pb)) in *.
  assert (Htb : 0 <= tb <= 52) by (unfold tb; lia).
  assert (Hdx : Zpos (digits2_pos (shl pb tb)) = 53)
    by (rewrite digits_shl by lia; unfold tb; lia).
  pose proof (floor_mul_normal (shl pb tb) (0 - tb) mc ec Hdx Hmc ltac:(lia))
    as [Hlow Hup]. cbv zeta in Hlow, Hup.
  rewrite shl_Z in Hlow, Hup by lia.
  replace (- (0 - tb + ec)) with (tb + - ec) in * by lia.
  rewrite Z.pow_add_r in Hlow, Hup by lia.
  assert (Ptb : 1 <= 2 ^ tb) by (apply (Z.pow_le_mono_r 2 0 tb); lia).
  assert (PX : 0 < 2 ^ (- ec)) by (apply Z.pow_pos_nonneg; lia).
  set (X := 2 ^ (- ec)) in *. set (Y := 2 ^ tb) in *.
  set (p := floor _) in *.
  change (2 ^ 53) with (2 * 4503599627370496) in *.
  split.
  - apply (Z.mul_lt_mono_pos_l Y); [lia|].
    replace (Y * (Zpos pb * Zpos mc)) with (Zpos pb * Y * Zpos mc) by ring.
    replace (Y * ((p + 1) * X)) with ((p + 1) * (Y * X)) by ring. exact Hlow.
  - assert (Y * (p * X) <= Y * (Zpos pb * Zpos mc + 4503599627370496)).
    { replace (Y * (p * X)) with (p * (Y * X)) by ring.
      replace (Y * (Zpos pb * Zpos mc + 4503599627370496))
        with (Zpos pb * Y * Zpos mc + Y * 4503599627370496) by ring.
      lia. }
    apply Z.mul_le_mono_pos_l in H; lia.
Qed.

(** [Math.floor(b * 0.1)] is the tenth of [b], or of [b + 1]. *)
Lemma floor_tenth b :
  0 <= b < 2 ^ 53 ->
  b / 10 <= floor (mul (of_Z b) (lit 1 10)) <= (b + 1) / 10.
Proof.
  intros [Hb0 Hb]. destruct (Z.eq_dec b 0) as [->|Hnz]; [vm_compute; split; discriminate|].
  change (lit 1 10) with (S754_finite false 7205759403792794 (-56)).
  pose proof (floor_mul_of_Z b 7205759403792794 (-56) ltac:(lia) eq_refl ltac:(lia))
    as [Hlow Hup]. cbv zeta in Hlow, Hup.
  set (p := floor _) in *.
  change (2 ^ (- -56)) with 72057594037927936 in *.
  change (2 ^ 53) with 9007199254740992 in *.
  split.
  - apply Z.lt_succ_r. apply Z.div_lt_upper_bound; lia.
  - apply Z.div_le_lower_bound; lia.
Qed.


(** *** A percentage of 100 *)

Lemma div_same n : 0 < n < 2 ^ 53 -> div (of_Z n) (of_Z n) = of_Z 1.
Proof.
  intros [Hn0 Hn]. destruct n as [|pn|pn]; try lia.
  pose proof (digits_le_53 pn Hn) as Hd.
  rewrite of_Z_canon by assumption. unfold canon.
  set (t := 53 - Zpos (digits2_pos pn)) in *.
  assert (Ht : 0 <= t) by (unfold t; lia).
  rewrite div_finite by (rewrite ?digits_shl by lia; unfold t; lia).
  rewrite Z.mul_comm, Z.div_mul, Z.mod_mul by lia.
  replace (0 - t - (0 - t) - 53) with (-53) by lia.
  assert (Hloc : new_location (Zpos (shl pn t)) 0 = loc_Exact).
  { unfold new_location. now destruct (Z.even _). }
  rewrite Hloc.
  change (2 ^ 53) with (Zpos (shl 4503599627370496 1)).
  rewrite round_trailing by (reflexivity || lia). reflexivity.
Qed.

(** Two numbers compared equal are the same number, when the second one is
    positive. *)
Lemma eqb_finite_eq x my ey :
  eqb x (S754_finite false my ey) = true -> x = S754_finite false my ey.
Proof.
  unfold eqb, SFeqb, SFcompare.
  destruct x as [s|s| |s m e]; try discriminate.
  - destruct s; discriminate.
  - destruct s; [discriminate|].
    destruct (Z.compare_spec e ey) as [->| |]; try discriminate.
    destruct (Pos.compare_cont Eq m my) eqn:Hc; try discriminate.
    apply Pos.compare_eq in Hc. now subst.
Qed.

(** A proper fraction of integers below 2^53, taken a hundred times: the
    floor is below 100. *)
Lemma floor_percent_below c n :
  0 < c < n -> n < 2 ^ 53 ->
  floor (mul (div (of_Z c) (of_Z n)) (of_Z 100)) <= 99.
Proof.
  intros [Hc0 Hc] Hn.
  destruct (div_of_Z c n ltac:(lia) ltac:(lia))
    as (M & E & J & c' & -> & HdM & HJ & HE & HM & HT & Hc').
  change (of_Z 100) with (S754_finite false 7036874417766400 (-46)).
  assert (PJ : 0 < 2 ^ J) by (apply Z.pow_pos_nonneg; lia).
  pose proof (Z.div_mod (c * 2 ^ J) n ltac:(lia)) as Hdm.
  pose proof (Z.mod_pos_bound (c * 2 ^ J) n ltac:(lia)) as Hrho.
  set (T := c * 2 ^ J / n) in *.
  (* the quotient is below 1 by 2^-53 at least *)
  assert (HJ53 : 53 <= J).
  { destruct (Z.lt_ge_cases J 53) as [Hlt|]; [|assumption]. exfalso.
    assert (2 ^ J <= 2 ^ 52) by (apply Z.pow_le_mono_r; lia).
    assert (T * n < 2 ^ J * n) by nia. nia. }
  assert (H53 : 2 ^ J = 2 ^ (J - 53) * 2 ^ 53).
  { rewrite <- Z.pow_add_r by lia. f_equal. lia. }
  assert (P53 : 0 < 2 ^ (J - 53)) by (apply Z.pow_pos_nonneg; lia).
  assert (Hbelow : T + c' <= 2 ^ J - 2 ^ (J - 53)).
  { assert (T + 1 <= 2 ^ J - 2 ^ (J - 53)); [|destruct Hc' as [->|[-> _]]; lia].
    assert ((T + 2 ^ (J - 53)) * n < 2 ^ J * n); [|nia].
    rewrite H53 in *. change (2 ^ 53) with 9007199254740992 in *. nia. }
  pose proof (digits_bounds M) as [LM UM]. rewrite HdM in LM, UM. simpl (53 - 1) in LM.
  (* the exponent of the quotient *)
  assert (HEJ : E + J = 0 \/ E + J = 1).
  { destruct (Z.le_gt_cases (E + J) 1) as [|Hbig]; [lia|]. exfalso.
    assert (2 ^ 2 <= 2 ^ (E + J)) by (apply Z.pow_le_mono_r; lia).
    change (2 ^ 2) with 4 in *. change (2 ^ 53) with 9007199254740992 in *.
    change (2 ^ 52) with 4503599627370496 in *. nia. }
  assert (HM1 : Zpos M < 2 ^ (- E)).
  { destruct HEJ as [H0|H1].
    - replace (- E) with J by lia. rewrite H0 in HM. change (2 ^ 0) with 1 in HM. lia.
    - replace J with (Z.succ (- E)) in * by lia.
      rewrite H1 in HM. change (2 ^ 1) with 2 in HM.
      rewrite Z.pow_succ_r in Hbelow by lia. lia. }
  pose proof (floor_mul_normal M E 7036874417766400 (-46) HdM eq_refl ltac:(lia))
    as [_ Hup]. cbv zeta in Hup.
  set (p := floor _) in *.
  destruct (Z.le_gt_cases p 99) as [|Hbad]; [assumption|]. exfalso.
  replace (- (E + -46)) with (- E + 46) in Hup by lia.
  rewrite Z.pow_add_r in Hup by lia.
  assert (PE : 0 < 2 ^ (- E)) by (apply Z.pow_pos_nonneg; lia).
  set (X := 2 ^ (- E)) in *.
  change (2 ^ 46) with 70368744177664 in *.
  change (2 ^ 53) with 9007199254740992 in *. nia.
Qed.

(** [(c / n) * 100 === 100] exactly when [c = n]. *)
Lemma percent_full c n :
  0 <= c <= n -> 0 < n < 2 ^ 53 ->
  eqb (mul (div (of_Z c) (of_Z n)) (of_Z 100)) (of_Z 100) = (c =? n).
Proof.
  intros Hc Hn. destruct (Z.eqb_spec c n) as [->|Hne].
  - now rewrite div_same.
  - destruct (Z.eq_dec c 0) as [->|Hnz]; [now rewrite div_zero_l|].
    destruct (eqb _ _) eqn:Heq; [exfalso|reflexivity].
    change (of_Z 100) with (S754_finite false 7036874417766400 (-46)) in Heq at 2.
    apply eqb_finite_eq in Heq.
    pose proof (floor_percent_below c n ltac:(lia) ltac:(lia)) as Hp.
    rewrite Heq in Hp. vm_compute in Hp. now apply Hp.
Qed.

End JSDiv.

(** ** Scoring engine *)

Module ScoringFacts.
Import JS Scoring JSFacts.

(** *** The numbers given to [Math.floor] are finite *)

Lemma constants_normal :
  normal Config.penaltyPercentage (-56) (-56)
  /\ normal (lit 2 10) (-55) (-55)
  /\ normal (lit 3 10) (-54) (-54)
  /\ normal (lit 5 10) (-53) (-53)
  /\ normal Config.bonusMultiplier (-52) (-52).
Proof. repeat split; apply normalb_normal; reflexivity. Qed.

(** Every number that [Math.floor] receives when an incorrect answer is
    scored is finite. *)
Lemma incorrect_numbers_finite basePoints :
  0 <= basePoints < 2 ^ 53 ->
  let penalty := mul (of_Z basePoints) Config.penaltyPercentage in
  finite penalty = true
  /\ finite (mul (of_Z (floor penalty)) (lit 5 10)) = true
  /\ finite (mul (of_Z basePoints) (lit 5 10)) = true.
Proof.
  intros Hb penalty.
  destruct constants_normal as (H01 & _ & _ & H05 & _).
  split; [eapply mul_of_Z_finite; (eassumption || lia)|].
  split; [|eapply mul_of_Z_finite; (eassumption || lia)].
  eapply mul_of_Z_finite; try eassumption; try lia.
  unfold penalty. destruct (Z.eq_dec basePoints 0) as [->|Hnz];
    [vm_compute; split; [discriminate|reflexivity]|].
  eapply floor_normal; [apply (mul_of_Z_normal basePoints _ (-56) (-56)); (assumption || lia)|lia].
Qed.

(** Every number that [Math.floor] receives for the streak, difficulty and
    perfect-accuracy bonuses of a correct answer is finite. *)
Lemma correct_numbers_finite basePoints :
  0 <= basePoints < 2 ^ 51 ->
  finite (sub (mul (of_Z basePoints) Config.bonusMultiplier) (of_Z basePoints)) = true
  /\ finite (mul (of_Z basePoints) (lit 2 10)) = true
  /\ finite (mul (of_Z basePoints) (lit 5 10)) = true.
Proof.
  intros Hb.
  assert (Hb53 : 0 <= basePoints < 2 ^ 53).
  { change (2 ^ 53) with (4 * 2 ^ 51). lia. }
  destruct constants_normal as (_ & H02 & _ & H05 & _).
  split; [|split; eapply mul_of_Z_finite; (eassumption || lia)].
  destruct basePoints as [|p|p]; [reflexivity| |lia].
  rewrite streak_canon by lia. reflexivity.
Qed.

(** The speed ratios of the three thresholds, for whole seconds. *)
Lemma ratios_ok :
  forallb (ratioOk 10) (seq 0 11) && forallb (ratioOk 15) (seq 0 16)
  && forallb (ratioOk 20) (seq 0 21) = true.
Proof. vm_compute. reflexivity. Qed.

(** Every number that [Math.floor] receives for the speed bonus is finite. *)
Lemma speed_numbers_finite basePoints threshold timeSpent :
  0 <= basePoints < 2 ^ 53 ->
  threshold = 10 \/ threshold = 15 \/ threshold = 20 ->
  0 <= timeSpent <= threshold ->
  finite (mul (mul (of_Z basePoints) (speedRatio threshold timeSpent)) (lit 3 10)) = true.
Proof.
  intros Hb Hth Ht.
  assert (Hr : ratioOk threshold (Z.to_nat timeSpent) = true).
  { pose proof ratios_ok as H. apply andb_prop in H as [H H20].
    apply andb_prop in H as [H10 H15]. rewrite forallb_forall in H10, H15, H20.
    destruct Hth as [-> | [-> | ->]]; [apply H10|apply H15|apply H20]; apply in_seq; lia. }
  unfold ratioOk in Hr. rewrite Z2Nat.id in Hr by lia.
  destruct constants_normal as (_ & _ & H03 & _).
  destruct (speedRatio threshold timeSpent) as [s| | |s m e] eqn:E; try discriminate.
  - destruct (Z.eq_dec basePoints 0) as [->|Hnz]; [reflexivity|].
    destruct (of_Z_normal basePoints ltac:(lia)) as (m & e & -> & _). reflexivity.
  - apply normalb_normal in Hr.
    destruct (Z.eq_dec basePoints 0) as [->|Hnz].
    + reflexivity.
    + eapply normal_finite.
      eapply (mul_normal _ _ _ _ (-54) (-54)); [| exact H03 | |].
      * apply (mul_of_Z_normal basePoints _ (-60) (-52)); (assumption || lia).
      * lia.
      * lia.
Qed.

(** The speed bonus of the three tiers is the rounded-down product of the
    base points, the ratio of the tier's threshold and 0.3. *)
Lemma calculateSpeedBonus_tiers basePoints timeSpent difficulty :
  validDifficulty difficulty ->
  exists threshold,
    (threshold = 10 \/ threshold = 15 \/ threshold = 20)
    /\ calculateSpeedBonus basePoints timeSpent difficulty
       = if leb (of_Z timeSpent) (of_Z threshold)
         then floor (mul (mul (of_Z basePoints) (speedRatio threshold timeSpent)) (lit 3 10))
         else 0.
Proof.
  intros [-> | [-> | ->]]; [exists 10 | exists 15 | exists 20];
    (split; [tauto|reflexivity]).
Qed.

(** *** [calculateAnswerPoints] *)

Lemma basePointsOf_valid question :
  validDifficulty (Question.difficulty question) -> validPoints question ->
  exists basePoints,
    basePointsOf question = Some basePoints /\ 0 < basePoints < 2 ^ 53.
Proof.
  intros Hd Hp. unfold basePointsOf, validPoints in *.
  assert (Hfb : exists b,
             match getBasePoints (Question.difficulty question) with
             | Obj.VNumber x => JS.to_Z x
             | _ => None
             end = Some b /\ 0 < b < 2 ^ 53).
  { destruct Hd as [-> | [-> | ->]];
      [exists 10 | exists 20 | exists 30]; (split; [reflexivity|lia]). }
  destruct (Question.points question) as [p|]; [|exact Hfb].
  destruct (Z.eqb_spec p 0); [exact Hfb|].
  exists p. split; [reflexivity|lia].
Qed.

Lemma penalty_nonneg basePoints :
  0 <= basePoints ->
  0 <= JS.floor (JS.mul (JS.of_Z basePoints) Config.penaltyPercentage).
Proof.
  intros H. apply floor_nonneg, mul_nonneg; [now apply of_Z_nonneg|reflexivity].
Qed.

Lemma floor_mul_lit_nonneg n a b :
  0 <= n -> 0 <= a -> 0 <= b -> 0 <= JS.floor (JS.mul (JS.of_Z n) (JS.lit a b)).
Proof.
  intros. apply floor_nonneg, mul_nonneg; [now apply of_Z_nonneg|now apply lit_nonneg].
Qed.

Lemma sumAmounts_push items item :
  sumAmounts (push items item) = sumAmounts items + Item.amount item.
Proof. unfold sumAmounts, push. rewrite fold_left_app. reflexivity. Qed.

Lemma incorrectAnswerPoints_nonpos basePoints timeSpent :
  0 <= basePoints -> fst (incorrectAnswerPoints basePoints timeSpent) <= 0.
Proof.
  intros H. unfold incorrectAnswerPoints.
  pose proof (penalty_nonneg basePoints H) as Hp.
  destruct (60 <? timeSpent); simpl fst; [|lia].
  pose proof (floor_mul_lit_nonneg _ 5 10 Hp ltac:(lia) ltac:(lia)). lia.
Qed.

(** C1.  For a question whose difficulty is easy, medium or hard (and whose
    point value, if it has one, is a non-negative integer below 2^53), any
    time spent >= 0 and any streak >= 0, [calculateAnswerPoints] returns a
    result; its final points are at least 1 for a correct answer, and for an
    incorrect answer they are at most 0 and at least minus half the base
    points, rounded down. *)
Theorem answer_points_bounds question isCorrect timeSpent consecutiveCorrect options :
  validDifficulty (Question.difficulty question) -> validPoints question ->
  0 <= timeSpent -> 0 <= consecutiveCorrect ->
  exists result,
    calculateAnswerPoints question isCorrect timeSpent consecutiveCorrect options
      = Some result
    /\ basePointsOf question = Some (Result.basePoints result)
    /\ (isCorrect = true -> 1 <= Result.finalPoints result)
    /\ (isCorrect = false ->
        Result.finalPoints result <= 0
        /\ - (Result.basePoints result / 2) <= Result.finalPoints result).
Proof.
  intros Hd Hp _ _.
  destruct (basePointsOf_valid question Hd Hp) as (basePoints & Hb & Hrange).
  unfold calculateAnswerPoints. rewrite Hb. eexists. split; [reflexivity|].
  unfold calculateAnswerPointsFrom.
  destruct isCorrect.
  - destruct (correctAnswerPoints _ _ _ _ _) as [finalPoints bonuses].
    simpl. split; [reflexivity|]. split; [lia|discriminate].
  - pose proof (incorrectAnswerPoints_nonpos basePoints timeSpent ltac:(lia)) as Hn.
    destruct (incorrectAnswerPoints _ _) as [finalPoints penalties].
    simpl in *. rewrite floor_half by lia.
    split; [reflexivity|]. split; [discriminate|]. intros _.
    assert (0 <= basePoints / 2) by (apply Z.div_pos; lia). lia.
Qed.

(** A hard question without a point value of its own, answered wrongly
    after 70 seconds. *)
Lemma answer_points_bounds_witness :
  let question :=
    Question.mk "q" "?" "multiple_choice" ["a"; "b"] "a" "Some explanation." "Science" "hard" None in
  exists result,
    calculateAnswerPoints question false 70 3 Options.default = Some result
    /\ basePointsOf question = Some (Result.basePoints result)
    /\ (false = true -> 1 <= Result.finalPoints result)
    /\ (false = false ->
        Result.finalPoints result <= 0
        /\ - (Result.basePoints result / 2) <= Result.finalPoints result).
Proof.
  apply (answer_points_bounds
           (Question.mk "q" "?" "multiple_choice" ["a"; "b"] "a" "Some explanation." "Science" "hard" None)
           false 70 3 Options.default).
  - right. right. reflexivity.
  - exact I.
  - lia.
  - lia.
Defined.

(** The streak bonus is half the base points, rounded down. *)
Lemma correctAnswerPoints_sum question basePoints timeSpent consecutiveCorrect options :
  0 <= basePoints < 2 ^ 51 ->
  let '(finalPoints, bonuses) :=
    correctAnswerPoints question basePoints timeSpent consecutiveCorrect options in
  finalPoints = basePoints + sumAmounts bonuses /\ basePoints <= finalPoints.
Proof.
  intros Hb. unfold correctAnswerPoints.
  assert (H53 : basePoints < 2 ^ 53).
  { change (2 ^ 53) with (4 * 2 ^ 51). lia. }
  assert (Hstreak : 0 <= JS.floor (JS.sub (JS.mul (JS.of_Z basePoints) Config.bonusMultiplier)
                                          (JS.of_Z basePoints))).
  { rewrite floor_streak by lia. apply Z.div_pos; lia. }
  pose proof (floor_mul_lit_nonneg basePoints 2 10 ltac:(lia) ltac:(lia) ltac:(lia)) as Hdiff.
  pose proof (floor_mul_lit_nonneg basePoints 5 10 ltac:(lia) ltac:(lia) ltac:(lia)) as Hperf.
  destruct (2 <=? consecutiveCorrect);
    destruct (Z.ltb_spec 0 (calculateSpeedBonus basePoints timeSpent (Question.difficulty question)));
    destruct (String.eqb (Question.difficulty question) "hard");
    destruct (Options.perfectAccuracy options);
    rewrite ?sumAmounts_push; unfold sumAmounts; simpl; lia.
Qed.

(** C9.  For a correct answer to a question with integer base points
    between 1 and 2^51, given in a time >= 0, the final points returned by
    [calculateAnswerPoints] are the [total] of its own breakdown, which is
    the base points plus the sum of the amounts of the bonus line items:
    the floor of 1 does not apply, and there is no penalty item. *)
Theorem correct_points_match_breakdown question timeSpent consecutiveCorrect options basePoints :
  basePointsOf question = Some basePoints -> 1 <= basePoints < 2 ^ 51 ->
  0 <= timeSpent ->
  exists result,
    calculateAnswerPoints question true timeSpent consecutiveCorrect options = Some result
    /\ Result.basePoints result = basePoints
    /\ Result.penalties result = []
    /\ Breakdown.total (Result.breakdown result)
       = basePoints + sumAmounts (Result.bonuses result)
    /\ Result.finalPoints result = Breakdown.total (Result.breakdown result).
Proof.
  intros Hb Hrange _. unfold calculateAnswerPoints. rewrite Hb.
  eexists. split; [reflexivity|]. unfold calculateAnswerPointsFrom.
  pose proof (correctAnswerPoints_sum question basePoints timeSpent consecutiveCorrect
                options ltac:(lia)) as Hsum.
  destruct (correctAnswerPoints _ _ _ _ _) as [finalPoints bonuses].
  destruct Hsum as [Hsum Hle]. simpl.
  repeat split; try reflexivity.
  - unfold sumAmounts at 2. simpl. lia.
  - unfold sumAmounts at 2. simpl. lia.
Qed.

(** A hard question worth 30 points, answered in 4 seconds after three
    correct answers. *)
Lemma correct_points_match_breakdown_witness :
  let question :=
    Question.mk "q" "?" "multiple_choice" ["a"; "b"] "a" "Some explanation." "Science" "hard" (Some 30) in
  exists result,
    calculateAnswerPoints question true 4 3 Options.default = Some result
    /\ Result.basePoints result = 30
    /\ Result.penalties result = []
    /\ Breakdown.total (Result.breakdown result) = 30 + sumAmounts (Result.bonuses result)
    /\ Result.finalPoints result = Breakdown.total (Result.breakdown result).
Proof.
  apply (correct_points_match_breakdown
           (Question.mk "q" "?" "multiple_choice" ["a"; "b"] "a" "Some explanation." "Science" "hard" (Some 30))
           4 3 Options.default 30).
  - reflexivity.
  - split; [lia|reflexivity].
  - lia.
Defined.

(** The binary64 steps of the speed bonus for 20 base points, 5 seconds and
    the medium threshold: the ratio 10/15 is rounded below 2/3, its product
    with 20 is rounded below 40/3, the product with 0.3 ends below 4, and
    the floor is 3. *)
Lemma speed_bonus_20_5_medium :
  JS.div (JS.sub (JS.of_Z 15) (JS.of_Z 5)) (JS.of_Z 15)
    = S754_finite false 6004799503160661 (-53)
  /\ JS.mul (JS.of_Z 20) (S754_finite false 6004799503160661 (-53))
    = S754_finite false 7505999378950826 (-49)
  /\ JS.mul (S754_finite false 7505999378950826 (-49)) (JS.lit 3 10)
    = S754_finite false 9007199254740991 (-51)
  /\ JS.ltb (S754_finite false 9007199254740991 (-51)) (JS.of_Z 4) = true
  /\ calculateSpeedBonus 20 5 "medium" = 3.
Proof. vm_compute. repeat split; reflexivity. Qed.

(** C2.  For a medium question with 20 base points, answered correctly in
    5 seconds after 2 consecutive correct answers, [calculateAnswerPoints]
    returns two bonus line items and no penalty: a streak bonus of 10 and a
    speed bonus of 3, not 4; the final points are 33, not 34. *)
Theorem medium_fast_streak_scores_33 question :
  Question.difficulty question = "medium" -> Question.points question = Some 20 ->
  exists result,
    calculateAnswerPoints question true 5 2 Options.default = Some result
    /\ Result.basePoints result = 20
    /\ Result.bonuses result
       = [ Item.mk "streak" 10 "3 in a row!"; Item.mk "speed" 3 "Quick answer!" ]
    /\ Result.penalties result = []
    /\ Result.finalPoints result = 33.
Proof.
  intros Hd Hp. unfold calculateAnswerPoints, basePointsOf. rewrite Hp. simpl.
  eexists. split; [reflexivity|].
  unfold calculateAnswerPointsFrom, correctAnswerPoints. rewrite Hd.
  vm_compute. repeat split; reflexivity.
Qed.

Lemma medium_fast_streak_scores_33_witness :
  let question :=
    Question.mk "3" "Who painted the Mona Lisa?" "multiple_choice"
      ["Vincent van Gogh"; "Pablo Picasso"; "Leonardo da Vinci"; "Michelangelo"]
      "Leonardo da Vinci"
      "The Mona Lisa was painted by Leonardo da Vinci between 1503 and 1519."
      "Art" "medium" (Some 20) in
  exists result,
    calculateAnswerPoints question true 5 2 Options.default = Some result
    /\ Result.basePoints result = 20
    /\ Result.bonuses result
       = [ Item.mk "streak" 10 "3 in a row!"; Item.mk "speed" 3 "Quick answer!" ]
    /\ Result.penalties result = []
    /\ Result.finalPoints result = 33.
Proof.
  apply (medium_fast_streak_scores_33
           (Question.mk "3" "Who painted the Mona Lisa?" "multiple_choice"
              ["Vincent van Gogh"; "Pablo Picasso"; "Leonardo da Vinci"; "Michelangelo"]
              "Leonardo da Vinci"
      "The Mona Lisa was painted by Leonardo da Vinci between 1503 and 1519."
      "Art" "medium" (Some 20)));
    reflexivity.
Defined.

(** *** [calculateTotalScore] *)

Lemma fold_addAnswer_correct answers sums :
  Sums.correctAnswers (fold_left addAnswer answers sums)
  = Sums.correctAnswers sums + correctCount answers.
Proof.
  revert sums. unfold correctCount.
  induction answers as [|a rest IH]; intros sums; simpl fold_left.
  - simpl. lia.
  - rewrite IH. unfold addAnswer at 1. simpl Sums.correctAnswers. simpl filter.
    destruct (Answer.isCorrect a); [|lia].
    simpl List.length. rewrite Nat2Z.inj_succ. lia.
Qed.

Lemma total_correctAnswers answers quizInfo :
  Total.correctAnswers (calculateTotalScore answers quizInfo) = correctCount answers.
Proof. unfold calculateTotalScore. simpl. now rewrite fold_addAnswer_correct. Qed.

Lemma correctCount_bounds answers :
  0 <= correctCount answers <= Z.of_nat (List.length answers).
Proof.
  unfold correctCount. pose proof (filter_length_le Answer.isCorrect answers). lia.
Qed.

Lemma correctCount_all answers :
  Forall (fun a => Answer.isCorrect a = true) answers ->
  correctCount answers = Z.of_nat (List.length answers).
Proof.
  unfold correctCount. induction 1 as [|a rest Ha _ IH]; [reflexivity|].
  simpl filter. rewrite Ha. simpl List.length. rewrite !Nat2Z.inj_succ. lia.
Qed.

(** The accuracy field, a number of tenths divided by 10. *)
Lemma total_accuracy answers quizInfo :
  Total.accuracy (calculateTotalScore answers quizInfo)
  = JS.lit
      (JS.round (JS.mul
         (if (0 <? List.length answers)%nat
          then percentCorrect (correctCount answers) answers
          else JS.of_Z 0) (JS.of_Z 10)))
      10.
Proof. unfold calculateTotalScore. simpl. now rewrite fold_addAnswer_correct. Qed.

(** The total is never negative. *)
Lemma total_points_nonneg answers quizInfo :
  0 <= Total.totalPoints (calculateTotalScore answers quizInfo).
Proof. unfold calculateTotalScore. simpl. apply Z.le_max_l. Qed.

(** The accuracy of an empty list is 0: nothing is divided by its length. *)
Lemma accuracy_empty quizInfo :
  Total.accuracy (calculateTotalScore [] quizInfo) = JS.of_Z 0.
Proof. reflexivity. Qed.

Lemma tenthsAgree_up_to_79 :
  forallb (fun n => forallb (tenthsAgree n) (seq 0 (S n))) (seq 1 79) = true.
Proof. vm_compute. reflexivity. Qed.

(** Up to 79 answers the accuracy is the exact percentage rounded to one
    decimal place. *)
Lemma accuracy_rounded_up_to_79 answers quizInfo :
  (0 < List.length answers <= 79)%nat ->
  Total.accuracy (calculateTotalScore answers quizInfo)
  = JS.lit (tenthsOfPercent (correctCount answers) (Z.of_nat (List.length answers))) 10.
Proof.
  intros Hn. rewrite total_accuracy.
  destruct (Nat.ltb_spec 0 (List.length answers)); [|lia].
  pose proof (correctCount_bounds answers) as Hc.
  pose proof tenthsAgree_up_to_79 as Hall. rewrite forallb_forall in Hall.
  specialize (Hall (List.length answers)). rewrite forallb_forall in Hall.
  specialize (Hall ltac:(apply in_seq; lia) (Z.to_nat (correctCount answers))
                   ltac:(apply in_seq; lia)).
  unfold tenthsAgree in Hall. rewrite Z2Nat.id in Hall by lia.
  apply Z.eqb_eq in Hall. unfold percentCorrect. now rewrite Hall.
Qed.

(** C3.  With 23 correct answers among 80, the exact percentage is 28.75,
    which rounds to 28.8 (288 tenths); the accuracy field of
    [calculateTotalScore] is 28.7, because the binary64 value of
    (23/80)*100*10 lies below 287.5. *)
Theorem accuracy_of_23_in_80 answers quizInfo :
  List.length answers = 80%nat -> correctCount answers = 23 ->
  Total.accuracy (calculateTotalScore answers quizInfo) = JS.lit 287 10
  /\ tenthsOfPercent 23 80 = 288
  /\ JS.ltb (JS.lit 287 10) (JS.lit 288 10) = true
  /\ JS.ltb (JS.mul (JS.mul (JS.div (JS.of_Z 23) (JS.of_Z 80)) (JS.of_Z 100)) (JS.of_Z 10))
            (JS.lit 2875 10) = true.
Proof.
  intros Hn Hc. rewrite total_accuracy. unfold percentCorrect.
  rewrite Hn, Hc. vm_compute. repeat split; reflexivity.
Qed.

Lemma accuracy_of_23_in_80_witness :
  let answers :=
    (repeat (plainAnswer true 10) 23 ++ repeat (plainAnswer false (-1)) 57)%list in
  Total.accuracy (calculateTotalScore answers QuizInfo.default) = JS.lit 287 10
  /\ tenthsOfPercent 23 80 = 288
  /\ JS.ltb (JS.lit 287 10) (JS.lit 288 10) = true
  /\ JS.ltb (JS.mul (JS.mul (JS.div (JS.of_Z 23) (JS.of_Z 80)) (JS.of_Z 100)) (JS.of_Z 10))
            (JS.lit 2875 10) = true.
Proof.
  apply (accuracy_of_23_in_80
           (repeat (plainAnswer true 10) 23 ++ repeat (plainAnswer false (-1)) 57)%list
           QuizInfo.default); reflexivity.
Defined.

(** *** [getBasePoints] *)

Lemma getBasePoints_tiers :
  getBasePoints "easy" = Obj.VNumber (JS.of_Z 10)
  /\ getBasePoints "medium" = Obj.VNumber (JS.of_Z 20)
  /\ getBasePoints "hard" = Obj.VNumber (JS.of_Z 30).
Proof. repeat split; reflexivity. Qed.

(** A string that names neither a key of the points table nor a member of
    [Object.prototype] falls back to the medium value. *)
Lemma getBasePoints_fallback difficulty :
  Obj.own pointsConfig difficulty = None ->
  existsb (String.eqb difficulty) Obj.object_prototype = false ->
  getBasePoints difficulty = Obj.VNumber (JS.of_Z Config.medium).
Proof.
  intros Hown Hproto. unfold getBasePoints, Obj.get. rewrite Hown, Hproto.
  reflexivity.
Qed.

(** A member of [Object.prototype] is returned as it is: no number. *)
Lemma getBasePoints_inherited :
  getBasePoints "toString" = Obj.VInherited
  /\ getBasePoints "constructor" = Obj.VInherited.
Proof. split; reflexivity. Qed.

(** The table that [getPointsForDifficulty] builds has the tiers only. *)
Lemma getPointsForDifficulty_of_config_key :
  Quiz.getPointsForDifficulty "bonusMultiplier" = Obj.VNumber (JS.of_Z 10).
Proof. reflexivity. Qed.

(** C5.  The strings "bonusMultiplier" and "penaltyPercentage" are no valid
    difficulty, yet [getBasePoints] returns for them the multiplier 1.5 and
    the percentage 0.1 that the points table also holds, not the medium
    value 20. *)
Theorem getBasePoints_of_another_config_key :
  ~ validDifficulty "bonusMultiplier"
  /\ getBasePoints "bonusMultiplier" = Obj.VNumber (JS.lit 15 10)
  /\ getBasePoints "penaltyPercentage" = Obj.VNumber (JS.lit 1 10)
  /\ JS.eqb (JS.lit 15 10) (JS.of_Z Config.medium) = false
  /\ JS.ltb (JS.lit 15 10) (JS.of_Z Config.medium) = true.
Proof.
  split; [intros [H|[H|H]]; discriminate|].
  vm_compute. repeat split; reflexivity.
Qed.

(** *** Completion bonuses and grade *)

(** Elapsed time at two fifths of the budget gives a ratio below one half. *)
Lemma two_fifths_below_half timeSpent timeLimit :
  5 * timeSpent = 2 * timeLimit -> 0 < timeLimit < 2 ^ 53 ->
  JS.ltb (JS.div (JS.of_Z timeSpent) (JS.of_Z timeLimit)) (JS.lit 5 10) = true.
Proof.
  intros Heq Hrange.
  assert (Hk : exists k, timeSpent = Zpos (2 * k) /\ timeLimit = Zpos (5 * k)).
  { assert (Hmod : timeLimit mod 5 = 0).
    { assert ((2 * timeLimit) mod 5 = 0)
        by (rewrite <- Heq, Z.mul_comm; apply Z.mod_mul; lia).
      pose proof (Z.mod_pos_bound timeLimit 5 ltac:(lia)).
      pose proof (Z.div_mod timeLimit 5 ltac:(lia)).
      pose proof (Z.div_mod (2 * timeLimit) 5 ltac:(lia)). lia. }
    pose proof (Z.div_mod timeLimit 5 ltac:(lia)) as Hdiv.
    destruct (timeLimit / 5) as [|k|k] eqn:E; try lia.
    exists k. rewrite !Pos2Z.inj_mul. lia. }
  destruct Hk as (k & -> & ->).
  rewrite div_two_fifths by lia. reflexivity.
Qed.

(** C6.  For 10 answers, all correct, with the category "Science" and an
    elapsed time of two fifths of the time budget, the completion bonuses
    of [calculateTotalScore] are exactly the perfect-score bonus (+100), the
    completion bonus (+20), the speed-completion bonus (+30) and the
    category-mastery bonus (+80); there is no high-accuracy bonus, and the
    grade letter is "A+". *)
Theorem perfect_science_quiz_bonuses answers quizInfo timeSpent timeLimit :
  List.length answers = 10%nat ->
  Forall (fun a => Answer.isCorrect a = true) answers ->
  QuizInfo.category quizInfo = Some "Science" ->
  QuizInfo.timeSpent quizInfo = Some timeSpent ->
  QuizInfo.timeLimit quizInfo = Some timeLimit ->
  5 * timeSpent = 2 * timeLimit -> 0 < timeLimit < 2 ^ 53 ->
  let total := calculateTotalScore answers quizInfo in
  Total.completionBonuses total
  = [ Item.mk "perfect_score" 100 "Perfect Score! 🏆";
      Item.mk "completion" 20 "Quiz Completion Bonus";
      Item.mk "speed_completion" 30 "Lightning Fast! ⚡";
      Item.mk "category_mastery" 80 "Science Master! 🎓" ]
  /\ ~ In "high_accuracy" (map Item.type (Total.completionBonuses total))
  /\ Grade.letter (Total.grade total) = "A+".
Proof.
  intros Hn Hall Hcat Hts Htl Heq Hrange total.
  pose proof (two_fifths_below_half _ _ Heq Hrange) as Hfast.
  assert (Hc : correctCount answers = 10).
  { rewrite correctCount_all, Hn by assumption. reflexivity. }
  assert (Hbonuses : Total.completionBonuses total
    = [ Item.mk "perfect_score" 100 "Perfect Score! 🏆";
        Item.mk "completion" 20 "Quiz Completion Bonus";
        Item.mk "speed_completion" 30 "Lightning Fast! ⚡";
        Item.mk "category_mastery" 80 "Science Master! 🎓" ]).
  { unfold total, calculateTotalScore. cbn [Total.completionBonuses].
    rewrite fold_addAnswer_correct. cbn [Sums.correctAnswers Sums.zero]. rewrite Hc.
    unfold calculateCompletionBonuses, percentCorrect. rewrite Hn, Hcat, Hts, Htl.
    assert ((timeSpent =? 0) = false) as -> by lia.
    assert ((timeLimit =? 0) = false) as -> by lia.
    cbn [negb andb]. rewrite Hfast. reflexivity. }
  split; [exact Hbonuses|]. split.
  - rewrite Hbonuses. simpl. intros [H|[H|[H|[H|[]]]]]; discriminate.
  - unfold total, calculateTotalScore. cbn [Total.grade].
    rewrite fold_addAnswer_correct. cbn [Sums.correctAnswers Sums.zero]. rewrite Hc.
    unfold percentCorrect. rewrite Hn. reflexivity.
Qed.

(** Ten correct answers in 120 of the 300 seconds of a ten-question quiz. *)
Lemma perfect_science_quiz_bonuses_witness :
  let answers := repeat (plainAnswer true 10) 10 in
  let quizInfo := QuizInfo.mk (Some "Science") (Some "easy") (Some 120) (Some 300) in
  let total := calculateTotalScore answers quizInfo in
  Total.completionBonuses total
  = [ Item.mk "perfect_score" 100 "Perfect Score! 🏆";
      Item.mk "completion" 20 "Quiz Completion Bonus";
      Item.mk "speed_completion" 30 "Lightning Fast! ⚡";
      Item.mk "category_mastery" 80 "Science Master! 🎓" ]
  /\ ~ In "high_accuracy" (map Item.type (Total.completionBonuses total))
  /\ Grade.letter (Total.grade total) = "A+".
Proof.
  apply (perfect_science_quiz_bonuses
           (repeat (plainAnswer true 10) 10)
           (QuizInfo.mk (Some "Science") (Some "easy") (Some 120) (Some 300))
           120 300); try reflexivity.
  - repeat constructor.
  - split; [lia|reflexivity].
Defined.

End ScoringFacts.

(** ** Arrays and the session manager *)

Module UtilsFacts.
Import Utils.

Section Arrays.
Context {A : Type}.

Lemma assign_length (array : list A) i x :
  List.length (assign array i x) = List.length array.
Proof.
  revert i. induction array as [|y rest IH]; intros [|i]; simpl; auto.
Qed.

(** Writing [a] where [y] was: [y] and the new array hold what [a] and the
    old one held. *)
Lemma assign_Permutation (array : list A) j y a :
  nth_error array j = Some y ->
  Permutation (y :: assign array j a) (a :: array).
Proof.
  revert j. induction array as [|b rest IH]; intros [|j] H; simpl in *;
    try discriminate.
  - injection H as ->. apply perm_swap.
  - apply perm_trans with (b :: y :: assign rest j a); [apply perm_swap|].
    apply perm_trans with (b :: a :: rest); [|apply perm_swap].
    apply perm_skip, IH, H.
Qed.

Lemma assign_assign_Permutation (array : list A) i j x y :
  nth_error array i = Some x -> nth_error array j = Some y ->
  Permutation (assign (assign array i y) j x) array.
Proof.
  revert i j. induction array as [|a rest IH]; intros [|i] [|j] Hi Hj;
    simpl in *; try discriminate.
  - injection Hi as <-. injection Hj as <-. reflexivity.
  - injection Hi as <-. now apply assign_Permutation.
  - injection Hj as <-. now apply assign_Permutation.
  - apply perm_skip. now apply IH.
Qed.

Lemma swap_Permutation (array : list A) i j : Permutation (swap array i j) array.
Proof.
  unfold swap.
  destruct (nth_error array i) as [x|] eqn:Hi; [|reflexivity].
  destruct (nth_error array j) as [y|] eqn:Hj; [|reflexivity].
  now apply assign_assign_Permutation.
Qed.

Variable random : nat -> nat.

Lemma shuffleLoop_Permutation i (array : list A) :
  Permutation (shuffleLoop random i array) array.
Proof.
  revert array. induction i as [|i IH]; intros array; simpl; [reflexivity|].
  eapply perm_trans; [apply IH|apply swap_Permutation].
Qed.

Lemma shuffleArray_Permutation (array : list A) :
  Permutation (shuffleArray random array) array.
Proof. apply shuffleLoop_Permutation. Qed.

Lemma slice0_firstn (array : list A) finish :
  0 <= finish ->
  slice0 array finish
  = firstn (Z.to_nat (Z.min finish (Z.of_nat (List.length array)))) array.
Proof.
  intros H. unfold slice0. destruct (Z.ltb_spec finish 0); [lia|reflexivity].
Qed.

End Arrays.
End UtilsFacts.

Module QuizFacts.
Import Quiz UtilsFacts.

Lemma placeholder_ids_NoDup : NoDup (map Question.id placeholderQuestions).
Proof.
  repeat (constructor; [simpl; intuition discriminate|]). constructor.
Qed.

Lemma NoDup_map_filter {A B} (f : A -> B) p (l : list A) :
  NoDup (map f l) -> NoDup (map f (filter p l)).
Proof.
  induction l as [|a rest IH]; simpl; [auto|].
  intros H. inversion H as [|? ? Hnotin Hrest]; subst.
  destruct (p a); simpl; [|auto].
  constructor; [|auto].
  intros Hin. apply Hnotin. apply in_map_iff in Hin as (b & Hb & Hin).
  apply in_map_iff. exists b. split; [assumption|].
  now apply filter_In in Hin.
Qed.

Lemma NoDup_firstn {A} n (l : list A) : NoDup l -> NoDup (firstn n l).
Proof.
  intros H. rewrite <- (firstn_skipn n l) in H. now apply NoDup_app_remove_r in H.
Qed.

Lemma filterQuestions_incl category difficulty :
  incl (filterQuestions category difficulty) placeholderQuestions.
Proof.
  unfold filterQuestions. intros q Hq.
  destruct (filterGiven difficulty); [apply filter_In in Hq as [Hq _]|];
    (destruct (filterGiven category); [now apply filter_In in Hq|assumption]).
Qed.

Lemma filterQuestions_NoDup category difficulty :
  NoDup (map Question.id (filterQuestions category difficulty)).
Proof.
  unfold filterQuestions.
  destruct (filterGiven difficulty), (filterGiven category);
    repeat apply NoDup_map_filter; apply placeholder_ids_NoDup.
Qed.

Lemma available_NoDup category difficulty :
  NoDup (map Question.id (available category difficulty)).
Proof.
  unfold available. pose proof (filterQuestions_NoDup category difficulty) as H.
  destruct (filterQuestions category difficulty); [apply placeholder_ids_NoDup|exact H].
Qed.

Lemma generatePlaceholderQuestions_eq random count category difficulty :
  generatePlaceholderQuestions random count category difficulty
  = Utils.slice0 (Utils.shuffleArray random (available category difficulty))
      (Z.min count (Z.of_nat (List.length
         (Utils.shuffleArray random (available category difficulty))))).
Proof. reflexivity. Qed.

(** C7.  For every category, difficulty and requested count [count >= 0]
    (and every outcome of the shuffle), the questions that
    [generatePlaceholderQuestions] returns have pairwise distinct
    identifiers, are taken from the available questions, and number exactly
    the minimum of [count] and the number of available questions; the
    available questions are those passing the filters, or all the local
    questions when none passes. *)
Theorem generated_questions_distinct_and_sized random count category difficulty :
  0 <= count ->
  let questions := generatePlaceholderQuestions random count category difficulty in
  NoDup (map Question.id questions)
  /\ NoDup questions
  /\ List.length questions
     = Z.to_nat (Z.min count (Z.of_nat (List.length (available category difficulty))))
  /\ incl questions (available category difficulty)
  /\ (filterQuestions category difficulty = [] ->
      available category difficulty = placeholderQuestions)
  /\ (filterQuestions category difficulty <> [] ->
      available category difficulty = filterQuestions category difficulty).
Proof.
  intros Hcount questions.
  assert (Hq : questions
    = firstn (Z.to_nat (Z.min count (Z.of_nat (List.length (available category difficulty)))))
        (Utils.shuffleArray random (available category difficulty))).
  { unfold questions. rewrite generatePlaceholderQuestions_eq.
    pose proof (shuffleArray_Permutation random (available category difficulty)) as Hp.
    apply Permutation_length in Hp.
    rewrite slice0_firstn by lia. rewrite Hp. f_equal. lia. }
  pose proof (shuffleArray_Permutation random (available category difficulty)) as Hperm.
  assert (Hids : NoDup (map Question.id questions)).
  { rewrite Hq, <- firstn_map. apply NoDup_firstn.
    eapply Permutation_NoDup; [apply Permutation_sym, Permutation_map, Hperm|].
    apply available_NoDup. }
  split; [exact Hids|]. split; [|split; [|split; [|split]]].
  - eapply NoDup_map_inv, Hids.
  - rewrite Hq, length_firstn, (Permutation_length Hperm). lia.
  - rewrite Hq. intros q Hin. apply (Permutation_in q Hperm).
    rewrite <- (firstn_skipn (Z.to_nat (Z.min count
      (Z.of_nat (List.length (available category difficulty)))))).
    apply in_or_app. now left.
  - unfold available. now intros ->.
  - unfold available. destruct (filterQuestions category difficulty); congruence.
Qed.

(** A quiz on geography with more questions asked for than there are. *)
Lemma generated_questions_distinct_and_sized_witness :
  let questions :=
    generatePlaceholderQuestions (fun i => (3 * i + 1)%nat) 5 "Geography" "easy" in
  NoDup (map Question.id questions)
  /\ NoDup questions
  /\ List.length questions
     = Z.to_nat (Z.min 5 (Z.of_nat (List.length (available "Geography" "easy"))))
  /\ incl questions (available "Geography" "easy")
  /\ (filterQuestions "Geography" "easy" = [] ->
      available "Geography" "easy" = placeholderQuestions)
  /\ (filterQuestions "Geography" "easy" <> [] ->
      available "Geography" "easy" = filterQuestions "Geography" "easy").
Proof.
  apply (generated_questions_distinct_and_sized
           (fun i => (3 * i + 1)%nat) 5 "Geography" "easy").
  lia.
Defined.

(** *** The session manager *)

(** A submission is turned down unless a quiz is active and the current
    index is inside the question list. *)
Lemma submitAnswer_inactive answer s :
  State.isQuizActive s = false ->
  submitAnswer answer s = Some (s, Returned Submitted.NoActiveQuestion).
Proof. intros H. unfold submitAnswer. now rewrite H. Qed.

Lemma submitAnswer_accepted answer s s' isCorrect points totalScore explanation :
  submitAnswer answer s
    = Some (s', Returned (Submitted.Accepted isCorrect points totalScore explanation)) ->
  State.isQuizActive s = true
  /\ (State.currentQuestionIndex s < List.length (State.questions s))%nat
  /\ State.currentQuestionIndex s' = State.currentQuestionIndex s
  /\ List.length (State.userAnswers s') = S (List.length (State.userAnswers s)).
Proof.
  unfold submitAnswer.
  destruct (State.isQuizActive s); simpl; [|discriminate].
  destruct (Nat.leb_spec (List.length (State.questions s)) (State.currentQuestionIndex s))
    as [|Hlt]; [discriminate|].
  destruct (nth_error _ _) as [question|]; [|discriminate].
  destruct (State.currentQuiz s) as [quiz|]; [|discriminate].
  destruct (Scoring.calculateAnswerPoints _ _ _ _ _) as [scoringResult|];
    [|discriminate].
  intros Heq. injection Heq as <- _ _ _ _. simpl.
  repeat split; try assumption. unfold push. rewrite length_app. simpl. lia.
Qed.

(** C4.  After a quiz of one question has started, two calls of
    [submitAnswer] made before the pending callback advances the question
    index are both accepted: the session is still active at index 0, the
    answer list holds two records for the one question, and is longer than
    the question list. *)
Theorem double_submission_exceeds_questions :
  exists s,
    run initial doubleSubmission = Some s
    /\ reachable s
    /\ State.isQuizActive s = true
    /\ State.currentQuestionIndex s = 0%nat
    /\ map Question.id (State.questions s) = ["3"]
    /\ map Answer.questionId (State.userAnswers s) = ["3"; "3"]
    /\ map Answer.points (State.userAnswers s) = [26; -2]
    /\ (List.length (State.questions s) < List.length (State.userAnswers s))%nat.
Proof.
  assert (H : exists s, run initial doubleSubmission = Some s).
  { vm_compute. eexists. reflexivity. }
  destruct H as [s Hs]. exists s. split; [exact Hs|].
  split; [exists doubleSubmission; exact Hs|].
  vm_compute in Hs. injection Hs as <-. vm_compute.
  repeat split; reflexivity || lia.
Qed.

(** *** [endQuiz] *)

Lemma endQuiz_deactivates s : State.isQuizActive (fst (endQuiz s)) = false.
Proof.
  unfold endQuiz. destruct (State.isQuizActive s) eqn:E; simpl; [|exact E].
  destruct (calculateResults _); reflexivity.
Qed.

(** C10.  When no quiz is active, [endQuiz] returns [null] and leaves the
    whole state as it was; and whatever the state, a call of [endQuiz] that
    follows a call of [endQuiz] returns [null] and changes nothing. *)
Theorem endQuiz_without_active_quiz s :
  (State.isQuizActive s = false -> endQuiz s = (s, Returned None))
  /\ endQuiz (fst (endQuiz s)) = (fst (endQuiz s), Returned None).
Proof.
  assert (H : forall s', State.isQuizActive s' = false -> endQuiz s' = (s', Returned None)).
  { intros s' E. unfold endQuiz. now rewrite E. }
  split; [apply H|]. apply H, endQuiz_deactivates.
Qed.

Lemma endQuiz_without_active_quiz_witness :
  State.isQuizActive initial = false /\ endQuiz initial = (initial, Returned None).
Proof.
  split; [reflexivity|].
  apply (proj1 (endQuiz_without_active_quiz initial)). reflexivity.
Defined.

End QuizFacts.

(** ** Leaderboard *)

Module LeaderboardFacts.
Import Leaderboard UtilsFacts.

Lemma insertByPoints_Permutation user sorted :
  Permutation (insertByPoints user sorted) (user :: sorted).
Proof.
  induction sorted as [|other rest IH]; simpl; [reflexivity|].
  destruct (_ <=? 0); [reflexivity|].
  apply perm_trans with (other :: user :: rest); [now apply perm_skip|apply perm_swap].
Qed.

Lemma sortByPoints_Permutation data : Permutation (sortByPoints data) data.
Proof.
  unfold sortByPoints. induction data as [|user rest IH]; simpl; [reflexivity|].
  eapply perm_trans; [apply insertByPoints_Permutation|now apply perm_skip].
Qed.

Lemma insertByPoints_descending user sorted :
  descending sorted -> descending (insertByPoints user sorted).
Proof.
  unfold descending. induction 1 as [|other rest Hrest IH Hall]; simpl.
  - constructor; constructor.
  - destruct (Z.leb_spec (User.totalPoints other - User.totalPoints user) 0) as [Hle|Hgt].
    + constructor; [now constructor|].
      constructor; [unfold before; lia|].
      eapply Forall_impl; [|exact Hall]. unfold before. intros; lia.
    + constructor; [exact IH|].
      eapply Permutation_Forall; [apply Permutation_sym, insertByPoints_Permutation|].
      constructor; [unfold before; lia|exact Hall].
Qed.

Lemma sortByPoints_descending data : descending (sortByPoints data).
Proof.
  unfold sortByPoints. induction data as [|user rest IH]; simpl.
  - constructor.
  - now apply insertByPoints_descending.
Qed.

Lemma updateRanksFrom_nth index data i :
  nth_error (updateRanksFrom index data) i
  = option_map (fun user => setRank user (index + Z.of_nat i + 1)) (nth_error data i).
Proof.
  revert index i. induction data as [|user rest IH]; intros index [|i]; simpl;
    try reflexivity.
  - do 2 f_equal. lia.
  - rewrite IH. destruct (nth_error rest i); simpl; [|reflexivity].
    do 2 f_equal. lia.
Qed.

Lemma updateRanksFrom_length index data :
  List.length (updateRanksFrom index data) = List.length data.
Proof. revert index. induction data; intros; simpl; auto. Qed.

Lemma updateRanksFrom_points index data :
  map User.totalPoints (updateRanksFrom index data) = map User.totalPoints data.
Proof. revert index. induction data; intros; simpl; [|f_equal]; auto. Qed.

(** Sortedness only looks at the points. *)
Lemma descending_points data data' :
  map User.totalPoints data = map User.totalPoints data' ->
  descending data -> descending data'.
Proof.
  unfold descending. intros Heq H. revert data' Heq.
  induction H as [|a rest Hrest IH Hall]; intros [|a' rest'] Heq; simpl in Heq;
    try discriminate; [constructor|].
  injection Heq as Ha Hr. constructor; [now apply IH|].
  clear IH Hrest. revert rest' Hr.
  induction Hall as [|b rest Hb Hall IH]; intros [|b' rest'] Hr; simpl in Hr;
    try discriminate; constructor.
  - injection Hr as Hb' _. unfold before in *. lia.
  - injection Hr as _ Hr. now apply IH.
Qed.


Lemma findIndex_Some userId data i :
  findIndex userId data = Some i ->
  exists user, nth_error data i = Some user /\ find (hasId userId) data = Some user.
Proof.
  revert i. induction data as [|u rest IH]; intros i; simpl; [discriminate|].
  unfold hasId at 1. destruct (String.eqb (User.id u) userId).
  - intros H. injection H as <-. exists u. split; reflexivity.
  - destruct (findIndex userId rest) as [k|]; simpl; [|discriminate].
    intros H. injection H as <-. destruct (IH k eq_refl) as (user & Hn & Hf).
    exists user. split; assumption.
Qed.

Lemma findIndex_None userId data :
  findIndex userId data = None -> find (hasId userId) data = None.
Proof.
  induction data as [|u rest IH]; simpl; [reflexivity|].
  unfold hasId at 1. destruct (String.eqb (User.id u) userId); [discriminate|].
  destruct (findIndex userId rest); simpl; [discriminate|]. intros _. now apply IH.
Qed.

Lemma assign_In {A} (array : list A) i x y :
  nth_error array i = Some y -> In x (Utils.assign array i x).
Proof.
  revert i. induction array as [|a rest IH]; intros [|i]; simpl; try discriminate.
  - now left.
  - intros H. right. now apply (IH i).
Qed.


(** *** The refresh that follows the update *)

Lemma updateRanks_sort_descending data : descending (updateRanks (sortByPoints data)).
Proof.
  apply (descending_points (sortByPoints data)).
  - unfold updateRanks. now rewrite updateRanksFrom_points.
  - apply sortByPoints_descending.
Qed.










End LeaderboardFacts.

(** ** Leaderboard: lookups, statistics, search and subscribers *)

Module TextFacts.
Import Text.



End TextFacts.

Module BoardFacts.
Import Leaderboard Board LeaderboardFacts UtilsFacts TextFacts.

(** *** [getUserRankFromPlaceholder] *)

Lemma findIndex_first userId data i :
  findIndex userId data = Some i ->
  exists user, nth_error data i = Some user /\ User.id user = userId
    /\ (forall j other, (j < i)%nat -> nth_error data j = Some other ->
          User.id other <> userId).
Proof.
  revert i. induction data as [|u rest IH]; intros i; simpl; [discriminate|].
  destruct (String.eqb_spec (User.id u) userId) as [Heq|Hne].
  - intros H. injection H as <-. exists u. repeat split; [assumption|]. intros; lia.
  - destruct (findIndex userId rest) as [k|]; simpl; [|discriminate].
    intros H. injection H as <-. destruct (IH k eq_refl) as (user & Hn & Hid & Hfirst).
    exists user. repeat split; try assumption.
    intros [|j] other Hj Ho; simpl in Ho.
    + now injection Ho as <-.
    + apply (Hfirst j); [lia|assumption].
Qed.

Lemma findIndex_present userId data user :
  In user data -> User.id user = userId -> exists i, findIndex userId data = Some i.
Proof.
  induction data as [|u rest IH]; simpl; [contradiction|].
  intros [->|Hin] Hid.
  - rewrite Hid, String.eqb_refl. now exists 0%nat.
  - destruct (String.eqb (User.id u) userId); [now exists 0%nat|].
    destruct (IH Hin Hid) as [i ->]. now exists (S i).
Qed.

Lemma findIndex_absent userId data :
  findIndex userId data = None -> forall user, In user data -> User.id user <> userId.
Proof.
  intros Hnone user Hin Hid.
  destruct (findIndex_present _ _ _ Hin Hid) as [i Hi]. congruence.
Qed.

Lemma slice_around {A} (array : list A) i x :
  nth_error array i = Some x ->
  let context :=
    slice array (Z.max 0 (Z.of_nat i - 2))
          (Z.min (Z.of_nat (List.length array)) (Z.of_nat i + 3)) in
  In x context /\ (List.length context <= 5)%nat
  /\ exists before after, array = (before ++ context ++ after)%list.
Proof.
  intros Hx context. unfold slice in context.
  assert (Hi : (i < List.length array)%nat) by (apply nth_error_Some; congruence).
  set (start := Z.to_nat (Z.max 0 (Z.of_nat i - 2))) in *.
  set (finish := Z.to_nat (Z.min (Z.of_nat (List.length array)) (Z.of_nat i + 3))) in *.
  assert (Hs : (start <= i)%nat) by (unfold start; lia).
  assert (Hf : (i < finish)%nat) by (unfold finish; lia).
  split; [|split].
  - apply nth_error_In with (n := (i - start)%nat). unfold context.
    rewrite nth_error_firstn, nth_error_skipn.
    destruct (Nat.ltb_spec (i - start) (finish - start)); [|lia].
    rewrite <- Hx. f_equal. lia.
  - unfold context. rewrite length_firstn. unfold start, finish. lia.
  - exists (firstn start array), (skipn (finish - start) (skipn start array)).
    unfold context. rewrite firstn_skipn. now rewrite firstn_skipn.
Qed.

Lemma setRank_same user rank : User.rank user = Some rank -> setRank user rank = user.
Proof. destruct user. simpl. now intros ->. Qed.

Lemma updated_user_present today userId newScore data :
  exists entry, In entry (updatePlaceholderUserScore today userId newScore data)
                /\ User.id entry = userId.
Proof.
  unfold updatePlaceholderUserScore.
  set (updated := match findIndex userId data with None => _ | Some userIndex => _ end).
  assert (Hin : exists entry, In entry updated /\ User.id entry = userId).
  { unfold updated. destruct (findIndex userId data) as [userIndex|] eqn:Hfind.
    - destruct (findIndex_first _ _ _ Hfind) as (user & Hnth & Hid & _).
      rewrite Hnth. exists (addScore user newScore). split; [|exact Hid].
      eapply assign_In; eassumption.
    - eexists. split; [unfold push; apply in_or_app; right; left; reflexivity|].
      reflexivity. }
  destruct Hin as (entry & Hin & Hid).
  apply (Permutation_in _ (Permutation_sym (sortByPoints_Permutation updated))) in Hin.
  apply In_nth_error in Hin as [i Hi].
  exists (setRank entry (Z.of_nat i + 1)). split; [|exact Hid].
  apply nth_error_In with (n := i).
  unfold updateRanks. rewrite updateRanksFrom_nth, Hi. reflexivity.
Qed.

Lemma updated_ranks today userId newScore data i user :
  nth_error (updatePlaceholderUserScore today userId newScore data) i = Some user ->
  User.rank user = Some (Z.of_nat i + 1).
Proof.
  unfold updatePlaceholderUserScore, updateRanks. rewrite updateRanksFrom_nth.
  destruct (nth_error _ i); simpl; [|discriminate].
  intros H. injection H as <-. reflexivity.
Qed.

(** X1.  After [updatePlaceholderUserScore], looking the user up gives the
    rank stored in the entry: the first entry of the user is found, its
    rank is its position counted from 1, no entry before it is the user's,
    and the context is a stretch of at most 5 neighbouring entries that
    holds the entry. *)
Theorem rank_lookup_after_update today userId newScore data :
  let data' := updatePlaceholderUserScore today userId newScore data in
  exists user rank context,
    getUserRankFromPlaceholder userId data'
      = RankResult.Found user rank (Z.of_nat (List.length data')) context
    /\ 1 <= rank <= Z.of_nat (List.length data')
    /\ nth_error data' (Z.to_nat (rank - 1)) = Some user
    /\ User.id user = userId
    /\ User.rank user = Some rank
    /\ (forall other r, In other data' -> User.id other = userId ->
          User.rank other = Some r -> rank <= r)
    /\ In user context
    /\ (List.length context <= 5)%nat
    /\ exists before after, data' = (before ++ context ++ after)%list.
Proof.
  intros data'.
  destruct (updated_user_present today userId newScore data) as (entry & Hin & Hid).
  fold data' in Hin.
  destruct (findIndex_present _ _ _ Hin Hid) as [i Hi].
  destruct (findIndex_first _ _ _ Hi) as (user & Hnth & Huid & Hfirst).
  pose proof (updated_ranks _ _ _ _ _ _ Hnth) as Hrank.
  assert (Hlt : (i < List.length data')%nat) by (apply nth_error_Some; fold data'; congruence).
  destruct (slice_around data' i user Hnth) as (Hctx & Hlen & Hparts).
  unfold getUserRankFromPlaceholder. rewrite Hi. fold data' in Hnth. rewrite Hnth.
  rewrite (setRank_same _ _ Hrank).
  eexists _, _, _. split; [reflexivity|].
  split; [lia|]. split; [now replace (Z.to_nat (Z.of_nat i + 1 - 1)) with i by lia|].
  split; [exact Huid|]. split; [exact Hrank|]. split; [|now repeat split].
  intros other r Ho Hoid Hor. apply In_nth_error in Ho as [j Hj].
  rewrite (updated_ranks _ _ _ _ _ _ Hj) in Hor. injection Hor as <-.
  destruct (Nat.lt_ge_cases j i) as [Hji|Hij]; [|lia].
  now destruct (Hfirst j other Hji Hj).
Qed.

(** A user that the dataset does not hold is not found. *)
Lemma getUserRank_unknown userId data :
  (forall user, In user data -> User.id user <> userId) ->
  getUserRankFromPlaceholder userId data = RankResult.NotFound.
Proof.
  intros H. unfold getUserRankFromPlaceholder.
  destruct (findIndex userId data) as [i|] eqn:E; [|reflexivity].
  destruct (findIndex_first _ _ _ E) as (user & Hn & Hid & _).
  now destruct (H user (nth_error_In _ _ Hn)).
Qed.


(** *** [simulateLeaderboardChanges] *)

Lemma assign_nth_length {A} (array : list A) i x :
  List.length (Utils.assign array i x) = List.length array.
Proof. revert i. induction array; intros [|i]; simpl; auto. Qed.

Lemma assign_ids data i user user' :
  nth_error data i = Some user -> User.id user' = User.id user ->
  map User.id (Utils.assign data i user') = map User.id data.
Proof.
  revert i. induction data as [|u rest IH]; intros [|i]; simpl; try discriminate.
  - intros H Hid. injection H as ->. now rewrite Hid.
  - intros H Hid. now rewrite (IH i H Hid).
Qed.

Lemma assign_sums data i user user' :
  nth_error data i = Some user ->
  sumTotalPoints (Utils.assign data i user')
  = sumTotalPoints data - User.totalPoints user + User.totalPoints user'
  /\ sumQuizzes (Utils.assign data i user')
     = sumQuizzes data - User.quizzesCompleted user + User.quizzesCompleted user'.
Proof.
  revert i. induction data as [|u rest IH]; intros [|i]; simpl; try discriminate.
  - intros H. injection H as ->. split; lia.
  - intros H. destruct (IH i H) as [-> ->]. split; lia.
Qed.

Lemma simulateLoop_spec random rounds : forall i data,
  data <> [] ->
  exists data',
    simulateLoop random i rounds data = Quiz.Returned data'
    /\ map User.id data' = map User.id data
    /\ sumQuizzes data' = sumQuizzes data + Z.of_nat rounds
    /\ 10 * Z.of_nat rounds <= sumTotalPoints data' - sumTotalPoints data
       <= 109 * Z.of_nat rounds.
Proof.
  induction rounds as [|rounds IH]; intros i data Hne.
  - exists data. simpl. repeat split; lia.
  - cbn [simulateLoop].
    set (randomIndex := Nat.modulo _ (List.length data)).
    assert (Hlt : (randomIndex < List.length data)%nat).
    { apply Nat.mod_upper_bound. destruct data; [congruence|discriminate]. }
    destruct (nth_error data randomIndex) as [user|] eqn:En;
      [|apply nth_error_None in En; lia].
    set (scoreChange := Z.of_nat (Nat.modulo _ 100) + 10).
    assert (Hc : 10 <= scoreChange <= 109).
    { unfold scoreChange.
      pose proof (Nat.mod_upper_bound (random (2 * i + 2)%nat) 100 ltac:(lia)). lia. }
    destruct (IH (S i) (Utils.assign data randomIndex (bump user scoreChange)))
      as (data' & Hrun & Hids & Hq & Hp).
    { intros E. apply (f_equal (@List.length _)) in E.
      rewrite assign_nth_length in E. destruct data; [congruence|discriminate]. }
    exists data'. split; [exact Hrun|].
    destruct (assign_sums data randomIndex user (bump user scoreChange) En) as [Hsp Hsq].
    rewrite Hids, Hq, Hsq. rewrite Hsp in Hp.
    cbn [bump User.totalPoints User.quizzesCompleted] in *.
    split; [now apply (assign_ids _ _ user)|]. split; lia.
Qed.

Lemma sums_Permutation data data' :
  Permutation data data' ->
  sumTotalPoints data = sumTotalPoints data' /\ sumQuizzes data = sumQuizzes data'.
Proof.
  induction 1 as [|u l l' _ [IH1 IH2]|u v l|l l' l'' _ [IH1 IH2] _ [IH3 IH4]]; simpl;
    split; lia.
Qed.

Lemma updateRanksFrom_fields index data :
  map User.id (updateRanksFrom index data) = map User.id data
  /\ sumTotalPoints (updateRanksFrom index data) = sumTotalPoints data
  /\ sumQuizzes (updateRanksFrom index data) = sumQuizzes data.
Proof.
  revert index. induction data as [|u rest IH]; intros index; simpl; [auto|].
  destruct (IH (index + 1)) as (-> & -> & ->). auto.
Qed.

(** X2.  On a dataset that is not empty, whose totals and counts are
    integers with room for three rounds, [simulateLeaderboardChanges] keeps
    the users (the same identifiers, in some order), leaves the list in
    descending order of points with every rank equal to the position counted
    from 1, adds between 1 and 3 completed quizzes in all, and adds between
    10 and 109 points for each of them; on an empty dataset it throws. *)
Theorem simulated_changes_keep_the_board_ranked random data :
  (data = [] -> simulateLeaderboardChanges random data = Quiz.Thrown)
  /\ (data <> [] -> Forall roomy data ->
      exists data',
        simulateLeaderboardChanges random data = Quiz.Returned data'
        /\ Permutation (map User.id data') (map User.id data)
        /\ descending data'
        /\ (forall i user, nth_error data' i = Some user ->
              User.rank user = Some (Z.of_nat i + 1))
        /\ 1 <= sumQuizzes data' - sumQuizzes data <= 3
        /\ 10 * (sumQuizzes data' - sumQuizzes data)
           <= sumTotalPoints data' - sumTotalPoints data
           <= 109 * (sumQuizzes data' - sumQuizzes data)).
Proof.
  split.
  - intros ->. unfold simulateLeaderboardChanges.
    rewrite Nat.add_1_r. cbn [simulateLoop]. now destruct (Nat.modulo _ _).
  - intros Hne _. unfold simulateLeaderboardChanges.
    set (rounds := (Nat.modulo (random 0%nat) 3 + 1)%nat).
    assert (Hr : (1 <= rounds <= 3)%nat).
    { unfold rounds. pose proof (Nat.mod_upper_bound (random 0%nat) 3 ltac:(lia)). lia. }
    destruct (simulateLoop_spec random rounds 0 data Hne) as (data1 & -> & Hids & Hq & Hp).
    eexists. split; [reflexivity|].
    destruct (updateRanksFrom_fields 0 (sortByPoints data1)) as (Eids & Ep & Eq).
    destruct (sums_Permutation _ _ (sortByPoints_Permutation data1)) as [Sp Sq].
    unfold updateRanks. rewrite Eids, Ep, Eq, Sp, Sq, <- Hids.
    split; [apply Permutation_map, sortByPoints_Permutation|].
    split; [apply updateRanks_sort_descending|].
    split; [|lia].
    intros i user. rewrite updateRanksFrom_nth.
    destruct (nth_error _ i); simpl; [|discriminate].
    intros H. injection H as <-. reflexivity.
Qed.

(** The local dataset. *)
Lemma simulated_changes_keep_the_board_ranked_witness :
  exists data',
    simulateLeaderboardChanges (fun i => (7 * i + 4)%nat) placeholderData
      = Quiz.Returned data'
    /\ Permutation (map User.id data') (map User.id placeholderData)
    /\ descending data'
    /\ (forall i user, nth_error data' i = Some user ->
          User.rank user = Some (Z.of_nat i + 1))
    /\ 1 <= sumQuizzes data' - sumQuizzes placeholderData <= 3
    /\ 10 * (sumQuizzes data' - sumQuizzes placeholderData)
       <= sumTotalPoints data' - sumTotalPoints placeholderData
       <= 109 * (sumQuizzes data' - sumQuizzes placeholderData).
Proof.
  apply (proj2 (simulated_changes_keep_the_board_ranked
                  (fun i => (7 * i + 4)%nat) placeholderData)).
  - discriminate.
  - unfold placeholderData, roomy.
    repeat (apply Forall_cons; [simpl; lia|]). apply Forall_nil.
Defined.

(** *** [getStatistics] *)

Lemma maxOf_spec others : forall first,
  (maxOf first others = first \/ In (maxOf first others) others)
  /\ first <= maxOf first others
  /\ Forall (fun x => x <= maxOf first others) others.
Proof.
  unfold maxOf. induction others as [|x rest IH]; intros first; simpl.
  - split; [now left|]. split; [lia|constructor].
  - destruct (IH (Z.max first x)) as (Hin & Hle & Hall).
    split; [|split; [lia|constructor; [lia|exact Hall]]].
    destruct Hin as [Heq|Hin]; [|now right; right].
    rewrite Heq. destruct (Z.max_spec first x) as [[_ ->]|[_ ->]]; [right|]; now left.
Qed.







(** *** [searchUsers] *)


(** *** Subscribers *)

(** X5.  After a callback has subscribed and the function returned to it has
    been called, every callback is registered as often as before, and when
    the callback had not been registered the list of subscribers is as it
    was; calling the function when the callback is not registered changes
    nothing. *)
Theorem unsubscribe_undoes_subscribe callback subscribers :
  (forall other,
     count_occ Nat.eq_dec (unsubscribe callback (subscribeToUpdates callback subscribers))
               other
     = count_occ Nat.eq_dec subscribers other)
  /\ (~ In callback subscribers ->
      unsubscribe callback (subscribeToUpdates callback subscribers) = subscribers
      /\ unsubscribe callback subscribers = subscribers).
Proof.
  unfold subscribeToUpdates, push. split.
  - intros other. induction subscribers as [|c rest IH]; cbn [app unsubscribe].
    + rewrite Nat.eqb_refl. reflexivity.
    + destruct (Nat.eqb_spec c callback) as [->|Hne].
      * rewrite count_occ_app. cbn [count_occ].
        destruct (Nat.eq_dec callback other); lia.
      * cbn [count_occ]. rewrite IH. reflexivity.
  - intros Hnot. induction subscribers as [|c rest IH]; cbn [app unsubscribe].
    + rewrite Nat.eqb_refl. now split.
    + destruct (Nat.eqb_spec c callback) as [->|Hne]; [destruct Hnot; now left|].
      destruct IH as [-> ->]; [intros H; apply Hnot; now right|]. now split.
Qed.


(** *** The entry that [updatePlaceholderUserScore] writes *)

Lemma Math_round_div a b :
  0 <= a < 2 ^ 52 -> 0 < b < 2 ^ 53 ->
  JS.Math_round (JS.div (JS.of_Z a) (JS.of_Z b)) = JS.of_Z ((2 * a + b) / (2 * b)).
Proof.
  intros Ha Hb. rewrite <- (JSDiv.round_div a b Ha Hb).
  destruct (Z.eq_dec a 0) as [->|Hnz].
  - now rewrite JSDiv.div_zero_l.
  - destruct (JSDiv.div_of_Z a b) as (M & E & J & c & -> & _);
      [change (2 ^ 53) with (2 * 2 ^ 52); lia|assumption|reflexivity].
Qed.

Lemma ranked_entry (data : list User.t) entry :
  In entry data ->
  exists rank, In (setRank entry rank) (updateRanks (sortByPoints data)).
Proof.
  intros Hin.
  apply (Permutation_in _ (Permutation_sym (sortByPoints_Permutation data))) in Hin.
  apply In_nth_error in Hin as [i Hi].
  exists (Z.of_nat i + 1). apply nth_error_In with (n := i).
  unfold updateRanks. rewrite updateRanksFrom_nth, Hi. reflexivity.
Qed.

(** X6.  [updatePlaceholderUserScore] adds the score to the first entry of
    the user, counts one more quiz and, for totals from 0 up to 2^52,
    stores as the average the total divided by the number of quizzes,
    rounded to the nearest integer (a half going up); the dataset keeps its
    length.  For an unknown user it adds one entry, with the score as
    total and as average, one quiz, and a name made of the last four
    characters of the identifier.  The total and the score are integers
    that numbers hold exactly. *)
Theorem update_adds_the_score_and_averages today userId newScore data :
  let data' := updatePlaceholderUserScore today userId newScore data in
  match find (hasId userId) data with
  | Some old =>
      List.length data' = List.length data
      /\ (exact (User.totalPoints old) -> exact newScore ->
          0 <= User.totalPoints old + newScore < 2 ^ 52 ->
          0 <= User.quizzesCompleted old < 2 ^ 53 - 1 ->
          exists entry,
            In entry data'
            /\ User.id entry = userId
            /\ User.username entry = User.username old
            /\ User.totalPoints entry = User.totalPoints old + newScore
            /\ User.quizzesCompleted entry = User.quizzesCompleted old + 1
            /\ User.averageScore entry
               = JS.of_Z ((2 * User.totalPoints entry + User.quizzesCompleted entry)
                          / (2 * User.quizzesCompleted entry)))
  | None =>
      List.length data' = S (List.length data)
      /\ (exact newScore ->
          exists entry,
           In entry data'
           /\ User.id entry = userId
           /\ User.username entry = "User" ++ Utils.sliceLast 4 userId
           /\ User.totalPoints entry = newScore
           /\ User.quizzesCompleted entry = 1
           /\ User.averageScore entry = JS.of_Z newScore)
  end.
Proof.
  intros data'. unfold data', updatePlaceholderUserScore.
  assert (Hlen : forall l : list User.t,
            List.length (updateRanks (sortByPoints l)) = List.length l).
  { intros l. unfold updateRanks. rewrite updateRanksFrom_length.
    apply Permutation_length, sortByPoints_Permutation. }
  destruct (findIndex userId data) as [userIndex|] eqn:Hfind.
  - destruct (findIndex_Some _ _ _ Hfind) as (old & Hnth & ->).
    rewrite Hnth. split.
    + rewrite Hlen. apply assign_length.
    + intros _ _ Htotal Hcount.
      destruct (ranked_entry (Utils.assign data userIndex (addScore old newScore))
                  (addScore old newScore)) as [rank Hin].
      { eapply assign_In; eassumption. }
      exists (setRank (addScore old newScore) rank).
      split; [exact Hin|].
      destruct (findIndex_first _ _ _ Hfind) as (old' & Hnth' & Hid & _).
      assert (old' = old) by congruence. subst old'.
      cbn [setRank addScore User.id User.username User.totalPoints
           User.quizzesCompleted User.averageScore].
      repeat (split; [reflexivity || assumption|]).
      apply Math_round_div; lia.
  - rewrite (findIndex_None _ _ Hfind). split.
    + rewrite Hlen. unfold push. rewrite length_app. simpl. lia.
    + intros _.
      match goal with
      | |- context [push data ?u] =>
          destruct (ranked_entry (push data u) u) as [rank Hin];
            [unfold push; apply in_or_app; right; now left|];
          exists (setRank u rank)
      end.
      split; [exact Hin|]. repeat split.
Qed.

End BoardFacts.

(** ** Security manager *)

Module PatternFacts.
Import Pattern.

Lemma whole_plus cls s :
  whole [Plus cls] s = true <-> s <> EmptyString /\ allIn cls s.
Proof.
  unfold allIn. induction s as [|c rest IH]; cbn [whole].
  - split; [discriminate|]. intros [H _]. now destruct H.
  - rewrite andb_true_iff, orb_true_iff, IH. split.
    + intros [Hc Hrest]. split; [discriminate|]. intros x [<-|Hx]; [exact Hc|].
      destruct Hrest as [Hnil|[_ Hall]]; [|now apply Hall].
      destruct rest; [contradiction|discriminate].
    + intros [_ Hall]. split; [apply Hall; now left|].
      destruct rest as [|d rest']; [now left|right].
      split; [discriminate|]. intros x Hx. apply Hall. now right.
Qed.

Lemma any_exists cls s :
  any cls s = true <-> exists c, In c (list_ascii_of_string s) /\ cls c = true.
Proof.
  induction s as [|c rest IH]; simpl.
  - split; [discriminate|]. intros (c & [] & _).
  - rewrite orb_true_iff, IH. split.
    + intros [H|(x & Hx & Hc)]; [exists c; split; [now left|exact H]|].
      exists x. split; [now right|exact Hc].
    + intros (x & [<-|Hx] & Hc); [now left|]. right. now exists x.
Qed.

(** A run that matches somewhere starts at some character of the string. *)
Lemma test_first cls p s :
  test (cls :: p) s = true -> exists c, In c (list_ascii_of_string s) /\ cls c = true.
Proof.
  induction s as [|c rest IH]; cbn [test matchHere]; [discriminate|].
  rewrite orb_true_iff, andb_true_iff. intros [[Hc _]|H].
  - exists c. split; [now left|exact Hc].
  - destruct (IH H) as (x & Hx & Hcx). exists x. split; [now right|exact Hcx].
Qed.

End PatternFacts.

Module SecurityFacts.
Import Pattern PatternFacts Security.

(** *** [validateUsername] *)

Lemma word_not_suspicious c :
  isWord c = true ->
  isChar "." c = false /\ oneOf "<>" c = false /\ isChar "$" c = false
  /\ isChar "%" c = false /\ isChar "\" c = false.
Proof.
  destruct c as [b0 b1 b2 b3 b4 b5 b6 b7].
  destruct b0, b1, b2, b3, b4, b5, b6, b7; vm_compute; intros H;
    try discriminate; repeat split.
Qed.

Lemma words_not_suspicious s :
  allIn isWord s -> containsSuspiciousPatterns s = false.
Proof.
  intros Hall. unfold containsSuspiciousPatterns. cbn [existsb].
  repeat match goal with
  | |- context [test (?cls :: ?p) s] =>
      let E := fresh "E" in
      destruct (test (cls :: p) s) eqn:E;
        [apply test_first in E as (c & Hin & Hc);
         pose proof (word_not_suspicious c (Hall c Hin)) as (H1 & H2 & H3 & H4 & H5);
         congruence|]
  end.
  reflexivity.
Qed.

Lemma validateUsername_isValid username :
  let name := Text.trim username in
  Validation.isValid (validateUsername username)
  = negb (String.length name <? 3)%nat && negb (20 <? String.length name)%nat
    && whole [Plus isWord] name
    && negb (existsb (String.eqb (Text.toLowerCase name))
               ["admin"; "root"; "user"; "test"; "null"; "undefined"; "system"])
    && negb (containsSuspiciousPatterns name).
Proof.
  intros name. unfold validateUsername. fold name. cbv zeta.
  destruct (String.length name <? 3)%nat, (20 <? String.length name)%nat,
    (whole [Plus isWord] name), (existsb _ _), (containsSuspiciousPatterns name);
    reflexivity.
Qed.

(** X7.  [validateUsername] accepts a name exactly when, once trimmed, it has
    3 to 20 characters, all of them letters, digits or underscores, and is
    not one of the reserved words in any letter case; the test for
    suspicious patterns never turns down a name that passes these. *)
Theorem username_is_valid_iff username :
  let name := Text.trim username in
  Validation.sanitized (validateUsername username) = name
  /\ (Validation.isValid (validateUsername username) = true
      <-> (3 <= String.length name <= 20)%nat
          /\ allIn isWord name
          /\ ~ In (Text.toLowerCase name)
                  ["admin"; "root"; "user"; "test"; "null"; "undefined"; "system"]).
Proof.
  intros name. split; [reflexivity|].
  rewrite validateUsername_isValid. fold name.
  rewrite !andb_true_iff, !negb_true_iff, Nat.ltb_ge, Nat.ltb_ge, whole_plus.
  split.
  - intros ((((H3 & H20) & (_ & Hall)) & Hres) & _).
    split; [lia|]. split; [exact Hall|].
    intros Hin. assert (existsb (String.eqb (Text.toLowerCase name))
                          ["admin"; "root"; "user"; "test"; "null"; "undefined"; "system"]
                        = true); [|congruence].
    apply existsb_exists. eexists. split; [exact Hin|apply String.eqb_refl].
  - intros (Hlen & Hall & Hres).
    split; [split; [split; [split; [lia|lia]|]|]|].
    + split; [|exact Hall]. intros E. rewrite E in Hlen. simpl in Hlen. lia.
    + destruct (existsb _ _) eqn:Hr; [|reflexivity].
      apply existsb_exists in Hr as (w & Hw & He). apply String.eqb_eq in He.
      destruct Hres. rewrite He. exact Hw.
    + now apply words_not_suspicious.
Qed.


(** *** The maps *)

Lemma get_set_same {V} (m : StringMap.t V) key value :
  StringMap.get (StringMap.set m key value) key = Some value.
Proof.
  induction m as [|[k v] rest IH]; simpl.
  - now rewrite String.eqb_refl.
  - destruct (String.eqb k key) eqn:E; simpl; rewrite E; [reflexivity|exact IH].
Qed.


Lemma get_delete_same {V} (m : StringMap.t V) key :
  StringMap.get (StringMap.delete m key) key = None.
Proof.
  unfold StringMap.delete. induction m as [|[k v] rest IH]; simpl; [reflexivity|].
  destruct (String.eqb k key) eqn:E; simpl; [exact IH|]. now rewrite E.
Qed.

(** *** [checkRateLimit] *)






(** *** [trackLoginAttempt] *)

Lemma loginAnswers_counted identifier times : forall loginAttempts count previous,
  StringMap.get loginAttempts identifier = Some (Attempts.mk count previous) ->
  closeTogether lockoutDuration previous times ->
  loginAnswers identifier times loginAttempts
  = map (fun i => count + Z.of_nat i <? maxLoginAttempts) (seq 0 (List.length times)).
Proof.
  induction times as [|now rest IH]; intros loginAttempts count previous Hget Hclose;
    [reflexivity|].
  destruct Hclose as [Hnow Hrest].
  cbn [loginAnswers]. unfold trackLoginAttempt. rewrite Hget. cbn [Attempts.lastAttempt
    Attempts.count].
  destruct (Z.ltb_spec lockoutDuration (now - previous)) as [Hlong|_]; [lia|].
  cbn [List.length seq map].
  replace (count + Z.of_nat 0 <? maxLoginAttempts) with (negb (maxLoginAttempts <? count + 1))
    by (unfold maxLoginAttempts; destruct (Z.ltb_spec (count + 0) 5), (Z.ltb_spec 5 (count + 1));
        simpl; lia || reflexivity).
  assert (Hnext : loginAnswers identifier rest
                    (StringMap.set loginAttempts identifier (Attempts.mk (count + 1) now))
                  = map (fun i => count + Z.of_nat i <? maxLoginAttempts)
                        (seq 1 (List.length rest))).
  { rewrite (IH _ (count + 1) now (get_set_same _ _ _) Hrest).
    rewrite <- seq_shift, map_map. apply map_ext. intros i. f_equal. lia. }
  destruct (maxLoginAttempts <? count + 1); cbn [negb]; now rewrite Hnext.
Qed.

(** X9.  Of the login attempts made for an identifier without an entry, each
    no more than the lockout duration after the one before, the first five
    are allowed and every later one is refused; an attempt made more than
    the lockout duration after the last one is allowed whatever came
    before, and so is the first attempt after [resetLoginAttempts]. *)
Theorem login_attempts_lock_out identifier :
  (forall loginAttempts first later,
     StringMap.get loginAttempts identifier = None ->
     closeTogether lockoutDuration first later ->
     loginAnswers identifier (first :: later) loginAttempts
     = map (fun i => (i <? 5)%nat) (seq 0 (S (List.length later))))
  /\ (forall loginAttempts entry now,
        StringMap.get loginAttempts identifier = Some entry ->
        lockoutDuration < now - Attempts.lastAttempt entry ->
        snd (trackLoginAttempt now identifier loginAttempts) = true)
  /\ (forall loginAttempts now,
        snd (trackLoginAttempt now identifier (resetLoginAttempts identifier loginAttempts))
        = true).
Proof.
  split; [|split].
  - intros loginAttempts first later Hfresh Hclose.
    cbn [loginAnswers]. unfold trackLoginAttempt at 1. rewrite Hfresh.
    cbn [Attempts.lastAttempt Attempts.count].
    assert (Hone : (if lockoutDuration <? first - 0 then 0 else 0) + 1 = 1)
      by (destruct (_ <? _); reflexivity).
    rewrite Hone. cbn [seq map]. change (maxLoginAttempts <? 1) with false. cbv iota.
    f_equal.
    rewrite (loginAnswers_counted identifier later _ 1 first (get_set_same _ _ _) Hclose).
    rewrite <- seq_shift, map_map. apply map_ext. intros i. unfold maxLoginAttempts.
    destruct (Z.ltb_spec (1 + Z.of_nat i) 5), (Nat.ltb_spec (S i) 5); lia || reflexivity.
  - intros loginAttempts entry now Hget Hlong. unfold trackLoginAttempt. rewrite Hget.
    destruct (Z.ltb_spec lockoutDuration (now - Attempts.lastAttempt entry)); [|lia].
    reflexivity.
  - intros loginAttempts now. unfold trackLoginAttempt, resetLoginAttempts.
    rewrite get_delete_same. cbn [Attempts.lastAttempt Attempts.count].
    destruct (lockoutDuration <? now - 0); reflexivity.
Qed.


(** *** [sanitizeString] *)

Lemma take_length n s : (String.length (take n s) <= n)%nat.
Proof.
  revert s. induction n as [|n IH]; intros [|c rest]; simpl; try lia.
  specialize (IH rest). lia.
Qed.

Lemma take_split n s : exists dropped, s = take n s ++ dropped.
Proof.
  revert s. induction n as [|n IH]; intros [|c rest]; simpl;
    try (eexists; reflexivity).
  destruct (IH rest) as [dropped H]. exists dropped. now rewrite <- H.
Qed.

Lemma append_assoc (a b c : string) : (a ++ b) ++ c = a ++ (b ++ c).
Proof. induction a as [|x a IH]; simpl; [reflexivity|now rewrite IH]. Qed.

Lemma chars_app a b c :
  In c (list_ascii_of_string (a ++ b))
  <-> In c (list_ascii_of_string a) \/ In c (list_ascii_of_string b).
Proof.
  induction a as [|x a IH]; simpl; [tauto|]. rewrite IH. tauto.
Qed.

Lemma remove_chars cls s c :
  In c (list_ascii_of_string (remove cls s)) ->
  cls c = false /\ In c (list_ascii_of_string s).
Proof.
  induction s as [|x rest IH]; simpl; [contradiction|].
  destruct (cls x) eqn:E; simpl.
  - intros H. destruct (IH H). auto.
  - intros [<-|H]; [auto|]. destruct (IH H). auto.
Qed.

Lemma collapse_chars inRun s c :
  In c (list_ascii_of_string (collapseFrom inRun s)) ->
  c = " "%char \/ (Text.isWhiteSpace c = false /\ In c (list_ascii_of_string s)).
Proof.
  revert inRun. induction s as [|x rest IH]; intros inRun; simpl; [contradiction|].
  destruct (Text.isWhiteSpace x) eqn:E.
  - destruct inRun; simpl; intros H.
    + destruct (IH _ H) as [|[? ?]]; auto.
    + destruct H as [<-|H]; [auto|]. destruct (IH _ H) as [|[? ?]]; auto.
  - simpl. intros [<-|H]; [auto|]. destruct (IH _ H) as [|[? ?]]; auto.
Qed.

(** No white space follows white space in a collapsed string, and none
    stands first in what follows a replaced run. *)
Lemma collapse_adjacent s : forall inRun pre a b post,
  collapseFrom inRun s = pre ++ String a (String b post) ->
  Text.isWhiteSpace a = true -> Text.isWhiteSpace b = false.
Proof.
  assert (Hfirst : forall t a rest,
            collapseFrom true t = String a rest -> Text.isWhiteSpace a = false).
  { induction t as [|x t IH]; intros a rest; simpl; [discriminate|].
    destruct (Text.isWhiteSpace x) eqn:E; [apply IH|].
    intros H. now injection H as <- _. }
  induction s as [|x s IH]; intros inRun pre a b post; simpl.
  - destruct pre; discriminate.
  - destruct (Text.isWhiteSpace x) eqn:E.
    + destruct inRun; [apply IH|].
      destruct pre as [|p pre]; simpl; intros H.
      * injection H as <- H. intros _. exact (Hfirst _ _ _ H).
      * injection H as _ H. exact (IH _ _ _ _ _ H).
    + destruct pre as [|p pre]; simpl; intros H.
      * injection H as <- _. congruence.
      * injection H as _ H. exact (IH _ _ _ _ _ H).
Qed.

(** X10.  The string that [sanitizeString] returns has at most 1000
    characters, none of them a control character; its white space is made
    of single spaces, no two in a row; and apart from these spaces every
    character comes from the input. *)
Theorem sanitized_strings_are_clean input :
  let out := sanitizeString input in
  (String.length out <= 1000)%nat
  /\ (forall c, In c (list_ascii_of_string out) ->
        isControl c = false
        /\ (Text.isWhiteSpace c = true -> c = " "%char)
        /\ (c = " "%char \/ In c (list_ascii_of_string input)))
  /\ (forall pre a b post,
        out = pre ++ String a (String b post) ->
        Text.isWhiteSpace a = true -> Text.isWhiteSpace b = false).
Proof.
  intros out. unfold sanitizeString in out.
  set (trimmed := Text.trim input) in *.
  set (collapsed := collapseFrom false (remove isControl trimmed)) in *.
  destruct (take_split 1000 collapsed) as [dropped Hsplit]. fold out in Hsplit.
  split; [apply take_length|]. split.
  - intros c Hc.
    assert (Hin : In c (list_ascii_of_string collapsed))
      by (rewrite Hsplit; apply chars_app; now left).
    apply collapse_chars in Hin as [->|[Hws Hin]].
    + repeat split; auto.
    + apply remove_chars in Hin as [Hctl Hin].
      split; [exact Hctl|]. split; [congruence|]. right.
      (* a character of the trimmed string is one of the input *)
      clear -Hin. unfold trimmed, Text.trim in Hin.
      assert (Hend : forall s x, In x (list_ascii_of_string (Text.trimEnd s)) ->
                       In x (list_ascii_of_string s)).
      { induction s as [|y s IH]; intros x; cbn [Text.trimEnd]; [auto|].
        destruct (Text.trimEnd s) eqn:E.
        - destruct (Text.isWhiteSpace y); simpl; [contradiction|]. intros [<-|[]]. now left.
        - simpl. intros [<-|H]; [now left|]. right. apply IH. exact H. }
      assert (Hstart : forall s x, In x (list_ascii_of_string (Text.trimStart s)) ->
                         In x (list_ascii_of_string s)).
      { induction s as [|y s IH]; intros x; simpl; [auto|].
        destruct (Text.isWhiteSpace y); [intros H; right; now apply IH|auto]. }
      now apply Hstart, Hend.
  - intros pre a b post Hout.
    apply (collapse_adjacent (remove isControl trimmed) false pre a b (post ++ dropped)).
    fold collapsed. rewrite Hsplit, Hout.
    rewrite append_assoc. reflexivity.
Qed.

(** *** [validatePassword] *)

Lemma lower_special c : isSpecial (Text.lower c) = isSpecial c.
Proof.
  destruct c as [b0 b1 b2 b3 b4 b5 b6 b7].
  destruct b0, b1, b2, b3, b4, b5, b6, b7; reflexivity.
Qed.

Lemma toLowerCase_special s : any isSpecial (Text.toLowerCase s) = any isSpecial s.
Proof.
  unfold Text.toLowerCase. induction s as [|c rest IH]; simpl; [reflexivity|].
  now rewrite lower_special, IH.
Qed.

Lemma validatePassword_isValid password :
  Validation.isValid (validatePassword password)
  = negb (String.length password <? 8)%nat
    && any isLower password && any isUpper password && any isDigit password
    && any isSpecial password
    && negb (existsb (String.eqb (Text.toLowerCase password))
               ["password"; "123456"; "qwerty"; "admin"; "letmein"]).
Proof.
  unfold validatePassword, passwordMinLength.
  destruct (String.length password <? 8)%nat, (any isLower password),
    (any isUpper password), (any isDigit password), (any isSpecial password);
    cbv beta iota zeta delta [negb andb];
    destruct (existsb _ _); reflexivity.
Qed.

(** A password on the list of weak ones, in any letter case, has no special
    character. *)
Lemma weak_password_not_special password :
  existsb (String.eqb (Text.toLowerCase password))
    ["password"; "123456"; "qwerty"; "admin"; "letmein"] = true ->
  any isSpecial password = false.
Proof.
  intros H. apply existsb_exists in H as (w & Hw & He). apply String.eqb_eq in He.
  rewrite <- toLowerCase_special, He.
  repeat (destruct Hw as [<-|Hw]; [reflexivity|]). contradiction.
Qed.

(** X11.  [validatePassword] accepts a password exactly when it has at least
    8 characters and holds a lowercase letter, an uppercase letter, a digit
    and one of the special characters; the list of weak passwords never
    turns down a password that passes these. *)
Theorem password_is_valid_iff password :
  Validation.isValid (validatePassword password) = true
  <-> (8 <= String.length password)%nat
      /\ any isLower password = true /\ any isUpper password = true
      /\ any isDigit password = true /\ any isSpecial password = true.
Proof.
  rewrite validatePassword_isValid.
  rewrite !andb_true_iff, !negb_true_iff, Nat.ltb_ge. split.
  - intros (((((H8 & Hl) & Hu) & Hd) & Hs) & _). auto.
  - intros (H8 & Hl & Hu & Hd & Hs). repeat split; try assumption.
    destruct (existsb _ _) eqn:Hw; [|reflexivity].
    apply weak_password_not_special in Hw. congruence.
Qed.

End SecurityFacts.

(** ** Utils: the other helpers *)

Module HelpersFacts.
Import Pattern PatternFacts Helpers UtilsFacts.

(** *** [shuffleArray] and [getRandomItems] *)

(** X12.  Whatever [Math.random] returns, [shuffleArray] returns a
    rearrangement of the array: the same elements, each as often as
    before. *)
Theorem shuffled_array_is_a_rearrangement {A : Type} (random : nat -> nat)
    (array : list A) :
  Permutation (Utils.shuffleArray random array) array
  /\ List.length (Utils.shuffleArray random array) = List.length array
  /\ (forall x, In x (Utils.shuffleArray random array) <-> In x array).
Proof.
  pose proof (shuffleArray_Permutation random array) as Hp.
  split; [exact Hp|].
  split; [now apply Permutation_length|].
  intros x. split; apply Permutation_in; [exact Hp|now apply Permutation_sym].
Qed.

(** X13.  [getRandomItems] returns the first items of a rearrangement of the
    array, so no item is taken more often than the array holds it:
    [min(count, length)] of them for a count that is not negative, and all
    but the last [-count] of them for a negative count. *)
Theorem random_items_come_from_the_array {A : Type} (random : nat -> nat)
    (array : list A) (count : Z) :
  let items := getRandomItems random array count in
  let size := Z.of_nat (List.length array) in
  Z.of_nat (List.length items)
  = (if count <? 0 then Z.max 0 (size + count) else Z.min count size)
  /\ exists others, Permutation (items ++ others) array.
Proof.
  intros items size. unfold getRandomItems, Utils.slice0 in items.
  pose proof (shuffleArray_Permutation random array) as Hp.
  pose proof (Permutation_length Hp) as Hlen.
  set (shuffled := Utils.shuffleArray random array) in *.
  fold size in items.
  split.
  - unfold items. rewrite length_firstn, Hlen. fold size.
    destruct (Z.ltb_spec (Z.min count size) 0), (Z.ltb_spec count 0); lia.
  - eexists (skipn _ shuffled). unfold items. rewrite firstn_skipn. exact Hp.
Qed.

(** *** [validatePassword] *)

Lemma validatePassword_fields password :
  let checks :=
    [ negb (String.length password <? 8)%nat; any isLower password;
      any isUpper password; any isDigit password; any Security.isSpecial password ] in
  let result := validatePassword password in
  Strength.score result = Z.of_nat (List.length (filter (fun b => b) checks))
  /\ List.length (Strength.feedback result)
     = List.length (filter negb checks)
  /\ Strength.strength result
     = (if Strength.score result <=? 2 then "weak"
        else if Strength.score result <=? 3 then "fair"
        else if Strength.score result <=? 4 then "good" else "strong").
Proof.
  unfold validatePassword.
  destruct (String.length password <? 8)%nat, (any isLower password),
    (any isUpper password), (any isDigit password), (any Security.isSpecial password);
    repeat split.
Qed.



(** *** [isValidEmail] *)

Lemma whole_nil s : whole [] s = true <-> s = EmptyString.
Proof. destruct s; simpl; split; congruence. Qed.

Lemma whole_One cls pieces s :
  whole (One cls :: pieces) s = true
  <-> exists c rest, s = String c rest /\ cls c = true /\ whole pieces rest = true.
Proof.
  destruct s as [|c rest]; cbn [whole].
  - split; [discriminate|]. intros (c & rest & H & _). discriminate.
  - rewrite andb_true_iff. split.
    + intros [Hc Hrest]. now exists c, rest.
    + intros (c' & rest' & H & Hc & Hrest). injection H as -> ->. now split.
Qed.

Lemma whole_Plus cls pieces s :
  whole (Plus cls :: pieces) s = true
  <-> exists taken rest,
        s = taken ++ rest /\ taken <> EmptyString /\ allIn cls taken
        /\ whole pieces rest = true.
Proof.
  unfold allIn. induction s as [|c s IH]; cbn [whole].
  - split; [discriminate|]. intros (taken & rest & H & Hne & _).
    destruct taken; [now destruct Hne|discriminate].
  - rewrite andb_true_iff, orb_true_iff, IH. split.
    + intros [Hc [Hrest|(taken & rest & -> & Hne & Hall & Hrest)]].
      * exists (String c EmptyString), s. repeat split; try assumption; [discriminate|].
        intros x [<-|[]]. exact Hc.
      * exists (String c taken), rest. repeat split; try assumption; [discriminate|].
        intros x [<-|Hx]; [exact Hc|now apply Hall].
    + intros (taken & rest & H & Hne & Hall & Hrest).
      destruct taken as [|t taken]; [now destruct Hne|]. injection H as -> ->.
      split; [apply Hall; now left|].
      destruct taken as [|t' taken]; [now left|right].
      exists (String t' taken), rest. repeat split; try assumption; [discriminate|].
      intros x Hx. apply Hall. now right.
Qed.

(** X15.  [isValidEmail] accepts exactly the strings made of a local part,
    the sign [@], and a domain with a dot in it that has something on both
    sides, where no part is empty and none holds white space or another
    [@]. *)
Theorem valid_emails_have_one_at_and_a_dotted_domain email :
  let plain := fun c => negb (Text.isWhiteSpace c || isChar "@" c) in
  isValidEmail email = true
  <-> exists localPart domain ending,
        email = localPart ++ "@" ++ domain ++ "." ++ ending
        /\ localPart <> EmptyString /\ domain <> EmptyString /\ ending <> EmptyString
        /\ allIn plain localPart /\ allIn plain domain /\ allIn plain ending.
Proof.
  intros plain. unfold isValidEmail. fold plain. rewrite whole_Plus. split.
  - intros (localPart & rest & -> & Hl & Hlall & Hrest).
    apply whole_One in Hrest as (c & rest1 & -> & Hc & Hrest).
    apply Ascii.eqb_eq in Hc as <-.
    apply whole_Plus in Hrest as (domain & rest2 & -> & Hd & Hdall & Hrest).
    apply whole_One in Hrest as (c & rest3 & -> & Hc & Hrest).
    apply Ascii.eqb_eq in Hc as <-.
    apply whole_plus in Hrest as [He Heall].
    exists localPart, domain, rest3. repeat split; assumption.
  - intros (localPart & domain & ending & -> & Hl & Hd & He & Hlall & Hdall & Heall).
    exists localPart, ("@" ++ domain ++ "." ++ ending).
    repeat split; try assumption.
    apply whole_One. exists "@"%char, (domain ++ "." ++ ending).
    repeat split. apply whole_Plus. exists domain, ("." ++ ending).
    repeat split; try assumption.
    apply whole_One. exists "."%char, ending. repeat split.
    apply whole_plus. now split.
Qed.

(** *** [generateUUID] *)

Lemma hexDigit_lower n : isLowerHex (hexDigit (Nat.modulo n 16)) = true.
Proof.
  pose proof (Nat.mod_upper_bound n 16 ltac:(lia)) as H.
  destruct (Nat.modulo n 16) as [|m]; [reflexivity|].
  do 15 (destruct m as [|m]; [reflexivity|]). lia.
Qed.

Lemma hexDigit_variant n :
  oneOf "89ab" (hexDigit (Nat.lor (Nat.land (Nat.modulo n 16) 3) 8)) = true.
Proof.
  pose proof (Nat.mod_upper_bound n 16 ltac:(lia)) as H.
  destruct (Nat.modulo n 16) as [|m]; [reflexivity|].
  do 15 (destruct m as [|m]; [reflexivity|]). lia.
Qed.

(** X16.  Whatever [Math.random] returns, [generateUUID] returns a string of
    36 characters in the form of a version-4 identifier. *)
Theorem generated_identifiers_are_version_4 random :
  String.length (generateUUID random) = 36%nat
  /\ isUUIDv4 (generateUUID random) = true.
Proof.
  unfold generateUUID, isUUIDv4.
  cbn -[hexDigit Nat.modulo Nat.lor Nat.land isLowerHex oneOf].
  split; [reflexivity|].
  rewrite !hexDigit_lower, !hexDigit_variant. reflexivity.
Qed.


(** *** [formatNumber] *)

Lemma uint_digits d : allIn isDigit (NilEmpty.string_of_uint d).
Proof.
  unfold allIn. induction d; simpl; try contradiction;
    intros c [<-|Hc]; try reflexivity; now apply IHd.
Qed.

Lemma string_of_Z_digits num :
  0 <= num -> string_of_Z num <> EmptyString /\ allIn isDigit (string_of_Z num).
Proof.
  intros Hnum. unfold string_of_Z.
  destruct num as [|p|p]; [| |lia]; cbn [Z.to_int NilZero.string_of_int].
  - split; [discriminate|]. intros c [<-|[]]. reflexivity.
  - unfold NilZero.string_of_uint.
    destruct (Pos.to_uint p) eqn:E;
      try (split; [simpl; discriminate|rewrite <- E; apply uint_digits]).
    split; [discriminate|]. intros c [<-|[]]. reflexivity.
Qed.

Lemma digitRun_digits s : allIn isDigit s -> digitRun s = String.length s.
Proof.
  unfold allIn. induction s as [|c rest IH]; simpl; [reflexivity|]. intros Hall.
  rewrite (Hall c (or_introl eq_refl)). f_equal. apply IH. intros x Hx. apply Hall. now right.
Qed.

Lemma length_append (a b : string) :
  String.length (a ++ b) = (String.length a + String.length b)%nat.
Proof. induction a as [|x a IH]; simpl; [reflexivity|now rewrite IH]. Qed.

Lemma digit_is_word c : isDigit c = true -> isWord c = true.
Proof. unfold isWord. intros ->. now rewrite !orb_true_r. Qed.

Lemma digit_not_comma c : isDigit c = true -> isChar "," c = false.
Proof.
  destruct c as [b0 b1 b2 b3 b4 b5 b6 b7].
  destruct b0, b1, b2, b3, b4, b5, b6, b7; vm_compute; congruence.
Qed.

(** The groups of the digits that follow a digit or a letter: the first
    goes on with the group under way, the others have three digits. *)
Lemma insertCommas_groups s : forall current before,
  allIn isDigit s -> isWord before = true ->
  exists leading others,
    groups current (insertCommas (Some before) s) = leading :: others
    /\ String.length leading
       = (String.length current + Nat.modulo (String.length s) 3)%nat
    /\ Forall (fun group => String.length group = 3%nat) others
    /\ fold_right String.append EmptyString (leading :: others) = current ++ s.
Proof.
  induction s as [|c rest IH]; intros current before Hall Hword.
  - exists current, []. cbn [insertCommas first]. unfold notBoundary. rewrite Hword.
    cbn [Bool.eqb andb String.append groups String.length Nat.modulo].
    split; [reflexivity|]. split; [cbn; lia|].
    split; [apply Forall_nil|]. reflexivity.
  - assert (Hc : isDigit c = true) by (apply Hall; now left).
    assert (Hrest : allIn isDigit rest) by (intros x Hx; apply Hall; now right).
    cbn [insertCommas first]. unfold notBoundary. rewrite Hword, (digit_is_word c Hc).
    cbn [Bool.eqb andb]. unfold threesAhead.
    rewrite (digitRun_digits _ Hall). cbn [String.length Nat.ltb Nat.leb andb].
    destruct (Nat.eqb_spec (Nat.modulo (S (String.length rest)) 3) 0) as [Hzero|Hmore].
    + (* a comma, and a new group that starts with [c] *)
      destruct (IH (String c EmptyString) c Hrest (digit_is_word c Hc))
        as (leading & others & Hg & Hlen & Hthree & Hjoin).
      exists current, (leading :: others).
      cbn [String.append groups]. change (isChar "," ",") with true. cbv iota.
      rewrite (digit_not_comma c Hc). cbn [String.append]. rewrite Hg.
      split; [reflexivity|]. split; [lia|]. split.
      * constructor; [|exact Hthree]. rewrite Hlen. cbn [String.length].
        assert (Nat.modulo (String.length rest) 3 = 2)%nat; [|lia].
        pose proof (Nat.mod_upper_bound (String.length rest) 3 ltac:(lia)).
        pose proof (Nat.div_mod_eq (String.length rest) 3).
        pose proof (Nat.div_mod_eq (S (String.length rest)) 3).
        lia.
      * cbn [fold_right] in *. rewrite Hjoin. reflexivity.
    + (* no comma: [c] goes into the group under way *)
      destruct (IH (current ++ String c EmptyString) c Hrest (digit_is_word c Hc))
        as (leading & others & Hg & Hlen & Hthree & Hjoin).
      exists leading, others.
      cbn [String.append groups]. rewrite (digit_not_comma c Hc), Hg.
      split; [reflexivity|]. split; [|split; [exact Hthree|]].
      * rewrite Hlen, length_append. cbn [String.length].
        pose proof (Nat.mod_upper_bound (String.length rest) 3 ltac:(lia)).
        pose proof (Nat.mod_upper_bound (S (String.length rest)) 3 ltac:(lia)).
        pose proof (Nat.div_mod_eq (String.length rest) 3).
        pose proof (Nat.div_mod_eq (S (String.length rest)) 3).
        lia.
      * rewrite Hjoin. clear. induction current as [|x current IH]; simpl;
          [reflexivity|now rewrite IH].
Qed.

(** X17.  For an integer from 0 up to 2^53, [formatNumber] writes the
    decimal digits in groups set apart by commas: a first group of one to
    three digits, then groups of exactly three; put together again, the
    groups give the digits of the number.  A negative number is written as
    the minus sign and its opposite. *)
Theorem formatted_numbers_are_grouped_in_threes num :
  0 <= num < 2 ^ 53 ->
  (exists leading others,
     groups EmptyString (formatNumber num) = leading :: others
     /\ (1 <= String.length leading <= 3)%nat
     /\ Forall (fun group => String.length group = 3%nat) others
     /\ fold_right String.append EmptyString (leading :: others) = string_of_Z num)
  /\ (0 < num -> formatNumber (- num) = "-" ++ formatNumber num).
Proof.
  intros [Hlo Hhi]. destruct (string_of_Z_digits num Hlo) as [Hne Hall].
  split.
  - unfold formatNumber. destruct (string_of_Z num) as [|c rest] eqn:E; [congruence|].
    assert (Hc : isDigit c = true) by (apply Hall; now left).
    assert (Hrest : allIn isDigit rest) by (intros x Hx; apply Hall; now right).
    cbn [insertCommas first]. unfold notBoundary. rewrite (digit_is_word c Hc).
    cbn [Bool.eqb andb String.append groups]. rewrite (digit_not_comma c Hc).
    destruct (insertCommas_groups rest (String c EmptyString) c Hrest (digit_is_word c Hc))
      as (leading & others & Hg & Hlen & Hthree & Hjoin).
    exists leading, others. cbn [String.append]. split; [exact Hg|].
    split; [|split; [exact Hthree|exact Hjoin]].
    rewrite Hlen. cbn [String.length].
    pose proof (Nat.mod_upper_bound (String.length rest) 3 ltac:(lia)). lia.
  - intros Hpos. unfold formatNumber. destruct num as [|p|p]; try lia.
    change (string_of_Z (- Z.pos p)) with (String "-" (string_of_Z (Z.pos p))).
    destruct (string_of_Z (Z.pos p)) as [|c rest] eqn:E; [congruence|].
    assert (Hc : isDigit c = true) by (apply Hall; now left).
    cbn [insertCommas first]. unfold notBoundary.
    rewrite (digit_is_word c Hc). reflexivity.
Qed.

(** 1234567 is written 1,234,567. *)
Lemma formatted_numbers_are_grouped_in_threes_witness :
  formatNumber 1234567 = "1,234,567"
  /\ (exists leading others,
        groups EmptyString (formatNumber 1234567) = leading :: others
        /\ (1 <= String.length leading <= 3)%nat
        /\ Forall (fun group => String.length group = 3%nat) others
        /\ fold_right String.append EmptyString (leading :: others) = string_of_Z 1234567)
  /\ (0 < 1234567 -> formatNumber (- 1234567) = "-" ++ formatNumber 1234567).
Proof.
  split; [reflexivity|].
  apply (formatted_numbers_are_grouped_in_threes 1234567).
  split; [lia|reflexivity].
Defined.


(** *** [formatDuration] *)

(** X18.  For a whole number of seconds from 0 up to 2^53, [formatDuration]
    splits the duration into hours, minutes below 60 and seconds below 60
    that add up to it; it writes the three parts from one hour on, minutes
    and seconds from one minute on, and the seconds alone below that. *)
Theorem duration_parts_add_up seconds :
  0 <= seconds < 2 ^ 53 ->
  exists hours minutes secs,
    seconds = 3600 * hours + 60 * minutes + secs
    /\ 0 <= hours /\ 0 <= minutes < 60 /\ 0 <= secs < 60
    /\ formatDuration seconds
       = if 3600 <=? seconds then
           string_of_Z hours ++ "h " ++ string_of_Z minutes ++ "m "
           ++ string_of_Z secs ++ "s"
         else if 60 <=? seconds then
           string_of_Z minutes ++ "m " ++ string_of_Z secs ++ "s"
         else string_of_Z secs ++ "s".
Proof.
  intros [Hlo Hhi].
  exists (seconds / 3600), (seconds mod 3600 / 60), (seconds mod 60).
  assert (Hrem1 : Z.rem seconds 3600 = seconds mod 3600) by (apply Z.rem_mod_nonneg; lia).
  assert (Hrem2 : Z.rem seconds 60 = seconds mod 60) by (apply Z.rem_mod_nonneg; lia).
  pose proof (Z.div_mod seconds 3600 ltac:(lia)) as H1.
  pose proof (Z.mod_pos_bound seconds 3600 ltac:(lia)) as B1.
  pose proof (Z.div_mod (seconds mod 3600) 60 ltac:(lia)) as H2.
  pose proof (Z.mod_pos_bound (seconds mod 3600) 60 ltac:(lia)) as B2.
  assert (H3 : (seconds mod 3600) mod 60 = seconds mod 60).
  { replace (seconds mod 3600)
      with (seconds + (- (60 * (seconds / 3600))) * 60) by lia.
    apply Z.mod_add. lia. }
  assert (P0 : 0 <= seconds / 3600) by (apply Z.div_pos; lia).
  assert (Hm : 0 <= seconds mod 3600 / 60 < 60).
  { split; [apply Z.div_pos; lia|apply Z.div_lt_upper_bound; lia]. }
  split; [lia|]. split; [assumption|]. split; [assumption|].
  split; [rewrite <- H3; lia|].
  unfold formatDuration. rewrite Hrem1, Hrem2.
  rewrite !JSDiv.floor_div by (change (2 ^ 53) with 9007199254740992 in *; lia).
  assert (Hh : (0 <? seconds / 3600) = (3600 <=? seconds)).
  { destruct (Z.leb_spec 3600 seconds) as [Hge|Hlt].
    - apply Z.ltb_lt. apply Z.div_str_pos. lia.
    - apply Z.ltb_ge. rewrite Z.div_small by lia. lia. }
  rewrite Hh. destruct (Z.leb_spec 3600 seconds) as [Hge|Hlt]; [reflexivity|].
  rewrite (Z.mod_small seconds 3600) by lia.
  assert (Hmin : (0 <? seconds / 60) = (60 <=? seconds)).
  { destruct (Z.leb_spec 60 seconds) as [Hge|Hlt'].
    - apply Z.ltb_lt. apply Z.div_str_pos. lia.
    - apply Z.ltb_ge. rewrite Z.div_small by lia. lia. }
  rewrite Hmin. reflexivity.
Qed.

(** 3725 seconds are 1h 2m 5s. *)
Lemma duration_parts_add_up_witness :
  formatDuration 3725 = "1h 2m 5s"
  /\ exists hours minutes secs,
       3725 = 3600 * hours + 60 * minutes + secs
       /\ 0 <= hours /\ 0 <= minutes < 60 /\ 0 <= secs < 60
       /\ formatDuration 3725
          = if 3600 <=? 3725 then
              string_of_Z hours ++ "h " ++ string_of_Z minutes ++ "m "
              ++ string_of_Z secs ++ "s"
            else if 60 <=? 3725 then
              string_of_Z minutes ++ "m " ++ string_of_Z secs ++ "s"
            else string_of_Z secs ++ "s".
Proof.
  split; [vm_compute; reflexivity|].
  apply (duration_parts_add_up 3725). split; [lia|reflexivity].
Defined.

End HelpersFacts.

(** ** Session manager: runs *)

Module QuizRunsFacts.
Import Quiz QuizRuns QuizFacts.

Lemma reachable_ind (P : State.t -> Prop) :
  P initial ->
  (forall s ev s', P s -> step s ev = Some s' -> P s') ->
  forall s, reachable s -> P s.
Proof.
  intros Hinit Hstep s [events Hrun].
  revert Hrun. generalize initial Hinit. clear Hinit.
  induction events as [|ev rest IH]; simpl; intros s0 H0 Hrun.
  - now injection Hrun as <-.
  - destruct (step s0 ev) as [s1|] eqn:E; [|discriminate].
    eapply IH; [|exact Hrun]. eapply Hstep; eassumption.
Qed.

(** What [endQuiz] leaves of the state. *)
Lemma endQuiz_fields s :
  let s' := fst (endQuiz s) in
  State.currentQuiz s' = State.currentQuiz s
  /\ State.questions s' = State.questions s
  /\ State.currentQuestionIndex s' = State.currentQuestionIndex s
  /\ State.userAnswers s' = State.userAnswers s
  /\ State.score s' = State.score s
  /\ State.timeRemaining s' = State.timeRemaining s
  /\ State.pendingAdvances s' = State.pendingAdvances s
  /\ State.isQuizActive s' = false
  /\ State.timer s' = (if State.isQuizActive s then false else State.timer s).
Proof.
  unfold endQuiz. destruct (State.isQuizActive s) eqn:E; simpl.
  - destruct (calculateResults _); simpl; repeat split; reflexivity.
  - repeat split; try reflexivity. exact E.
Qed.

(** Ending an active quiz saves its results. *)
Lemma endQuiz_saves s :
  State.isQuizActive s = true -> State.currentQuiz s <> None ->
  exists results,
    State.quizResults (fst (endQuiz s)) = push (State.quizResults s) results.
Proof.
  intros Ha Hq. unfold endQuiz, calculateResults. rewrite Ha.
  cbn [negb State.currentQuiz].
  destruct (State.currentQuiz s) as [quiz|]; [|congruence].
  eexists. reflexivity.
Qed.

(** What an accepted or refused [submitAnswer] leaves of the state. *)
Lemma submitAnswer_fields answer s s' c :
  submitAnswer answer s = Some (s', c) ->
  State.currentQuiz s' = State.currentQuiz s
  /\ State.questions s' = State.questions s
  /\ State.currentQuestionIndex s' = State.currentQuestionIndex s
  /\ State.timeRemaining s' = State.timeRemaining s
  /\ State.isQuizActive s' = State.isQuizActive s
  /\ State.timer s' = State.timer s
  /\ State.quizResults s' = State.quizResults s
  /\ (s' = s
      \/ exists record,
           State.userAnswers s' = push (State.userAnswers s) record
           /\ State.score s' = State.score s + Answer.points record
           /\ State.pendingAdvances s' = S (State.pendingAdvances s)
           /\ State.isQuizActive s = true
           /\ nth_error (map Question.id (State.questions s)) (State.currentQuestionIndex s)
              = Some (Answer.questionId record)
           /\ (exists quiz, State.currentQuiz s = Some quiz
                 /\ Answer.timeSpent record = Session.timeLimit quiz - State.timeRemaining s
                 /\ Answer.timeSpentOnQuestion record
                    = Session.timeLimit quiz - State.timeRemaining s
                      - lastTimeSpent (State.userAnswers s))).
Proof.
  unfold submitAnswer.
  assert (Hsame : forall c', Some (s, c') = Some (s', c) ->
            State.currentQuiz s' = State.currentQuiz s
            /\ State.questions s' = State.questions s
            /\ State.currentQuestionIndex s' = State.currentQuestionIndex s
            /\ State.timeRemaining s' = State.timeRemaining s
            /\ State.isQuizActive s' = State.isQuizActive s
            /\ State.timer s' = State.timer s
            /\ State.quizResults s' = State.quizResults s
            /\ (s' = s \/ exists record,
                 State.userAnswers s' = push (State.userAnswers s) record
                 /\ State.score s' = State.score s + Answer.points record
                 /\ State.pendingAdvances s' = S (State.pendingAdvances s)
                 /\ State.isQuizActive s = true
                 /\ nth_error (map Question.id (State.questions s))
                      (State.currentQuestionIndex s)
                    = Some (Answer.questionId record)
                 /\ (exists quiz, State.currentQuiz s = Some quiz
                       /\ Answer.timeSpent record
                          = Session.timeLimit quiz - State.timeRemaining s
                       /\ Answer.timeSpentOnQuestion record
                          = Session.timeLimit quiz - State.timeRemaining s
                            - lastTimeSpent (State.userAnswers s)))).
  { intros c' H. injection H as <- _. repeat split; try reflexivity. now left. }
  destruct (State.isQuizActive s) eqn:Ea; simpl; [|apply Hsame].
  destruct (Nat.leb_spec (List.length (State.questions s)) (State.currentQuestionIndex s));
    [apply Hsame|].
  destruct (nth_error (State.questions s) _) as [question|] eqn:Eq; [|apply Hsame].
  destruct (State.currentQuiz s) as [quiz|] eqn:Ec; [|apply Hsame].
  destruct (Scoring.calculateAnswerPoints _ _ _ _ _) as [scoringResult|]; [|discriminate].
  intros Heq. injection Heq as <- _. simpl.
  repeat split; try reflexivity; try assumption; try (symmetry; assumption).
  right. eexists. split; [reflexivity|]. simpl.
  split; [reflexivity|]. split; [reflexivity|]. split; [reflexivity|].
  split; [now rewrite nth_error_map, Eq|].
  exists quiz. split; [reflexivity|]. split; reflexivity.
Qed.

Lemma sumPoints_push answers a : sumPoints (push answers a) = sumPoints answers + Answer.points a.
Proof.
  unfold push, sumPoints. induction answers as [|b rest IH]; simpl; [lia|].
  rewrite IH. lia.
Qed.

Lemma sumTimes_push answers a :
  sumTimes (push answers a) = sumTimes answers + Answer.timeSpentOnQuestion a.
Proof.
  unfold push, sumTimes. induction answers as [|b rest IH]; simpl; [lia|].
  rewrite IH. lia.
Qed.

Lemma lastTimeSpent_push answers a : lastTimeSpent (push answers a) = Answer.timeSpent a.
Proof. unfold lastTimeSpent, push. now rewrite rev_app_distr. Qed.

Lemma score_sum s :
  reachable s -> State.score s = sumPoints (State.userAnswers s).
Proof.
  revert s.
  apply (reachable_ind (fun s => State.score s = sumPoints (State.userAnswers s)));
    [reflexivity|].
  intros s0 ev s1 IH Hstep. destruct ev; simpl in Hstep.
  - injection Hstep as <-. reflexivity.
  - destruct (submitAnswer answer s0) as [[s2 c]|] eqn:E; [|discriminate].
    injection Hstep as <-.
    destruct (submitAnswer_fields _ _ _ _ E) as (_ & _ & _ & _ & _ & _ & _ & [->|H]);
      [exact IH|].
    destruct H as (record & -> & -> & _). rewrite sumPoints_push. lia.
  - injection Hstep as <-.
    destruct (endQuiz_fields s0) as (_ & _ & _ & -> & -> & _). exact IH.
  - destruct (State.pendingAdvances s0); [discriminate|]. injection Hstep as <-.
    unfold advance. destruct (_ <=? _)%nat; [|exact IH].
    match goal with |- context [endQuiz ?x] =>
      destruct (endQuiz_fields x) as (_ & _ & _ & -> & -> & _) end.
    exact IH.
  - destruct (State.timer s0); [|discriminate]. injection Hstep as <-.
    unfold tick. destruct (_ <=? _); [|exact IH].
    match goal with |- context [endQuiz ?x] =>
      destruct (endQuiz_fields x) as (_ & _ & _ & -> & -> & _) end.
    exact IH.
Qed.


(** X19.  In every reachable state of the session manager, the running score
    is the sum of the points of the recorded answers. *)
Theorem score_is_sum_of_answer_points s :
  reachable s -> State.score s = sumPoints (State.userAnswers s).
Proof. exact (score_sum s). Qed.

Lemma score_is_sum_of_answer_points_witness :
  exists s,
    run initial twoAnswers = Some s
    /\ State.score s = sumPoints (State.userAnswers s).
Proof.
  eexists. split; [vm_compute; reflexivity|].
  apply score_is_sum_of_answer_points. exists twoAnswers. vm_compute. reflexivity.
Defined.

(** While a quiz is active the countdown runs and the session object is
    there. *)
Lemma reachable_active s :
  reachable s ->
  State.timer s = State.isQuizActive s
  /\ (State.isQuizActive s = true -> State.currentQuiz s <> None).
Proof.
  revert s.
  apply (reachable_ind (fun s => State.timer s = State.isQuizActive s
           /\ (State.isQuizActive s = true -> State.currentQuiz s <> None)));
    [split; [reflexivity|discriminate]|].
  assert (Hend : forall s0,
            State.timer s0 = State.isQuizActive s0 ->
            State.timer (fst (endQuiz s0)) = State.isQuizActive (fst (endQuiz s0))
            /\ (State.isQuizActive (fst (endQuiz s0)) = true ->
                State.currentQuiz (fst (endQuiz s0)) <> None)).
  { intros s0 Ht.
    destruct (endQuiz_fields s0) as (_ & _ & _ & _ & _ & _ & _ & -> & ->).
    split; [|discriminate]. destruct (State.isQuizActive s0) eqn:E; congruence. }
  intros s0 ev s1 [IHt IHq] Hstep. destruct ev; simpl in Hstep.
  - injection Hstep as <-. split; [reflexivity|discriminate].
  - destruct (submitAnswer answer s0) as [[s2 c]|] eqn:E; [|discriminate].
    injection Hstep as <-.
    destruct (submitAnswer_fields _ _ _ _ E) as (-> & _ & _ & _ & -> & -> & _).
    now split.
  - injection Hstep as <-. now apply Hend.
  - destruct (State.pendingAdvances s0); [discriminate|]. injection Hstep as <-.
    unfold advance. destruct (_ <=? _)%nat; [apply Hend; exact IHt|now split].
  - destruct (State.timer s0) eqn:Et; [|discriminate]. injection Hstep as <-.
    unfold tick. destruct (_ <=? _); [apply Hend; simpl; congruence|].
    simpl. split; [congruence|exact IHq].
Qed.

(** X20.  In every reachable state the countdown runs exactly while a quiz is
    active, and neither [endQuiz] nor [submitAnswer] ends in an exception. *)
Theorem reachable_calls_do_not_throw s :
  reachable s ->
  State.timer s = State.isQuizActive s
  /\ snd (endQuiz s) <> Thrown
  /\ (forall answer s' c, submitAnswer answer s = Some (s', c) -> c <> Thrown).
Proof.
  intros Hr. destruct (reachable_active s Hr) as [Ht Hq]. split; [exact Ht|]. split.
  - unfold endQuiz, calculateResults.
    destruct (State.isQuizActive s) eqn:Ea; simpl; [|discriminate].
    destruct (State.currentQuiz s) eqn:Ec; [discriminate|]. now destruct (Hq eq_refl).
  - intros answer s' c. unfold submitAnswer.
    destruct (State.isQuizActive s) eqn:Ea; simpl;
      [|intros H; injection H as _ <-; discriminate].
    destruct (Nat.leb_spec (List.length (State.questions s)) (State.currentQuestionIndex s))
      as [Hge|Hlt]; [intros H; injection H as _ <-; discriminate|].
    destruct (nth_error (State.questions s) _) eqn:En.
    2:{ apply nth_error_None in En. lia. }
    destruct (State.currentQuiz s) eqn:Ec; [|now destruct (Hq eq_refl)].
    destruct (Scoring.calculateAnswerPoints _ _ _ _ _); [|discriminate].
    intros H. injection H as _ <-. discriminate.
Qed.

Lemma reachable_calls_do_not_throw_witness :
  exists s,
    run initial twoAnswers = Some s
    /\ State.timer s = State.isQuizActive s
    /\ snd (endQuiz s) <> Thrown
    /\ (forall answer s' c, submitAnswer answer s = Some (s', c) -> c <> Thrown).
Proof.
  eexists. split; [vm_compute; reflexivity|].
  apply reachable_calls_do_not_throw. exists twoAnswers. vm_compute. reflexivity.
Defined.

(** X21.  In every reachable state the time spent on each answered question
    is not negative, and these times add up to the elapsed time recorded
    with the last answer. *)
Theorem question_times_add_up s :
  reachable s ->
  Forall (fun a => 0 <= Answer.timeSpentOnQuestion a /\ 0 <= Answer.timeSpent a)
         (State.userAnswers s)
  /\ sumTimes (State.userAnswers s) = lastTimeSpent (State.userAnswers s).
Proof.
  intros Hr.
  set (elapsedOk := fun s =>
         match State.currentQuiz s with
         | Some quiz =>
             State.timeRemaining s <= Session.timeLimit quiz
             /\ lastTimeSpent (State.userAnswers s)
                <= Session.timeLimit quiz - State.timeRemaining s
         | None => State.userAnswers s = []
         end).
  set (P := fun s =>
         elapsedOk s
         /\ Forall (fun a => 0 <= Answer.timeSpentOnQuestion a /\ 0 <= Answer.timeSpent a)
                   (State.userAnswers s)
         /\ sumTimes (State.userAnswers s) = lastTimeSpent (State.userAnswers s)).
  assert (HP : P s); [|exact (proj2 HP)].
  assert (Hend : forall s0, P s0 -> P (fst (endQuiz s0))).
  { intros s0 H0. unfold P, elapsedOk in *.
    destruct (endQuiz_fields s0) as (-> & _ & _ & -> & _ & -> & _). exact H0. }
  revert s Hr. apply (reachable_ind P).
  { unfold P, elapsedOk. simpl. split; [reflexivity|]. split; [constructor|reflexivity]. }
  intros s0 ev s1 IH Hstep. destruct ev; simpl in Hstep.
  - injection Hstep as <-. unfold P, elapsedOk. simpl.
    split; [unfold lastTimeSpent; simpl; lia|]. split; [constructor|reflexivity].
  - destruct (submitAnswer answer s0) as [[s2 c]|] eqn:E; [|discriminate].
    injection Hstep as <-.
    destruct (submitAnswer_fields _ _ _ _ E) as (Hq & _ & _ & Hrem & _ & _ & _ & [->|H]);
      [exact IH|].
    destruct H as (record & Hans & _ & _ & _ & _ & quiz & Hquiz & Hts & Htq).
    unfold P, elapsedOk in *. rewrite Hq, Hrem, Hans, Hquiz in *.
    destruct IH as ((Hle & Hlast) & Hall & Hsum).
    rewrite lastTimeSpent_push, sumTimes_push.
    split; [split; lia|]. split; [|lia].
    unfold push. apply Forall_app. split; [exact Hall|].
    constructor; [lia|constructor].
  - injection Hstep as <-. now apply Hend.
  - destruct (State.pendingAdvances s0); [discriminate|]. injection Hstep as <-.
    unfold advance. destruct (_ <=? _)%nat; [apply Hend|]; exact IH.
  - destruct (State.timer s0); [|discriminate]. injection Hstep as <-.
    assert (P {| State.currentQuiz := State.currentQuiz s0;
                 State.questions := State.questions s0;
                 State.currentQuestionIndex := State.currentQuestionIndex s0;
                 State.userAnswers := State.userAnswers s0;
                 State.score := State.score s0;
                 State.timeRemaining := State.timeRemaining s0 - 1;
                 State.timer := true;
                 State.isQuizActive := State.isQuizActive s0;
                 State.pendingAdvances := State.pendingAdvances s0;
                 State.quizResults := State.quizResults s0 |}) as Ht.
    { unfold P, elapsedOk in *. simpl.
      destruct (State.currentQuiz s0); [|exact IH].
      destruct IH as ((Hle & Hlast) & Hall & Hsum). repeat split; try assumption; lia. }
    unfold tick. destruct (_ <=? _); [apply Hend|]; exact Ht.
Qed.

Lemma question_times_add_up_witness :
  exists s,
    run initial twoAnswers = Some s
    /\ Forall (fun a => 0 <= Answer.timeSpentOnQuestion a /\ 0 <= Answer.timeSpent a)
              (State.userAnswers s)
    /\ sumTimes (State.userAnswers s) = lastTimeSpent (State.userAnswers s).
Proof.
  eexists. split; [vm_compute; reflexivity|].
  apply question_times_add_up. exists twoAnswers. vm_compute. reflexivity.
Defined.


Lemma firstn_succ_nth {A} (l : list A) n x :
  nth_error l n = Some x -> firstn (S n) l = (firstn n l ++ [x])%list.
Proof.
  revert n. induction l as [|a rest IH]; intros [|n]; cbn [nth_error]; try discriminate.
  - intros H. now injection H as ->.
  - intros H. change (a :: firstn (S n) rest = a :: (firstn n rest ++ [x])%list).
    f_equal. now apply IH.
Qed.

(** X22.  When no answer is submitted and no quiz is started while a callback
    that moves on to the next question is pending, the answers never
    outnumber the questions, and the answers are those of the first
    questions of the quiz, one for each, in order. *)
Theorem paced_answers_follow_questions events s :
  pacedRun initial events = Some s ->
  (List.length (State.userAnswers s) <= List.length (State.questions s))%nat
  /\ map Answer.questionId (State.userAnswers s)
     = firstn (List.length (State.userAnswers s)) (map Question.id (State.questions s)).
Proof.
  set (P := fun s =>
         (State.pendingAdvances s <= 1)%nat
         /\ List.length (State.userAnswers s)
            = (State.currentQuestionIndex s + State.pendingAdvances s)%nat
         /\ (List.length (State.userAnswers s) <= List.length (State.questions s))%nat
         /\ map Answer.questionId (State.userAnswers s)
            = firstn (List.length (State.userAnswers s))
                     (map Question.id (State.questions s))).
  assert (Hend : forall s0, P s0 -> P (fst (endQuiz s0))).
  { intros s0 H0. unfold P in *.
    destruct (endQuiz_fields s0) as (_ & -> & -> & -> & _ & _ & -> & _). exact H0. }
  assert (Hstep : forall s0 ev s1, P s0 -> pacedStep s0 ev = Some s1 -> P s1).
  { intros s0 ev s1 IH Hs. destruct ev; simpl in Hs.
    - destruct (State.pendingAdvances s0) eqn:Ep; [|discriminate].
      injection Hs as <-. unfold P. simpl. rewrite Ep.
      repeat split; try reflexivity; lia.
    - destruct (State.pendingAdvances s0) eqn:Ep; [|discriminate].
      destruct (submitAnswer answer s0) as [[s2 c]|] eqn:E; [|discriminate].
      injection Hs as <-.
      destruct (submitAnswer_fields _ _ _ _ E) as (_ & Hq & Hi & _ & _ & _ & _ & [->|H]);
        [exact IH|].
      destruct H as (record & Hans & _ & Hp & _ & Hnth & _).
      unfold P in *. rewrite Hq, Hi, Hans, Hp, Ep in *.
      destruct IH as (_ & Hlen & Hle & Hids). rewrite Nat.add_0_r in Hlen.
      assert (Hlt : (State.currentQuestionIndex s0 < List.length (State.questions s0))%nat).
      { rewrite <- (length_map Question.id). apply nth_error_Some. congruence. }
      unfold push. rewrite length_app, map_app. simpl.
      split; [lia|]. split; [lia|]. split; [lia|].
      rewrite Nat.add_1_r, Hlen. rewrite (firstn_succ_nth _ _ _ Hnth).
      f_equal. rewrite Hids, Hlen. reflexivity.
    - injection Hs as <-. now apply Hend.
    - destruct (State.pendingAdvances s0) eqn:Ep; [discriminate|]. injection Hs as <-.
      assert (P {| State.currentQuiz := State.currentQuiz s0;
                   State.questions := State.questions s0;
                   State.currentQuestionIndex := S (State.currentQuestionIndex s0);
                   State.userAnswers := State.userAnswers s0;
                   State.score := State.score s0;
                   State.timeRemaining := State.timeRemaining s0;
                   State.timer := State.timer s0;
                   State.isQuizActive := State.isQuizActive s0;
                   State.pendingAdvances := Nat.pred (State.pendingAdvances s0);
                   State.quizResults := State.quizResults s0 |}) as Ha.
      { unfold P in *. simpl. rewrite Ep in *. simpl.
        destruct IH as (Hp & Hlen & Hle & Hids). repeat split; try assumption; lia. }
      unfold advance. destruct (_ <=? _)%nat; [apply Hend|]; exact Ha.
    - destruct (State.timer s0); [|discriminate]. injection Hs as <-.
      unfold tick. destruct (_ <=? _); [apply Hend|]; exact IH. }
  intros Hrun.
  assert (HP : P s); [|exact (proj2 (proj2 HP))].
  revert Hrun.
  assert (H0 : P initial) by (unfold P; simpl; repeat split; lia).
  revert H0. generalize initial.
  induction events as [|ev rest IH]; simpl; intros s0 H0 Hrun.
  - now injection Hrun as <-.
  - destruct (pacedStep s0 ev) as [s1|] eqn:E; [|discriminate].
    eapply IH; [|exact Hrun]. eapply Hstep; eassumption.
Qed.

(** The two answers, and the move to the end of the quiz. *)
Lemma paced_answers_follow_questions_witness :
  exists s,
    pacedRun initial (twoAnswers ++ [Advance]) = Some s
    /\ (List.length (State.userAnswers s) <= List.length (State.questions s))%nat
    /\ map Answer.questionId (State.userAnswers s)
       = firstn (List.length (State.userAnswers s)) (map Question.id (State.questions s)).
Proof.
  eexists. split; [vm_compute; reflexivity|].
  apply (paced_answers_follow_questions (twoAnswers ++ [Advance])).
  vm_compute. reflexivity.
Defined.


Lemma fold_addAnswer_points answers sums :
  Scoring.Sums.totalPoints (fold_left Scoring.addAnswer answers sums)
  = Scoring.Sums.totalPoints sums + sumPoints answers.
Proof.
  revert sums. induction answers as [|a rest IH]; intros sums; simpl; [lia|].
  rewrite IH. simpl. lia.
Qed.

(** X23.  Ending an active quiz in a reachable state returns results whose
    score is the running score plus the completion bonuses, floored at 0;
    the results hold the recorded answers and are appended to the saved
    list, and the quiz is no longer active. *)
Theorem final_score_adds_completion_bonuses s :
  reachable s -> State.isQuizActive s = true ->
  exists s' results,
    endQuiz s = (s', Returned (Some results))
    /\ Results.score results
       = Z.max 0 (State.score s + Scoring.sumAmounts (Results.completionBonuses results))
    /\ Results.answers results = State.userAnswers s
    /\ State.quizResults s' = push (State.quizResults s) results
    /\ State.isQuizActive s' = false
    /\ State.timer s' = false.
Proof.
  intros Hr Ha. destruct (reachable_active s Hr) as [_ Hq].
  pose proof (score_sum s Hr) as Hscore.
  unfold endQuiz, calculateResults. rewrite Ha. simpl.
  destruct (State.currentQuiz s) as [quiz|]; [|now destruct (Hq Ha)].
  eexists _, _. split; [reflexivity|]. simpl.
  repeat split; try reflexivity.
  unfold Scoring.calculateTotalScore. simpl.
  rewrite fold_addAnswer_points, Hscore. reflexivity.
Qed.

(** A quiz that has just been started. *)
Lemma final_score_adds_completion_bonuses_witness :
  let s := startQuiz "quiz-1" "session-1" (fun i => i) "Science" "all" 2 initial in
  exists s' results,
    endQuiz s = (s', Returned (Some results))
    /\ Results.score results
       = Z.max 0 (State.score s + Scoring.sumAmounts (Results.completionBonuses results))
    /\ Results.answers results = State.userAnswers s
    /\ State.quizResults s' = push (State.quizResults s) results
    /\ State.isQuizActive s' = false
    /\ State.timer s' = false.
Proof.
  apply (final_score_adds_completion_bonuses
           (startQuiz "quiz-1" "session-1" (fun i => i) "Science" "all" 2 initial)).
  - exists [StartQuiz "quiz-1" "session-1" (fun i => i) "Science" "all" 2]. reflexivity.
  - reflexivity.
Defined.

(** The countdown of an active quiz with [r] seconds left, [k < r] ticks
    later. *)
Lemma ticks_before_the_end k : forall s r,
  State.timer s = true -> State.isQuizActive s = true ->
  State.timeRemaining s = r -> Z.of_nat k < r ->
  exists sk,
    run s (repeat Tick k) = Some sk
    /\ State.timer sk = true /\ State.isQuizActive sk = true
    /\ State.timeRemaining sk = r - Z.of_nat k
    /\ State.currentQuiz sk = State.currentQuiz s
    /\ State.quizResults sk = State.quizResults s.
Proof.
  induction k as [|k IH]; intros s r Ht Ha Hr Hk.
  - exists s. simpl. repeat split; try assumption; lia.
  - simpl repeat. cbn [run step]. rewrite Ht.
    assert (Etick : tick s
              = {| State.currentQuiz := State.currentQuiz s;
                   State.questions := State.questions s;
                   State.currentQuestionIndex := State.currentQuestionIndex s;
                   State.userAnswers := State.userAnswers s;
                   State.score := State.score s;
                   State.timeRemaining := State.timeRemaining s - 1;
                   State.timer := State.timer s;
                   State.isQuizActive := State.isQuizActive s;
                   State.pendingAdvances := State.pendingAdvances s;
                   State.quizResults := State.quizResults s |}).
    { unfold tick. cbn [State.timeRemaining].
      destruct (Z.leb_spec (State.timeRemaining s - 1) 0); [lia|reflexivity]. }
    rewrite Etick.
    match goal with |- context [run ?t _] =>
      destruct (IH t (r - 1)) as (sk & Hrun & H1 & H2 & H3 & H4 & H5);
        simpl; try assumption; try lia
    end.
    exists sk. split; [exact Hrun|]. repeat split; try assumption. lia.
Qed.

(** X24.  A quiz started with at least one question (and 2^48 at most, so
    that the seconds are integers that numbers hold exactly) and left alone
    stays active while the countdown is above 0 and is ended by the tick
    that brings it to 0, after 30 seconds per question: the results are
    saved, the quiz is no longer active and the countdown has stopped. *)
Theorem quiz_ends_when_time_is_up quizId sessionId random category difficulty
    questionCount s :
  1 <= questionCount <= 2 ^ 48 ->
  let started := startQuiz quizId sessionId random category difficulty questionCount s in
  let limit := Z.to_nat (questionCount * 30) in
  (forall k, (k < limit)%nat ->
     exists sk, run started (repeat Tick k) = Some sk
       /\ State.isQuizActive sk = true
       /\ State.timeRemaining sk = questionCount * 30 - Z.of_nat k)
  /\ exists ended,
       run started (repeat Tick limit) = Some ended
       /\ State.isQuizActive ended = false
       /\ State.timeRemaining ended = 0
       /\ List.length (State.quizResults ended) = S (List.length (State.quizResults s))
       /\ step ended Tick = None.
Proof.
  intros [Hn _] started limit.
  assert (Hstart : State.timer started = true /\ State.isQuizActive started = true
                   /\ State.timeRemaining started = questionCount * 30
                   /\ State.quizResults started = State.quizResults s
                   /\ State.currentQuiz started <> None).
  { unfold started, startQuiz. simpl. repeat split. discriminate. }
  destruct Hstart as (Ht & Ha & Hr & Hres & Hq).
  split.
  - intros k Hk.
    destruct (ticks_before_the_end k started _ Ht Ha Hr ltac:(lia))
      as (sk & Hrun & _ & H2 & H3 & _).
    exists sk. repeat split; assumption.
  - assert (Hlimit : limit = (Nat.pred limit + 1)%nat) by (unfold limit; lia).
    destruct (ticks_before_the_end (Nat.pred limit) started _ Ht Ha Hr ltac:(lia))
      as (sk & Hrun & H1 & H2 & H3 & H4 & H5).
    rewrite Hlimit, repeat_app.
    assert (Happ : forall evs1 evs2 a b, run a evs1 = Some b ->
                     run a (evs1 ++ evs2) = run b evs2).
    { induction evs1 as [|ev rest IH]; simpl; intros evs2 a b Hab.
      - now injection Hab as ->.
      - destruct (step a ev); [now apply IH|discriminate]. }
    rewrite (Happ _ _ _ _ Hrun). simpl repeat. cbn [run step]. rewrite H1.
    assert (Hone : State.timeRemaining sk = 1) by (unfold limit in *; lia).
    (* the last tick ends the quiz *)
    set (last := {| State.currentQuiz := State.currentQuiz sk;
                    State.questions := State.questions sk;
                    State.currentQuestionIndex := State.currentQuestionIndex sk;
                    State.userAnswers := State.userAnswers sk;
                    State.score := State.score sk;
                    State.timeRemaining := State.timeRemaining sk - 1;
                    State.timer := State.timer sk;
                    State.isQuizActive := State.isQuizActive sk;
                    State.pendingAdvances := State.pendingAdvances sk;
                    State.quizResults := State.quizResults sk |}).
    assert (Etick : tick sk = fst (endQuiz last)).
    { unfold tick. fold last. cbn [State.timeRemaining last]. now rewrite Hone. }
    rewrite Etick. exists (fst (endQuiz last)). split; [reflexivity|].
    destruct (endQuiz_fields last) as (_ & _ & _ & _ & _ & Hrem & _ & Hact & Htimer).
    cbv zeta in Hrem, Hact, Htimer.
    destruct (endQuiz_saves last) as [results Hsaved];
      [exact H2|cbn [last State.currentQuiz]; congruence|].
    split; [exact Hact|]. split; [rewrite Hrem; cbn [last State.timeRemaining]; lia|].
    split.
    + rewrite Hsaved. unfold push. rewrite length_app.
      cbn [last State.quizResults]. rewrite H5, Hres. simpl. lia.
    + cbn [step]. rewrite Htimer. cbn [last State.isQuizActive]. now rewrite H2.
Qed.

(** A quiz of one question: 30 ticks. *)
Lemma quiz_ends_when_time_is_up_witness :
  exists ended,
    run (startQuiz "quiz-1" "session-1" (fun i => i) "Art" "medium" 1 initial)
        (repeat Tick 30) = Some ended
    /\ State.isQuizActive ended = false
    /\ State.timeRemaining ended = 0
    /\ List.length (State.quizResults ended) = 1%nat
    /\ step ended Tick = None.
Proof.
  exact (proj2 (quiz_ends_when_time_is_up "quiz-1" "session-1" (fun i => i)
                  "Art" "medium" 1 initial
                  ltac:(split; [lia|vm_compute; discriminate]))).
Defined.

End QuizRunsFacts.

(** ** Scoring engine: statistics, completion bonuses and penalties *)

Module ScoringReportsFacts.
Import Quiz ScoringReports QuizRunsFacts.

Lemma fold_sumScores results : forall start,
  fold_left (fun sum result => sum + Results.score result) results start
  = start + sumScores results.
Proof.
  induction results as [|r rest IH]; intros start; simpl; [lia|]. rewrite IH. lia.
Qed.

Lemma sumScores_bound results best :
  (forall r, In r results -> Results.score r <= best) ->
  sumScores results <= Z.of_nat (List.length results) * best.
Proof.
  induction results as [|r rest IH]; intros Hall; [simpl; lia|].
  cbn [sumScores fold_right List.length]. fold (sumScores rest).
  pose proof (Hall r (or_introl eq_refl)).
  assert (sumScores rest <= Z.of_nat (List.length rest) * best)
    by (apply IH; intros; apply Hall; now right).
  lia.
Qed.

(** What [endQuiz] saves has a score that is not negative. *)
Lemma endQuiz_results s :
  Forall (fun r => 0 <= Results.score r) (State.quizResults s) ->
  Forall (fun r => 0 <= Results.score r) (State.quizResults (fst (endQuiz s))).
Proof.
  intros Hall. unfold endQuiz. destruct (State.isQuizActive s); simpl; [|exact Hall].
  unfold calculateResults. simpl. destruct (State.currentQuiz s); simpl; [|exact Hall].
  unfold push. apply Forall_app. split; [exact Hall|].
  constructor; [|constructor]. simpl. apply Z.le_max_l.
Qed.

Lemma saved_scores_nonneg s :
  reachable s -> Forall (fun r => 0 <= Results.score r) (State.quizResults s).
Proof.
  revert s. apply (reachable_ind (fun s => Forall _ (State.quizResults s))).
  - constructor.
  - intros s ev s' IH Hstep. destruct ev; simpl in Hstep.
    + injection Hstep as <-. exact IH.
    + destruct (submitAnswer answer s) as [[s1 c]|] eqn:E; [|discriminate].
      injection Hstep as <-.
      destruct (submitAnswer_fields _ _ _ _ E) as (_ & _ & _ & _ & _ & _ & -> & _).
      exact IH.
    + injection Hstep as <-. now apply endQuiz_results.
    + destruct (State.pendingAdvances s); [discriminate|]. injection Hstep as <-.
      unfold advance. match goal with |- context [if ?b then _ else _] => destruct b end;
        [apply endQuiz_results|]; exact IH.
    + destruct (State.timer s); [|discriminate]. injection Hstep as <-.
      unfold tick. match goal with |- context [if ?b then _ else _] => destruct b end;
        [apply endQuiz_results|]; exact IH.
Qed.

(** X25.  [getScoringStatistics] counts the results; without results every
    figure is 0.  Otherwise the best score is the largest score, that of
    some result.  For scores that are not negative, with a total below 2^52
    (where the additions are exact), the total is the sum of the scores and
    the average score is the total divided by the number of results, rounded
    to the nearest integer (a half going up), which is at most the best
    score.  The results that the session manager has saved have scores that
    are not negative, so that their best score is not negative either. *)
Theorem scoring_statistics_summarise_results results :
  let stats := getScoringStatistics results in
  let count := Z.of_nat (List.length results) in
  Stats.totalQuizzes stats = count
  /\ (results = [] ->
      Stats.totalPoints stats = 0
      /\ Stats.bestScore stats = 0 /\ Stats.averageScore stats = JS.of_Z 0
      /\ Stats.averageAccuracy stats = JS.of_Z 0 /\ Stats.bestAccuracy stats = JS.of_Z 0)
  /\ (results <> [] ->
      (exists result, In result results /\ Results.score result = Stats.bestScore stats)
      /\ (forall result, In result results ->
            Results.score result <= Stats.bestScore stats))
  /\ (Forall (fun result => 0 <= Results.score result) results ->
      sumScores results < 2 ^ 52 -> count < 2 ^ 53 ->
      Stats.totalPoints stats = sumScores results
      /\ (results <> [] ->
          Stats.averageScore stats
          = JS.of_Z ((2 * sumScores results + count) / (2 * count))
          /\ (2 * sumScores results + count) / (2 * count) <= Stats.bestScore stats))
  /\ (forall s, reachable s -> results = State.quizResults s ->
        Forall (fun result => 0 <= Results.score result) results
        /\ 0 <= Stats.bestScore stats).
Proof.
  intros stats count.
  assert (Htotal : Stats.totalPoints stats = sumScores results).
  { unfold stats, getScoringStatistics. destruct results as [|first others];
      [reflexivity|]. cbn [Stats.totalPoints]. now rewrite fold_sumScores. }
  assert (Hbest : results <> [] ->
            (exists result, In result results /\ Results.score result = Stats.bestScore stats)
            /\ (forall result, In result results ->
                  Results.score result <= Stats.bestScore stats)).
  { intros Hne. unfold stats, getScoringStatistics.
    destruct results as [|first others]; [congruence|]. cbn [Stats.bestScore].
    destruct (BoardFacts.maxOf_spec (map Results.score others) (Results.score first))
      as (Hin & Hle & Hall).
    split.
    - destruct Hin as [Heq|Hin].
      + exists first. split; [now left|now rewrite Heq].
      + apply in_map_iff in Hin as (r & Hr & Hinr). exists r. split; [now right|exact Hr].
    - intros r [<-|Hr]; [exact Hle|].
      rewrite Forall_forall in Hall. apply Hall. now apply in_map. }
  assert (Hsum : Forall (fun result => 0 <= Results.score result) results ->
                 0 <= sumScores results).
  { clear. induction 1 as [|r rest Hr _ IH]; simpl; lia. }
  split; [|split; [|split; [exact Hbest|split]]].
  - unfold stats, getScoringStatistics.
    now destruct results as [|first others].
  - intros ->. repeat split.
  - intros Hnonneg Hless Hcount. split; [exact Htotal|]. intros Hne.
    destruct (Hbest Hne) as [_ Hupper].
    pose proof (Hsum Hnonneg) as Hsum0.
    assert (Hpos : 0 < count).
    { unfold count. destruct results; [congruence|]. simpl List.length. lia. }
    split.
    + unfold stats, getScoringStatistics. destruct results as [|first others];
        [congruence|]. cbn [Stats.averageScore]. rewrite fold_sumScores, Z.add_0_l.
      fold count. apply BoardFacts.Math_round_div; lia.
    + pose proof (sumScores_bound results _ Hupper) as Hb. fold count in Hb.
      apply Z.lt_succ_r. apply Z.div_lt_upper_bound; [lia|]. nia.
  - intros s Hreach ->. pose proof (saved_scores_nonneg s Hreach) as Hall.
    split; [exact Hall|].
    rewrite Forall_forall in Hall.
    destruct (State.quizResults s) as [|first others] eqn:E; [simpl; lia|].
    destruct Hbest as [(r & Hin & <-) _]; [discriminate|]. now apply Hall.
Qed.

End ScoringReportsFacts.

Module ScoringBounds.
Import Scoring ScoringReports.

(** X26.  Whatever the answers, the number counted as correct and the quiz
    information, each completion bonus pays its rate for every answer (10
    for a perfect score, 5 for high accuracy, 2 for completion, 3 for speed,
    8 for category mastery) and is given once at most; the bonuses for a
    perfect score and for high accuracy exclude each other, category mastery
    comes only with a perfect score, the completion bonus is given exactly
    from 10 answers on, and the bonuses sum to at most 23 points for each
    answer. *)
Theorem completion_bonuses_pay_fixed_rates answers correctAnswers quizInfo :
  let bonuses := calculateCompletionBonuses answers correctAnswers quizInfo in
  let count := Z.of_nat (List.length answers) in
  let types := map Item.type bonuses in
  Forall (fun item => 0 < completionRate (Item.type item)
                      /\ Item.amount item = count * completionRate (Item.type item))
         bonuses
  /\ NoDup types
  /\ ~ (In "perfect_score" types /\ In "high_accuracy" types)
  /\ (In "category_mastery" types -> In "perfect_score" types)
  /\ (In "completion" types <-> 10 <= count)
  /\ 0 <= sumAmounts bonuses <= 23 * count.
Proof.
  intros bonuses count types. unfold types, bonuses, calculateCompletionBonuses.
  fold count. pose proof (Zle_0_nat (List.length answers)) as Hcount. fold count in Hcount.
  set (accuracy := percentCorrect correctAnswers answers).
  destruct (JS.eqb accuracy (JS.of_Z 100)) eqn:Eperfect;
    destruct (JS.geb accuracy (JS.of_Z 90)) eqn:Ehigh;
    destruct (Z.leb_spec 10 count) as [Hten|Hten];
    repeat match goal with
           | |- context [match ?o with Some _ => _ | None => _ end] => destruct o
           | |- context [if ?b then _ else _] => destruct b eqn:?
           end;
    rewrite ?andb_false_r in *; try discriminate;
    unfold push, sumAmounts;
    cbn [app map fold_left Item.type Item.amount];
    (split; [repeat (apply Forall_cons; [split; [reflexivity|reflexivity]|]);
             apply Forall_nil|]);
    (split; [repeat (apply NoDup_cons; [cbn [In]; intuition discriminate|]);
             apply NoDup_nil|]);
    (split; [cbn [In]; intuition discriminate|]);
    (split; [cbn [In]; intuition discriminate|]);
    (split; [cbn [In]; intuition (discriminate || lia)|lia]).
Qed.

(** X27.  A quiz without answers scores nothing, whatever the quiz
    information: no points, no correct answer, an accuracy of 0, no
    completion bonus, nothing to reach, and the grade F. *)
Theorem empty_quiz_scores_nothing quizInfo :
  let total := calculateTotalScore [] quizInfo in
  Total.totalPoints total = 0
  /\ Total.correctAnswers total = 0
  /\ Total.totalQuestions total = 0
  /\ Total.accuracy total = JS.of_Z 0
  /\ Total.maxPossiblePoints total = Some 0
  /\ Total.completionBonuses total = []
  /\ Grade.letter (Total.grade total) = "F"
  /\ Grade.percentage (Total.grade total) = JS.of_Z 0.
Proof.
  assert (Hnone : calculateCompletionBonuses [] 0 quizInfo = []).
  { unfold calculateCompletionBonuses.
    change (percentCorrect 0 []) with S754_nan.
    change (JS.eqb S754_nan (JS.of_Z 100)) with false.
    change (JS.geb S754_nan (JS.of_Z 90)) with false.
    change (JS.geb S754_nan (JS.of_Z 70)) with false.
    cbv iota. cbn [List.length Z.of_nat Z.leb Z.compare].
    destruct (QuizInfo.timeSpent quizInfo), (QuizInfo.timeLimit quizInfo),
      (QuizInfo.category quizInfo);
      rewrite ?andb_false_r;
      repeat match goal with
             | |- context [if ?b then _ else _] => destruct b
             end; reflexivity. }
  intros total. unfold total, calculateTotalScore.
  cbn [fold_left Sums.zero Sums.correctAnswers Sums.totalPoints Sums.maxPossiblePoints
       Sums.totalBonuses Sums.totalPenalties].
  rewrite Hnone. repeat split.
Qed.


(** X28.  For an incorrect answer to a question with integer base points
    from 0 up to 2^53, [calculateAnswerPoints] gives no bonus and a penalty
    that is the tenth of the base points (or of the base points plus one),
    rounded down, followed by half of it, rounded down, when more than 60
    seconds were spent; the final points are minus the sum of the
    penalties, the lower bound of minus half the base points never being
    needed, and the [total] of the breakdown is the base points more than
    the final points. *)
Theorem incorrect_points_are_minus_the_penalties question timeSpent consecutiveCorrect
    options basePoints :
  basePointsOf question = Some basePoints -> 0 <= basePoints < 2 ^ 53 ->
  exists result penalty,
    calculateAnswerPoints question false timeSpent consecutiveCorrect options
      = Some result
    /\ basePoints / 10 <= penalty <= (basePoints + 1) / 10
    /\ Result.bonuses result = []
    /\ map Item.amount (Result.penalties result)
       = (if 60 <? timeSpent then [penalty; penalty / 2] else [penalty])
    /\ Result.finalPoints result = - sumAmounts (Result.penalties result)
    /\ Breakdown.total (Result.breakdown result) = basePoints + Result.finalPoints result.
Proof.
  intros Hbase Hrange. unfold calculateAnswerPoints. rewrite Hbase.
  eexists. exists (JS.floor (JS.mul (JS.of_Z basePoints) Config.penaltyPercentage)).
  split; [reflexivity|].
  pose proof (JSDiv.floor_tenth basePoints Hrange) as Hp.
  change (JS.lit 1 10) with Config.penaltyPercentage in Hp.
  set (penalty := JS.floor (JS.mul (JS.of_Z basePoints) Config.penaltyPercentage)) in *.
  assert (Hp53 : 0 <= penalty < 2 ^ 53).
  { change (2 ^ 53) with 9007199254740992 in *. clearbody penalty.
    pose proof (Z.div_pos basePoints 10 ltac:(lia) ltac:(lia)).
    assert ((basePoints + 1) / 10 < 9007199254740992)
      by (apply Z.div_lt_upper_bound; lia).
    lia. }
  pose proof (JSFacts.floor_half penalty Hp53) as Hhalf.
  pose proof (JSFacts.floor_half basePoints Hrange) as Hfloor.
  split; [exact Hp|].
  unfold calculateAnswerPointsFrom, incorrectAnswerPoints. fold penalty.
  rewrite Hhalf, Hfloor.
  destruct (60 <? timeSpent);
    cbn [Result.bonuses Result.penalties Result.finalPoints Result.breakdown
         createPointsBreakdown Breakdown.total];
    unfold push, sumAmounts;
    cbn [app map fold_left Item.amount];
    (split; [reflexivity|]); (split; [reflexivity|]);
    change (2 ^ 53) with 9007199254740992 in *; clearbody penalty;
    split; Z.div_mod_to_equations; lia.
Qed.

(** A medium question answered wrongly after 75 seconds: the penalties are
    2 and 1, the final points -3 and the total of the breakdown 17. *)
Lemma incorrect_points_are_minus_the_penalties_witness :
  let question :=
    Question.mk "q" "?" "multiple_choice" ["a"; "b"] "a" "Some explanation."
                "Science" "medium" None in
  exists result penalty,
    calculateAnswerPoints question false 75 0 Options.default = Some result
    /\ 20 / 10 <= penalty <= (20 + 1) / 10
    /\ Result.bonuses result = []
    /\ map Item.amount (Result.penalties result)
       = (if 60 <? 75 then [penalty; penalty / 2] else [penalty])
    /\ Result.finalPoints result = - sumAmounts (Result.penalties result)
    /\ Breakdown.total (Result.breakdown result) = 20 + Result.finalPoints result.
Proof.
  apply (incorrect_points_are_minus_the_penalties
           (Question.mk "q" "?" "multiple_choice" ["a"; "b"] "a" "Some explanation."
                        "Science" "medium" None)
           75 0 Options.default 20).
  - reflexivity.
  - split; [lia|reflexivity].
Defined.


Lemma correctCount_full answers :
  correctCount answers = Z.of_nat (List.length answers)
  <-> Forall (fun a => Answer.isCorrect a = true) answers.
Proof.
  split; [|apply ScoringFacts.correctCount_all].
  unfold correctCount. induction answers as [|a rest IH]; [constructor|].
  simpl filter. pose proof (filter_length_le Answer.isCorrect rest) as Hle.
  destruct (Answer.isCorrect a) eqn:Ha; simpl List.length; intros Hlen.
  - constructor; [exact Ha|]. apply IH. lia.
  - lia.
Qed.

(** The types of the completion bonuses that depend on a full accuracy. *)
Lemma completion_types answers correctAnswers quizInfo :
  let types :=
    map Item.type (calculateCompletionBonuses answers correctAnswers quizInfo) in
  let full := JS.eqb (percentCorrect correctAnswers answers) (JS.of_Z 100) in
  (In "perfect_score" types <-> full = true)
  /\ (In "category_mastery" types
      <-> full = true
          /\ match QuizInfo.category quizInfo with
             | Some category => category <> EmptyString /\ category <> "all"
             | None => False
             end).
Proof.
  intros types full. unfold types, calculateCompletionBonuses. cbv zeta. fold full.
  destruct full;
    destruct (JS.geb (percentCorrect correctAnswers answers) (JS.of_Z 90));
    destruct (10 <=? Z.of_nat (List.length answers));
    destruct (QuizInfo.timeSpent quizInfo), (QuizInfo.timeLimit quizInfo);
    repeat match goal with
           | |- context [if negb (?a =? 0) && _ then _ else _] => destruct (negb (a =? 0) && _)
           | |- context [if JS.ltb ?a ?b && ?c then _ else _] => destruct (JS.ltb a b && c)
           end;
    (destruct (QuizInfo.category quizInfo) as [category|];
     [destruct (String.eqb_spec category EmptyString);
      destruct (String.eqb_spec category "all")|]);
    cbn [negb andb]; unfold push; cbn [app map Item.type In];
    split; intuition (discriminate || congruence).
Qed.

(** X29.  For a quiz with at least one answer (and fewer than 2^53), the
    bonus for a perfect score is among the completion bonuses of
    [calculateTotalScore] exactly when every answer is correct, and the
    bonus for category mastery exactly when, besides, a category other than
    "all" is given; the accuracy is then 100 and the grade A+. *)
Theorem perfect_score_means_all_correct answers quizInfo :
  answers <> [] -> Z.of_nat (List.length answers) < 2 ^ 53 ->
  let total := calculateTotalScore answers quizInfo in
  let types := map Item.type (Total.completionBonuses total) in
  let allCorrect := Forall (fun a => Answer.isCorrect a = true) answers in
  (In "perfect_score" types <-> allCorrect)
  /\ (In "category_mastery" types
      <-> allCorrect
          /\ match QuizInfo.category quizInfo with
             | Some category => category <> EmptyString /\ category <> "all"
             | None => False
             end)
  /\ (allCorrect ->
      Total.accuracy total = JS.of_Z 100
      /\ Grade.letter (Total.grade total) = "A+").
Proof.
  intros Hne Hlen total types allCorrect.
  assert (Hpos : 0 < Z.of_nat (List.length answers)).
  { destruct answers; [congruence|]. simpl List.length. lia. }
  pose proof (ScoringFacts.correctCount_bounds answers) as Hcount.
  pose proof (JSDiv.percent_full (correctCount answers) (Z.of_nat (List.length answers))
                Hcount (conj Hpos Hlen)) as Hfull.
  fold (percentCorrect (correctCount answers) answers) in Hfull.
  assert (Hall : JS.eqb (percentCorrect (correctCount answers) answers) (JS.of_Z 100) = true
                 <-> allCorrect).
  { rewrite Hfull, Z.eqb_eq. apply correctCount_full. }
  assert (Hbonuses : Total.completionBonuses total
                     = calculateCompletionBonuses answers (correctCount answers) quizInfo).
  { unfold total, calculateTotalScore. cbn [Total.completionBonuses].
    now rewrite ScoringFacts.fold_addAnswer_correct. }
  destruct (completion_types answers (correctCount answers) quizInfo) as [Hperfect Hmastery].
  cbv zeta in Hperfect, Hmastery.
  unfold types. rewrite Hbonuses.
  split; [now rewrite Hperfect|]. split; [now rewrite Hmastery, Hall|].
  intros Hcorrect. apply Hall in Hcorrect.
  change (JS.of_Z 100) with (S754_finite false 7036874417766400 (-46)) in Hcorrect.
  apply JSDiv.eqb_finite_eq in Hcorrect.
  unfold total, calculateTotalScore.
  cbn [Total.accuracy Total.grade]. rewrite ScoringFacts.fold_addAnswer_correct.
  cbn [Sums.zero Sums.correctAnswers]. rewrite Z.add_0_l.
  destruct (Nat.ltb_spec 0 (List.length answers)) as [_|Hbad]; [|lia].
  rewrite Hcorrect. split; reflexivity.
Qed.

(** Two answers, both correct, in a quiz on science. *)
Lemma perfect_score_means_all_correct_witness :
  let answers := [plainAnswer true 10; plainAnswer true 12] in
  let quizInfo := QuizInfo.mk (Some "Science") None None None in
  let total := calculateTotalScore answers quizInfo in
  let types := map Item.type (Total.completionBonuses total) in
  let allCorrect := Forall (fun a => Answer.isCorrect a = true) answers in
  (In "perfect_score" types <-> allCorrect)
  /\ (In "category_mastery" types
      <-> allCorrect
          /\ match QuizInfo.category quizInfo with
             | Some category => category <> EmptyString /\ category <> "all"
             | None => False
             end)
  /\ (allCorrect ->
      Total.accuracy total = JS.of_Z 100
      /\ Grade.letter (Total.grade total) = "A+").
Proof.
  apply (perfect_score_means_all_correct
           [plainAnswer true 10; plainAnswer true 12]
           (QuizInfo.mk (Some "Science") None None None)).
  - discriminate.
  - reflexivity.
Defined.

End ScoringBounds.
